(** * Result aggregation of the landing-page scripts

    A shallow embedding of the aggregation code of
    [landing_page/process_results.py], [landing_page/process_official_results.py]
    and [landing_page/generate_data.py], and the properties of it that the
    design document states.

    Conventions of the embedding.
    - A parsed JSON document is a tree [json]; a Python [dict] read from JSON
      is [JObj kvs], where [kvs] lists its items in insertion order (keys of
      a dict are distinct).
    - A Python float is a number, an infinity or NaN ([float]). The numbers
      are exact rationals: arithmetic on them neither rounds nor overflows,
      so that the embedding computes what Python computes as long as Python
      does not round and its floats stay in range; the statements that depend
      on it bound the values. The ints read from JSON are numbers as well:
      [float(x)] of an int is the int itself, where Python rounds an int
      that no float holds and raises [OverflowError] on one beyond the
      floats; the statements that depend on it take the values to be floats
      ([float64]). [int(x)] truncates towards zero.
    - A Python exception is a value [Raise e] of the type [result].
    - The dictionaries the scripts build ([steps_by_opt],
      [per_optimizer_histories], [step_to_values], the returned mappings) are
      finite maps [gmap].
    - [float(s)] and [int(s)] of a string [s] are parameters of the
      embedding ([StrParsers]), and so is the square root of a float
      ([SquareRoot]).
    - [np.argsort] is given integer keys; numpy converts them to machine
      integers, and to floats when they do not fit in one integer type. The
      embedding sorts the integers themselves, which is what numpy does
      when the keys are within [-2^63, 2^63). numpy leaves open in which
      order it gives the indices of equal keys; the embedding keeps them in
      the order of the input, and the statements about the normalizer of a
      trial hold for every order ([sort_and_repair_by]).
    - [sorted] of a list with a NaN, as [statistics.median] calls it,
      gives an order that depends on the steps of its algorithm; the
      embedding puts NaN last, and the statements about that median are
      about values without a NaN, or with one NaN as the last value, which
      is where [sorted] leaves it.
    - A file is what [json.load] reads from it ([FileContent]); a directory
      is the list of the entries that [iterdir] or [glob] yields, in the
      order in which they are yielded. File names are ASCII text. Printing
      is left out. *)

From Stdlib Require Import ZArith QArith Qabs Lqa Lia.
From stdpp Require Import base option list list_numbers sorting strings gmap fin_maps.

Local Open Scope Z_scope.

(** ** Python exceptions and the error monad *)

Inductive exn : Set :=
  | AttributeError | TypeError | ValueError | KeyError | IndexError | OverflowError.

Inductive result (A : Type) : Type :=
  | Ok (a : A)
  | Raise (e : exn).
Arguments Ok {A} a.
Arguments Raise {A} e.

#[global] Instance result_ret : MRet result := λ A a, Ok a.

#[global] Instance result_bind : MBind result := λ A B k m,
  match m with
  | Ok a => k a
  | Raise e => Raise e
  end.

(** [for x in l: s = body x s], stopping at the first exception. *)
Fixpoint for_each {A S} (l : list A) (body : A → S → result S) (s : S) : result S :=
  match l with
  | [] => Ok s
  | x :: l' => s' ← body x s; for_each l' body s'
  end.

(** ** Rational helpers *)

Definition Qlt_bool (x y : Q) : bool := negb (Qle_bool y x).

#[global] Instance Qle_dec (x y : Q) : Decision (x <= y)%Q.
Proof.
  destruct (Qle_bool x y) eqn:E.
  - left. by apply Qle_bool_iff.
  - right. intros H. apply Qle_bool_iff in H. congruence.
Defined.

#[global] Instance Qle_total : Total Qle.
Proof. intros x y. destruct (Qlt_le_dec x y); [left; by apply Qlt_le_weak|by right]. Qed.

(** Truncation towards zero, as [int(x)] does on a float. *)
Definition Qtrunc (x : Q) : Z := Z.quot (Qnum x) (Z.pos (Qden x)).

Definition Qsum (l : list Q) : Q := foldr Qplus 0%Q l.

(** ** Python floats *)

Inductive float : Type :=
  | Fin (q : Q)
  | PosInf
  | NegInf
  | NaN.

Module Float.

Definition is_nan (x : float) : bool :=
  match x with NaN => true | _ => false end.

(** [x < y]: false when one of them is NaN. *)
Definition ltb (x y : float) : bool :=
  match x, y with
  | NaN, _ | _, NaN => false
  | Fin p, Fin q => Qlt_bool p q
  | _, NegInf => false
  | NegInf, _ => true
  | PosInf, _ => false
  | _, PosInf => true
  end.

(** [x <= y]: false when one of them is NaN. *)
Definition leb (x y : float) : bool :=
  match x, y with
  | NaN, _ | _, NaN => false
  | Fin p, Fin q => Qle_bool p q
  | NegInf, _ => true
  | _, NegInf => false
  | _, PosInf => true
  | PosInf, _ => false
  end.

Definition le (x y : float) : Prop := leb x y = true.

(** [x == 0] *)
Definition is_zero (x : float) : bool :=
  match x with Fin q => Qeq_bool q 0 | _ => false end.

Definition opp (x : float) : float :=
  match x with
  | Fin q => Fin (- q)
  | PosInf => NegInf
  | NegInf => PosInf
  | NaN => NaN
  end.

(** [x + y]: the sum of the two infinities is NaN. *)
Definition add (x y : float) : float :=
  match x, y with
  | NaN, _ | _, NaN => NaN
  | Fin p, Fin q => Fin (p + q)
  | PosInf, NegInf | NegInf, PosInf => NaN
  | PosInf, _ | _, PosInf => PosInf
  | NegInf, _ | _, NegInf => NegInf
  end.

Definition sub (x y : float) : float := add x (opp y).

(** [x * x] *)
Definition square (x : float) : float :=
  match x with
  | Fin q => Fin (q * q)
  | PosInf | NegInf => PosInf
  | NaN => NaN
  end.

(** [x / n] for the length [n] of a list; numpy gives NaN for the mean of
    no value. *)
Definition div_nat (x : float) (n : nat) : float :=
  match n with
  | O => NaN
  | _ =>
      match x with
      | Fin q => Fin (q / inject_Z (Z.of_nat n))
      | _ => x
      end
  end.

Definition sum (l : list float) : float := foldr add (Fin 0) l.

(** [min] and [max] of Python, and the loops of numpy on values that are
    not NaN: the first of the least (of the largest) values. *)
Definition min2 (m y : float) : float := if ltb y m then y else m.
Definition max2 (m y : float) : float := if ltb m y then y else m.

(** The order in which [np.sort] puts floats: NaN comes last. *)
Definition sort_le (x y : float) : Prop := is_nan y = true ∨ le x y.

#[global] Instance sort_le_dec x y : Decision (sort_le x y).
Proof. unfold sort_le, le. apply _. Defined.

#[global] Instance sort_le_total : Total sort_le.
Proof.
  intros x y. unfold sort_le, le.
  destruct x as [p| | |], y as [q| | |]; cbn; auto.
  destruct (Qle_total p q) as [Hpq|Hqp]; [left|right]; right;
    by apply Qle_bool_iff.
Qed.

(** The number in lowest terms. *)
Definition red (x : float) : float :=
  match x with Fin q => Fin (Qred q) | _ => x end.

End Float.

(** [sqrt] on floats. *)
Class SquareRoot := float_sqrt : float → float.

(** The square root of the squares of rationals (elsewhere, the integer
    square roots of the numerator and of the denominator). *)
Definition rational_sqrt : SquareRoot := λ x,
  match x with
  | Fin q =>
      if Qlt_bool q 0 then NaN
      else Fin (inject_Z (Z.sqrt (Qnum (Qred q)))
                / inject_Z (Z.sqrt (Z.pos (Qden (Qred q)))))%Q
  | PosInf => PosInf
  | _ => NaN
  end.

(** ** numpy *)

Module Np.

(** [np.mean] of a list of floats, and [statistics.mean]. *)
Definition mean (l : list float) : float := Float.div_nat (Float.sum l) (length l).

Definition sort (l : list float) : list float := merge_sort Float.sort_le l.

(** [np.median]: NaN when a value is NaN; else the middle element of the
    sorted values, or the mean of the two middle ones when their number
    is even. *)
Definition median (l : list float) : float :=
  let s := sort l in
  let n := length s in
  if existsb Float.is_nan l then NaN
  else if Nat.even n
  then mean [nth (n / 2 - 1) s (Fin 0); nth (n / 2) s (Fin 0)]
  else mean [nth (n / 2) s (Fin 0)].

(** [np.min] and [np.max] of a non-empty list ([ValueError] on an empty
    one; every call in the scripts is guarded by [if steps:]): NaN when a
    value is NaN. *)
Definition min (l : list float) : float :=
  match l with
  | [] => Fin 0
  | x :: l' => if existsb Float.is_nan l then NaN else foldl Float.min2 x l'
  end.

Definition max (l : list float) : float :=
  match l with
  | [] => Fin 0
  | x :: l' => if existsb Float.is_nan l then NaN else foldl Float.max2 x l'
  end.

(** [np.argsort]: the indices that sort the keys in ascending order.
    numpy leaves the order of equal keys unspecified; here equal keys keep
    the order the merge sort gives them, and the properties below only use
    that the result is a sorting permutation. *)
Definition key_le (a b : Z * nat) : Prop := a.1 ≤ b.1.

#[global] Instance key_le_dec a b : Decision (key_le a b).
Proof. unfold key_le. apply _. Defined.

#[global] Instance key_le_total : Total key_le.
Proof. intros a b. unfold key_le. lia. Qed.

Definition argsort (keys : list Z) : list nat :=
  (merge_sort key_le (zip keys (seq 0 (length keys)))).*2.

(** [np.std]: the square root of the mean squared deviation from the
    mean. *)
Definition std `{SquareRoot} (l : list float) : float :=
  float_sqrt (mean ((λ x, Float.square (Float.sub x (mean l))) <$> l)).

End Np.

(** ** The module [statistics] and the builtins [min] and [max] *)

Module Statistics.

(** [statistics.median]: the middle element of [sorted(data)], or half
    the sum of the two middle ones. With a NaN among the values the order
    [sorted] gives depends on the steps of its algorithm, which are not
    modelled: here NaN comes last. *)
Definition median (data : list float) : float :=
  let data := Np.sort data in
  let n := length data in
  if Nat.odd n then nth (n / 2) data (Fin 0)
  else Float.div_nat (Float.add (nth (n / 2 - 1) data (Fin 0))
                                (nth (n / 2) data (Fin 0))) 2.

(** [min] and [max] of a non-empty list: the first of the least (of the
    largest) values, where a NaN is neither less nor more than a value. *)
Definition min (l : list float) : float :=
  match l with
  | [] => Fin 0
  | x :: l' => foldl Float.min2 x l'
  end.

Definition max (l : list float) : float :=
  match l with
  | [] => Fin 0
  | x :: l' => foldl Float.max2 x l'
  end.

End Statistics.

(** [[l[i] for i in order]]; [order] is a permutation of the indices of
    [l] wherever the scripts do this, so that no index is out of range. *)
Definition take_at {A} (l : list A) (order : list nat) : list A :=
  omap (λ i, l !! i) order.

(** ** Per-trial normalisation (sort by step, then best-so-far repair) *)

(** One iteration of
    [for i in range(1, len(best_values)):
       if best_values[i] < best_values[i - 1]: best_values[i] = best_values[i - 1]] *)
Definition repair_at (best_values : list float) (i : nat) : list float :=
  match best_values !! i, best_values !! (i - 1)%nat with
  | Some x, Some p => if Float.ltb x p then <[i := p]> best_values else best_values
  | _, _ => best_values
  end.

Definition ensure_monotonic (best_values : list float) : list float :=
  foldl repair_at best_values (seq 1 (length best_values - 1)).

(** The block under [if step_indices:] up to the [append]. *)
Definition sort_and_repair (step_indices : list Z) (best_values : list float)
  : list Z * list float :=
  let order := Np.argsort step_indices in
  let step_indices := take_at step_indices order in
  let best_values := take_at best_values order in
  (step_indices, ensure_monotonic best_values).

(** The same block when [np.argsort(step_indices)] returns [order]; numpy
    leaves open in which order it gives the indices of equal steps. *)
Definition sort_and_repair_by (order : list nat) (step_indices : list Z)
    (best_values : list float) : list Z * list float :=
  let step_indices := take_at step_indices order in
  let best_values := take_at best_values order in
  (step_indices, ensure_monotonic best_values).

(** The running maximum, as the design document words it: each value is
    replaced by the largest value seen so far. *)
Definition max_of (best x : float) : float := if Float.ltb x best then best else x.

Fixpoint running_max_from (best : float) (l : list float) : list float :=
  match l with
  | [] => []
  | x :: l' => max_of best x :: running_max_from (max_of best x) l'
  end.

Definition running_max (l : list float) : list float :=
  match l with
  | [] => []
  | x :: l' => x :: running_max_from x l'
  end.

(** A list of floats is non-decreasing: [l[i] <= l[i + 1]] throughout. *)
Definition nondecreasing (l : list float) : Prop :=
  ∀ i x y, l !! i = Some x → l !! S i = Some y → Float.le x y.

(** ** Parsed JSON documents and the Python operations applied to them *)

#[warnings="-register-all"]
Inductive json : Type :=
  | JNull
  | JBool (b : bool)
  | JNum (x : float)
  | JStr (s : string)
  | JArr (l : list json)
  | JObj (kvs : list (string * json)).

(** [float(s)] and [int(s)] of a string [s]: the parsers of the Python
    runtime, [None] where they raise [ValueError]. *)
Class StrParsers := {
  str_to_float : string → option float;
  str_to_int : string → option Z
}.

(** The runtime in which no string denotes a number. *)
Definition no_numeric_strings : StrParsers :=
  {| str_to_float := λ _, None; str_to_int := λ _, None |}.

Module Py.

Fixpoint assoc (k : string) (kvs : list (string * json)) : option json :=
  match kvs with
  | [] => None
  | (k', v) :: kvs' => if String.eqb k' k then Some v else assoc k kvs'
  end.

(** [x.get(k, default)] *)
Definition get (x : json) (k : string) (default : json) : result json :=
  match x with
  | JObj kvs => Ok (from_option id default (assoc k kvs))
  | _ => Raise AttributeError
  end.

(** [x[k]] for a string [k] *)
Definition getitem (x : json) (k : string) : result json :=
  match x with
  | JObj kvs => match assoc k kvs with Some v => Ok v | None => Raise KeyError end
  | _ => Raise TypeError
  end.

Definition is_str (k : string) (x : json) : bool :=
  match x with JStr s => String.eqb s k | _ => false end.

(** [k in x] for a string [k]: key of a dict, element of a list,
    substring of a string. *)
Definition contains (k : string) (x : json) : result bool :=
  match x with
  | JObj kvs => Ok (bool_decide (is_Some (assoc k kvs)))
  | JArr l => Ok (existsb (is_str k) l)
  | JStr s => Ok (bool_decide (is_Some (String.index 0 k s)))
  | _ => Raise TypeError
  end.

(** [bool(x)] *)
Definition truthy (x : json) : bool :=
  match x with
  | JNull => false
  | JBool b => b
  | JNum x => negb (Float.is_zero x)
  | JStr s => negb (String.eqb s "")
  | JArr l => negb (bool_decide (l = []))
  | JObj kvs => negb (bool_decide (kvs = []))
  end.

Definition is_none (x : json) : bool :=
  match x with JNull => true | _ => false end.

(** [isinstance(x, list)] *)
Definition is_list (x : json) : bool :=
  match x with JArr _ => true | _ => false end.

(** The elements [for y in x] visits. *)
Definition iter (x : json) : result (list json) :=
  match x with
  | JArr l => Ok l
  | JObj kvs => Ok (map (λ kv, JStr kv.1) kvs)
  | JStr s => Ok (map (λ c, JStr (String c EmptyString)) (String.list_ascii_of_string s))
  | _ => Raise TypeError
  end.

(** [len(x)] *)
Definition len (x : json) : result nat :=
  match x with
  | JArr l => Ok (length l)
  | JObj kvs => Ok (length kvs)
  | JStr s => Ok (String.length s)
  | _ => Raise TypeError
  end.

(** [x[i]] for an index [i] below [len(x)] *)
Definition index (x : json) (i : nat) : result json :=
  match x with
  | JArr l => match l !! i with Some y => Ok y | None => Raise IndexError end
  | JStr s =>
      match String.get i s with
      | Some c => Ok (JStr (String c EmptyString))
      | None => Raise IndexError
      end
  | JObj _ => Raise KeyError
  | _ => Raise TypeError
  end.

(** A value the [statistics] functions, [min] and [max] take as a number. *)
Definition number (x : json) : result float :=
  match x with
  | JNum x => Ok x
  | JBool b => Ok (Fin (if b then 1 else 0))
  | _ => Raise TypeError
  end.

(** [x.items()] *)
Definition items (x : json) : result (list (string * json)) :=
  match x with
  | JObj kvs => Ok kvs
  | _ => Raise AttributeError
  end.

(** [x == "k"] *)
Definition eq_str (x : json) (k : string) : bool := is_str k x.

Section conversions.
Context `{StrParsers}.

(** [int(x)] *)
Definition int (x : json) : result Z :=
  match x with
  | JNum (Fin q) => Ok (Qtrunc q)
  | JNum NaN => Raise ValueError
  | JNum _ => Raise OverflowError
  | JBool b => Ok (if b then 1 else 0)
  | JStr s => match str_to_int s with Some z => Ok z | None => Raise ValueError end
  | _ => Raise TypeError
  end.

(** [float(x)] *)
Definition float (x : json) : result float :=
  match x with
  | JNum x => Ok x
  | JBool b => Ok (Fin (if b then 1 else 0))
  | JStr s => match str_to_float s with Some x => Ok x | None => Raise ValueError end
  | _ => Raise TypeError
  end.
End conversions.

End Py.

(** ** Python strings *)

Module Str.
Import Stdlib.Strings.Ascii.

Definition underscore : ascii := "_"%char.

(** [s.startswith(p)] *)
Definition startswith (s p : string) : bool := String.prefix p s.

(** [p in s] *)
Fixpoint contains (p s : string) : bool :=
  String.prefix p s ||
  match s with
  | EmptyString => false
  | String _ s' => contains p s'
  end.

(** [s.replace(old, new)]: the occurrences of [old] are replaced from
    left to right, and an occurrence that overlaps a replaced one is not
    one. [skip] counts the characters of a replaced occurrence that are
    still to be passed over. *)
Fixpoint replace_from (old new s : string) (skip : nat) : string :=
  match s with
  | EmptyString => EmptyString
  | String c s' =>
      match skip with
      | S skip' => replace_from old new s' skip'
      | O =>
          if String.prefix old s
          then new +:+ replace_from old new s' (String.length old - 1)
          else String c (replace_from old new s' 0)
      end
  end.

(** With an empty [old], [new] is put before every character and at the
    end. *)
Fixpoint interleave (new s : string) : string :=
  match s with
  | EmptyString => new
  | String c s' => new +:+ String c (interleave new s')
  end.

Definition replace (s old new : string) : string :=
  match old with
  | EmptyString => interleave new s
  | _ => replace_from old new s 0
  end.

(** [s.split(sep)] for a separator of one character. *)
Fixpoint split (s : string) (sep : Ascii.ascii) : list string :=
  match s with
  | EmptyString => [EmptyString]
  | String c s' =>
      if Ascii.eqb c sep then EmptyString :: split s' sep
      else
        match split s' sep with
        | part :: parts => String c part :: parts
        | [] => [String c EmptyString]
        end
  end.

End Str.

(** ** Regular expressions *)

Module Re.
Import Stdlib.Strings.Ascii.

Definition dot : ascii := "."%char.

(** [\d] *)
Definition digit (c : Ascii.ascii) : bool := bool_decide (is_Some (Ascii.is_nat c)).

(** [[\d.]] *)
Definition digit_or_dot (c : Ascii.ascii) : bool := digit c || Ascii.eqb c dot.

(** The longest prefix of [s] made of characters of the class [cls]. *)
Fixpoint span (cls : Ascii.ascii → bool) (s : string) : string :=
  match s with
  | EmptyString => EmptyString
  | String c s' => if cls c then String c (span cls s') else EmptyString
  end.

(** What follows the prefix [lit] of [s], if [s] starts with [lit]. *)
Fixpoint after_prefix (lit s : string) : option string :=
  match lit, s with
  | EmptyString, _ => Some s
  | String a lit', String b s' => if Ascii.eqb a b then after_prefix lit' s' else None
  | String _ _, EmptyString => None
  end.

(** The match of the pattern [lit(cls+)] that starts at the beginning of
    [s]: its group. *)
Definition match_group (lit : string) (cls : Ascii.ascii → bool) (s : string)
  : option string :=
  match after_prefix lit s with
  | Some rest =>
      match span cls rest with
      | EmptyString => None
      | group => Some group
      end
  | None => None
  end.

(** [m = re.search(pattern, s); m.group(1) if m else None] for the
    pattern [lit(cls+)]: the leftmost match, with the longest group. *)
Fixpoint search_group (lit : string) (cls : Ascii.ascii → bool) (s : string)
  : option string :=
  match match_group lit cls s with
  | Some group => Some group
  | None =>
      match s with
      | EmptyString => None
      | String _ s' => search_group lit cls s'
      end
  end.

End Re.

(** A runtime that reads the unsigned decimal literals: [int("10")] is 10
    and [float("0.95")] is 0.95. *)
Fixpoint digits_value (acc : Z) (s : string) : option Z :=
  match s with
  | EmptyString => Some acc
  | String c s' => d ← Ascii.is_nat c; digits_value (10 * acc + Z.of_nat d) s'
  end.

Definition read_int (s : string) : option Z :=
  match s with
  | EmptyString => None
  | _ => digits_value 0 s
  end.

Definition read_float (s : string) : option Q :=
  let whole := Re.span Re.digit s in
  match Re.after_prefix whole s with
  | Some EmptyString => inject_Z <$> read_int whole
  | Some (String c fraction) =>
      if Ascii.eqb c Re.dot then
        w ← read_int whole;
        f ← read_int fraction;
        Some (Qred (inject_Z w
                    + inject_Z f / inject_Z (10 ^ Z.of_nat (String.length fraction))))
      else None
  | None => None
  end.

Definition decimal_strings : StrParsers :=
  {| str_to_float := λ s, Fin <$> read_float s; str_to_int := read_int |}.

(** ** Files *)

(** What [json.load(open(path))] gives: the parsed document, or one of the
    exceptions [FileNotFoundError], [json.JSONDecodeError], or another one. *)
Inductive FileContent :=
  | Document (data : json)
  | FileNotFoundError
  | JSONDecodeError
  | OtherError.

(** A file that [glob("*.json")] yields. *)
Record JsonFile := {
  file_name : string;
  file_content : FileContent
}.

(** An entry that [iterdir()] yields: its name and, when [is_dir()] holds,
    what the directory holds. *)
Record DirEntry (A : Type) := {
  entry_name : string;
  entry_dir : option A
}.
Arguments entry_name {A} _.
Arguments entry_dir {A} _.

(** [[f(x) for x in l]], stopping at the first exception. *)
Fixpoint mapM {A B} (f : A → result B) (l : list A) : result (list B) :=
  match l with
  | [] => Ok []
  | x :: l' => y ← f x; ys ← mapM f l'; Ok (y :: ys)
  end.

(** ** Aggregates *)

(** The per-optimizer summary of [collect_hide_label_stats]. *)
Record OptimizerSummary := {
  mean_steps : float;
  median_steps : float;
  min_steps : float;
  max_steps : float;
  count : nat
}.

(** The per-optimizer trajectory [{"steps": ..., "values": ...}]. *)
Record OptimizerTrajectory := {
  steps : list Z;
  values : list float
}.

(** One run of one optimizer: [(step_indices, best_values)]. *)
Definition run : Type := list Z * list float.

(** [d.setdefault(name, []).append(v)], and [d[name].append(v)] on a
    [defaultdict(list)]. *)
Definition append_to {V} (name : string) (v : V) (d : gmap string (list V))
  : gmap string (list V) :=
  <[name := default [] (d !! name) ++ [v]]> d.

(** [for k, a in d.items(): r = f a; if r is not skipped: out[k] = r].
    The items are visited in the order of the keys where Python visits them
    in the order of insertion; the iterations do not depend on each other,
    so that the order only decides which exception is reported when several
    items raise. *)
Definition for_items {A B} (f : A → result (option B)) (d : gmap string A)
  : result (gmap string B) :=
  for_each (map_to_list d)
    (λ '(k, a) out, r ← f a; Ok (from_option (λ b, <[k := b]> out) out r)) ∅.

(** [for k, vs in new.items(): d[k].extend(vs)] on a [defaultdict(list)]. *)
Definition extend_all {V} (new d : gmap string (list V)) : gmap string (list V) :=
  foldl (λ d '(k, vs), <[k := default [] (d !! k) ++ vs]> d) d (map_to_list new).

(** [for k, v in new.items(): d[k] = v] *)
Definition assign_all {V} (new d : gmap string V) : gmap string V :=
  foldl (λ d '(k, v), <[k := v]> d) d (map_to_list new).

(** ** Loops shared by the collectors

    The scripts repeat these loops verbatim in every branch. *)

Section collectors.
Context `{StrParsers}.

(** [for name, res in opt_res.items():
       steps = res.get(field)
       if steps is not None: steps_by_opt[name].append(float(steps))] *)
Definition pool_optimizer_results (field : string) (opt_res : json)
    (steps_by_opt : gmap string (list float)) : result (gmap string (list float)) :=
  items ← Py.items opt_res;
  for_each items (λ '(name, res) steps_by_opt,
    steps ← Py.get res field JNull;
    if Py.is_none steps then Ok steps_by_opt
    else v ← Py.float steps; Ok (append_to name v steps_by_opt)) steps_by_opt.

(** [competitions = tournament.get("competitions", [])
     for comp in competitions:
       opt_res = comp.get("optimizer_results", {})
       for name, res in opt_res.items(): ...] *)
Definition pool_tournament (tournament : json)
    (steps_by_opt : gmap string (list float)) : result (gmap string (list float)) :=
  competitions ← Py.get tournament "competitions" (JArr []);
  comps ← Py.iter competitions;
  for_each comps (λ comp steps_by_opt,
    opt_res ← Py.get comp "optimizer_results" (JObj []);
    pool_optimizer_results "steps_to_target" opt_res steps_by_opt) steps_by_opt.

(** [for tournament in tournaments: ...] *)
Definition pool_tournaments (tournaments : json)
    (steps_by_opt : gmap string (list float)) : result (gmap string (list float)) :=
  ts ← Py.iter tournaments;
  for_each ts pool_tournament steps_by_opt.

(** [best_value = record.get('best_value_so_far') or record.get('current_best')] *)
Definition best_value_of (record : json) : result json :=
  a ← Py.get record "best_value_so_far" JNull;
  if Py.truthy a then Ok a else Py.get record "current_best" JNull.

(** The body of [for record in history:] *)
Definition read_record (record : json) (acc : run) : result run :=
  step ← Py.get record "step" JNull;
  best_value ← best_value_of record;
  if negb (Py.is_none step) && negb (Py.is_none best_value) then
    s ← Py.int step;
    v ← Py.float best_value;
    Ok (acc.1 ++ [s], acc.2 ++ [v])
  else Ok acc.

(** [history = result.get('optimization_history', [])] and the loop over
    its records, giving [(step_indices, best_values)]. *)
Definition read_history (result_ : json) : result run :=
  history ← Py.get result_ "optimization_history" (JArr []);
  records ← Py.iter history;
  for_each records read_record ([], []).
End collectors.

(** [if step_indices: ...sort, repair...; per_optimizer_histories[name].append(...)] *)
Definition record_run (name : string) (r : run)
    (per_optimizer_histories : gmap string (list run)) : gmap string (list run) :=
  match r.1 with
  | [] => per_optimizer_histories
  | _ => append_to name (sort_and_repair r.1 r.2) per_optimizer_histories
  end.

Section collectors_open_race.
Context `{StrParsers}.

(** [for competition in competitions:
       optimizer_results = competition.get('optimizer_results', {})
       for name, result in optimizer_results.items(): ...] *)
Definition collect_runs (competitions : list json)
  : result (gmap string (list run)) :=
  for_each competitions (λ competition histories,
    optimizer_results ← Py.get competition "optimizer_results" (JObj []);
    items ← Py.items optimizer_results;
    for_each items (λ '(name, result_) histories,
      r ← read_history result_;
      Ok (record_run name r histories)) histories) ∅.
End collectors_open_race.

(** ** Aggregation of runs into a mean trajectory

    The loop body of [aggregate_open_race_histories], which
    [process_official_results.collect_open_race_histories] repeats. *)

(** [run_steps[-1] if run_steps else 0] *)
Definition last_step (run_steps : list Z) : Z := default 0 (last run_steps).

(** [max(run_steps[-1] if run_steps else 0 for run_steps, _ in runs)],
    for the non-empty [runs] the guard [if not runs: continue] leaves. *)
Definition max_step_of (runs : list run) : Z :=
  match runs with
  | [] => 0
  | r :: rs => foldl (λ m r', Z.max m (last_step r'.1)) (last_step r.1) rs
  end.

(** [{s: [] for s in range(max_step + 1)}] *)
Definition init_step_to_values (max_step : Z) : gmap Z (list float) :=
  list_to_map ((λ s, (s, [])) <$> seqZ 0 (max_step + 1)).

(** [step_to_values[s].append(v)] *)
Definition append_at (s : Z) (v : float) (step_to_values : gmap Z (list float))
  : result (gmap Z (list float)) :=
  match step_to_values !! s with
  | Some l => Ok (<[s := l ++ [v]]> step_to_values)
  | None => Raise KeyError
  end.

(** The body of [for run_steps, run_values in runs:] *)
Definition add_run (max_step : Z) (r : run) (step_to_values : gmap Z (list float))
  : result (gmap Z (list float)) :=
  m ← for_each (zip r.1 r.2) (λ '(step, value) m, append_at step value m) step_to_values;
  match r.1 with
  | [] => Ok m
  | _ =>
    match last r.2 with
    | None => Raise IndexError
    | Some last_value =>
      for_each (seqZ (last_step r.1 + 1) (max_step + 1 - (last_step r.1 + 1)))
        (λ s m, append_at s last_value m) m
    end
  end.

Definition fill_step_to_values (runs : list run) : result (gmap Z (list float)) :=
  for_each runs (add_run (max_step_of runs)) (init_step_to_values (max_step_of runs)).

(** [float(np.mean(step_to_values[s])) if step_to_values[s] else 0.0] *)
Definition mean_or_zero (samples : list float) : float :=
  match samples with
  | [] => Fin 0
  | _ => Np.mean samples
  end.

Definition step_value (step_to_values : gmap Z (list float)) (s : Z) : float :=
  mean_or_zero (default [] (step_to_values !! s)).

(** [sorted(step_to_values.keys())] *)
Definition sorted_keys (step_to_values : gmap Z (list float)) : list Z :=
  merge_sort Z.le (map_to_list step_to_values).*1.

Definition aggregate_runs (runs : list run) : result (option OptimizerTrajectory) :=
  match runs with
  | [] => Ok None
  | _ =>
    step_to_values ← fill_step_to_values runs;
    let agg_steps := sorted_keys step_to_values in
    Ok (Some {| steps := agg_steps;
                values := step_value step_to_values <$> agg_steps |})
  end.

(** ** Vocabulary of the statements *)

(** The values a run records at step [s] itself. *)
Definition observed (r : run) (s : Z) : list float :=
  (filter (λ p, p.1 = s) (zip r.1 r.2)).*2.

(** The forward-filled value of a run at step [s], if any. *)
Definition filled (max_step : Z) (r : run) (s : Z) : list float :=
  match r.1, last r.2 with
  | _ :: _, Some last_value =>
      if bool_decide (last_step r.1 < s ≤ max_step) then [last_value] else []
  | _, _ => []
  end.

(** The samples a run contributes at step [s]. *)
Definition contribution (max_step : Z) (r : run) (s : Z) : list float :=
  observed r s ++ filled max_step r s.

(** The samples all runs of an optimizer contribute at step [s], in the
    order of the runs. *)
Definition samples (runs : list run) (s : Z) : list float :=
  concat ((λ r, contribution (max_step_of runs) r s) <$> runs).

(** The pair [(keys[i], vals[i])]. *)
Definition pair_at {A B} (keys : list A) (vals : list B) (i : nat) : option (A * B) :=
  k ← keys !! i; v ← vals !! i; Some (k, v).

(** ** process_results.py *)

Module ProcessResults.
Section with_parsers.
Context `{StrParsers}.

Definition collect_hide_label_steps (data : json) : result (gmap string (list float)) :=
  tournaments ← Py.get data "all_tournament_results" (JArr []);
  let tournaments := if Py.truthy tournaments then tournaments else JArr [data] in
  pool_tournaments tournaments ∅.

Definition collect_open_race_histories (data : json)
  : result (gmap string (list run)) :=
  c ← Py.get data "competitions" JNull;
  tournament_results ←
    (if Py.is_list c then Ok data else Py.get data "tournament_results" (JObj []));
  competitions ← Py.get tournament_results "competitions" (JArr []);
  if negb (Py.truthy competitions) then Ok ∅
  else comps ← Py.iter competitions; collect_runs comps.
End with_parsers.

Definition aggregate_open_race_histories
    (per_optimizer_histories : gmap string (list run))
  : result (gmap string OptimizerTrajectory) :=
  for_items aggregate_runs per_optimizer_histories.

(** The per-optimizer statistics of [process_hide_label_directory] and of
    [main]. *)
Record DirectorySummary := {
  mean_steps : float;
  median_steps : float;
  std_steps : float;
  min_steps : float;
  max_steps : float;
  n_trials : nat
}.

Section directories.
Context `{StrParsers} `{SquareRoot}.

(** The block [# Calculate statistics] and, in [main],
    [# Recalculate aggregate statistics]. *)
Definition statistics_of (steps : list float) : option DirectorySummary :=
  match steps with
  | [] => None
  | _ => Some {| mean_steps := Np.mean steps;
                 median_steps := Np.median steps;
                 std_steps := Np.std steps;
                 min_steps := Np.min steps;
                 max_steps := Np.max steps;
                 n_trials := length steps |}
  end.

(** One iteration of [for json_file in results_dir.glob("*.json"):] in
    [process_hide_label_directory]; [except Exception] leaves
    [all_steps_by_opt] as it is. *)
Definition add_hide_label_file (all_steps_by_opt : gmap string (list float))
    (json_file : JsonFile) : gmap string (list float) :=
  match file_content json_file with
  | Document data =>
      match collect_hide_label_steps data with
      | Ok steps_by_opt => extend_all steps_by_opt all_steps_by_opt
      | Raise _ => all_steps_by_opt
      end
  | _ => all_steps_by_opt
  end.

Definition process_hide_label_directory (results_dir : list JsonFile)
  : gmap string DirectorySummary :=
  let all_steps_by_opt := foldl add_hide_label_file ∅ results_dir in
  omap statistics_of all_steps_by_opt.

(** One iteration of [for json_file in results_dir.glob("*.json"):] in
    [process_open_race_directory], and of the same loop in [main]. *)
Definition add_open_race_file (all_histories : gmap string (list run))
    (json_file : JsonFile) : gmap string (list run) :=
  match file_content json_file with
  | Document data =>
      match collect_open_race_histories data with
      | Ok histories => extend_all histories all_histories
      | Raise _ => all_histories
      end
  | _ => all_histories
  end.

Definition process_open_race_directory (results_dir : list JsonFile)
  : result (gmap string OptimizerTrajectory) :=
  let all_histories := foldl add_open_race_file ∅ results_dir in
  aggregate_open_race_histories all_histories.

(** [[stats['mean_steps']] * max(1, stats['n_trials'] // 10)] *)
Definition approximate_steps (stats : DirectorySummary) : list float :=
  replicate (Nat.max 1 (n_trials stats / 10)) (mean_steps stats).

(** [main], given the directories of [htl_dirs] and of [or_dirs] ([None]
    for one that does not exist): the summaries written to
    [hide_label_data.json] and to [open_race_data.json]. Both are
    written after the Open Race histories have been aggregated. *)
Definition main (htl_dirs or_dirs : list (option (list JsonFile)))
  : result (gmap string DirectorySummary * gmap string OptimizerTrajectory) :=
  let all_htl_steps :=
    foldl (λ all_htl_steps htl_dir,
      match htl_dir with
      | Some results_dir =>
          let summary := process_hide_label_directory results_dir in
          extend_all (approximate_steps <$> summary) all_htl_steps
      | None => all_htl_steps
      end) ∅ htl_dirs in
  let htl_summary := omap statistics_of all_htl_steps in
  let all_or_histories :=
    foldl (λ all_or_histories or_dir,
      match or_dir with
      | Some json_files => foldl add_open_race_file all_or_histories json_files
      | None => all_or_histories
      end) ∅ or_dirs in
  or_summary ← aggregate_open_race_histories all_or_histories;
  Ok (htl_summary, or_summary).
End directories.

End ProcessResults.

(** ** process_official_results.py *)

Module ProcessOfficialResults.

(** The block [# Calculate summary statistics]. *)
Definition summary_of (steps : list float) : option OptimizerSummary :=
  match steps with
  | [] => None
  | _ => Some {| mean_steps := Np.mean steps;
                 median_steps := Np.median steps;
                 min_steps := Np.min steps;
                 max_steps := Np.max steps;
                 count := length steps |}
  end.

Definition summarize (steps_by_opt : gmap string (list float))
  : gmap string OptimizerSummary :=
  omap summary_of steps_by_opt.

Section with_parsers.
Context `{StrParsers}.

(** [A and B] where [B] is only evaluated when [A] holds. *)
Definition and_then (a : bool) (b : result bool) : result bool :=
  if a then b else Ok false.

(** The branch [if data.get("type") == "analysis" and "items" in data:] *)
Definition pool_analysis (data : json) : result (gmap string (list float)) :=
  items ← Py.get data "items" (JArr []);
  its ← Py.iter items;
  for_each its (λ item steps_by_opt,
    item_data ← Py.get item "data" (JObj []);
    optimizer_stats ← Py.get item_data "optimizer_stats" (JObj []);
    pool_optimizer_results "mean_steps" optimizer_stats steps_by_opt) ∅.

(** The [else:] branch. *)
Definition pool_standard (data : json) : result (gmap string (list float)) :=
  tournaments ← Py.get data "tournament_results" (JArr []);
  let tournaments := if Py.truthy tournaments then tournaments else JArr [data] in
  let tournaments := if Py.is_list tournaments then tournaments else JArr [tournaments] in
  pool_tournaments tournaments ∅.

(** ["results" in data and key in data["results"]] *)
Definition results_has (data : json) (key : string) : result bool :=
  b ← Py.contains "results" data;
  and_then b (r ← Py.getitem data "results"; Py.contains key r).

(** The chain of [if]/[elif]/[else] of [collect_hide_label_stats], which
    fills [steps_by_opt]. *)
Definition collect_steps (data : json) : result (gmap string (list float)) :=
  ty ← Py.get data "type" JNull;
  is_analysis ← and_then (Py.eq_str ty "analysis") (Py.contains "items" data);
  if (is_analysis : bool) then pool_analysis data
  else
    b2 ← Py.contains "all_tournament_results" data;
    if (b2 : bool) then
      tournaments ← Py.getitem data "all_tournament_results";
      pool_tournaments tournaments ∅
    else
      b3 ← results_has data "all_tournament_results";
      if (b3 : bool) then
        r ← Py.getitem data "results";
        tournaments ← Py.getitem r "all_tournament_results";
        pool_tournaments tournaments ∅
      else
        b4 ← results_has data "tournament_results";
        if (b4 : bool) then
          r ← Py.getitem data "results";
          tournaments ← Py.getitem r "tournament_results";
          if Py.is_list tournaments then pool_tournaments tournaments ∅
          else Ok ∅
        else pool_standard data.

Definition collect_hide_label_stats (data : json)
  : result (gmap string OptimizerSummary) :=
  steps_by_opt ← collect_steps data;
  Ok (summarize steps_by_opt).

Definition collect_open_race_histories (data : json)
  : result (gmap string OptimizerTrajectory) :=
  in_results ← results_has data "competitions";
  tournament_results ←
    (if (in_results : bool) then Py.getitem data "results"
     else
       c ← Py.get data "competitions" JNull;
       if Py.is_list c then Ok data
       else Py.get data "tournament_results" (JObj []));
  competitions ← Py.get tournament_results "competitions" (JArr []);
  if negb (Py.truthy competitions) then Ok ∅
  else
    comps ← Py.iter competitions;
    per_optimizer_histories ← collect_runs comps;
    for_items aggregate_runs per_optimizer_histories.
End with_parsers.

(** The metadata [extract_file_info] returns. *)
Record FileInfo := {
  batch_size : option string;
  hidden_frac : option string;
  dataset : string
}.

Definition extract_file_info (filename : string) : FileInfo :=
  let batch_size := Re.search_group "Batch" Re.digit filename in
  let hidden_frac :=
    Re.search_group "Hidden_Percentage_" Re.digit_or_dot filename in
  let dataset :=
    if Str.startswith filename "DBO_rat_myocyte" then "rat_myocyte"
    else if Str.startswith filename "MOBO_rat_myocyte" then "rat_myocyte"
    else if Str.startswith filename "Hela_regular_mode" then "Hela_regular"
    else if Str.startswith filename "Hela_timesaving_mode" then "Hela_timesaving"
    else if Str.startswith filename "T_Cell" then "T_Cell"
    else if Str.startswith filename "TF_Cell" then "TF_Cell"
    else "unknown" in
  {| batch_size := batch_size; hidden_frac := hidden_frac; dataset := dataset |}.

(** What a result file gives for an optimizer: a summary of its steps to
    the target, or its mean trajectory. *)
Inductive Stats :=
  | HideLabel (summary : OptimizerSummary)
  | OpenRace (trajectory : OptimizerTrajectory).

(** [playground_data[hidden_frac][difficulty][race_type][batch_size]]:
    by dataset, then by optimizer. *)
Definition Datasets : Type := gmap string (gmap string Stats).

(** [playground_data] *)
Definition Playground : Type :=
  gmap Qcanon.Qc (gmap string (gmap string (gmap Z Datasets))).

(** [playground_data] after [# Initialize batch sizes]. *)
Definition initial_playground : Playground :=
  let by_batch : gmap Z Datasets := list_to_map ((λ b, (b, ∅)) <$> [1; 10; 20]) in
  let by_race : gmap string (gmap Z Datasets) :=
    list_to_map [("Hide_The_Label", by_batch); ("Open_Race", by_batch)] in
  let by_difficulty : gmap string (gmap string (gmap Z Datasets)) :=
    list_to_map [("Regular", by_race); ("Hard", by_race)] in
  list_to_map [(Qcanon.Q2Qc (95 # 100), by_difficulty); (Qcanon.Q2Qc (99 # 100), by_difficulty)].

Section files.
Context `{StrParsers}.

(** [process_result_file], on the parsed document. *)
Definition process_result_file (data : json) (race_type : string)
  : result (gmap string Stats) :=
  if String.eqb race_type "Hide_The_Label"
  then
    summary ← collect_hide_label_stats data;
    Ok (HideLabel <$> (summary : gmap string OptimizerSummary))
  else
    aggregated ← collect_open_race_histories data;
    Ok (OpenRace <$> (aggregated : gmap string OptimizerTrajectory)).

(** The body of [for json_file in json_files:], on
    [playground_data[hidden_frac][difficulty][race_type]]. Every
    exception raised under [try:] is caught, and none is raised after
    [playground_data] has been changed. *)
Definition store_file (race_type : string) (by_batch : gmap Z Datasets)
    (json_file : JsonFile) : gmap Z Datasets :=
  let file_info := extract_file_info (file_name json_file) in
  match batch_size file_info with
  | None => by_batch
  | Some digits =>
    match Py.int (JStr digits) with
    | Raise _ => by_batch
    | Ok batch_size =>
      let dataset := dataset file_info in
      if bool_decide (batch_size ∈ [1; 10; 20]) then
        match file_content json_file with
        | Document data =>
          match process_result_file data race_type with
          | Raise _ => by_batch
          | Ok results =>
            match by_batch !! batch_size with
            | None => by_batch
            | Some datasets =>
                <[batch_size :=
                    <[dataset := assign_all results (default ∅ (datasets !! dataset))]>
                      datasets]> by_batch
            end
          end
        | _ => by_batch
        end
      else by_batch
    end
  end.

(** The loop [for race_dir in difficulty_dir.iterdir():] *)
Definition store_race_dirs (hidden_frac : Qcanon.Qc) (difficulty : string)
    (playground_data : Playground)
    (race_dirs : list (DirEntry (list JsonFile))) : Playground :=
  foldl (λ playground_data race_dir,
    match entry_dir race_dir with
    | None => playground_data
    | Some json_files =>
        let race_type := entry_name race_dir in
        if bool_decide (race_type ∈ ["Hide_The_Label"; "Open_Race"]) then
          alter (alter (alter
            (λ by_batch, foldl (store_file race_type) by_batch json_files)
            race_type) difficulty) hidden_frac playground_data
        else playground_data
    end) playground_data race_dirs.

(** The loop [for difficulty_dir in hidden_frac_dir.iterdir():] *)
Definition store_difficulty_dirs (hidden_frac : Qcanon.Qc)
    (playground_data : Playground)
    (difficulty_dirs : list (DirEntry (list (DirEntry (list JsonFile)))))
  : Playground :=
  foldl (λ playground_data difficulty_dir,
    match entry_dir difficulty_dir with
    | None => playground_data
    | Some race_dirs =>
        if Str.contains "Regular_Mode" (entry_name difficulty_dir)
        then store_race_dirs hidden_frac "Regular" playground_data race_dirs
        else if Str.contains "Hard_Mode" (entry_name difficulty_dir)
        then store_race_dirs hidden_frac "Hard" playground_data race_dirs
        else playground_data
    end) playground_data difficulty_dirs.

(** [main], given what [Result_Official] holds ([None] when it does not
    exist): the [playground_data] written to [playground_data.json],
    if any. *)
Definition main
    (result_official :
       option (list (DirEntry (list (DirEntry (list (DirEntry (list JsonFile))))))))
  : option Playground :=
  match result_official with
  | None => None
  | Some hidden_frac_dirs =>
      Some (foldl (λ playground_data hidden_frac_dir,
        match entry_dir hidden_frac_dir with
        | None => playground_data
        | Some difficulty_dirs =>
            if Str.contains "hiddenfrac95" (entry_name hidden_frac_dir)
            then store_difficulty_dirs (Qcanon.Q2Qc (95 # 100)) playground_data difficulty_dirs
            else if Str.contains "hiddenfrac99" (entry_name hidden_frac_dir)
            then store_difficulty_dirs (Qcanon.Q2Qc (99 # 100)) playground_data difficulty_dirs
            else playground_data
        end) initial_playground hidden_frac_dirs)
  end.
End files.

End ProcessOfficialResults.

(** ** generate_data.py *)

Module GenerateData.

(** The trajectory [{'steps': ..., 'values': ..., 'final_best': ...}]. *)
Record RaceResult := {
  race_steps : list nat;
  race_values : list float;
  final_best : option float
}.

(** [{'mean_steps': statistics.mean(steps_list), ..., 'count': len(steps_list)}]
    under [if steps_list:], on numbers; [statistics.mean] is the mean
    modelled for numpy. *)
Definition summary_of (steps_list : list json) : result (option OptimizerSummary) :=
  match steps_list with
  | [] => Ok None
  | _ =>
    nums ← mapM Py.number steps_list;
    Ok (Some {| mean_steps := Np.mean nums;
                median_steps := Statistics.median nums;
                min_steps := Statistics.min nums;
                max_steps := Statistics.max nums;
                count := length steps_list |})
  end.

(** [for opt_name, opt_data in opt_results.items():
       steps = opt_data.get('steps_to_target')
       if steps is not None: optimizer_steps[opt_name].append(steps)] *)
Definition pool_raw (opt_results : json) (optimizer_steps : gmap string (list json))
  : result (gmap string (list json)) :=
  items ← Py.items opt_results;
  for_each items (λ '(opt_name, opt_data) optimizer_steps,
    steps ← Py.get opt_data "steps_to_target" JNull;
    Ok (if Py.is_none steps then optimizer_steps
        else append_to opt_name steps optimizer_steps)) optimizer_steps.

(** The body of [for tournament in data['tournament_results']:] *)
Definition process_tournament (tournament : json)
    (results : gmap string OptimizerSummary)
  : result (gmap string OptimizerSummary) :=
  optimizer_names ← Py.get tournament "optimizer_names" (JArr []);
  competitions ← Py.get tournament "competitions" (JArr []);
  comps ← Py.iter competitions;
  optimizer_steps ← for_each comps (λ competition optimizer_steps,
    opt_results ← Py.get competition "optimizer_results" (JObj []);
    pool_raw opt_results optimizer_steps) ∅;
  for_each (map_to_list optimizer_steps) (λ '(opt_name, steps_list) results,
    s ← summary_of steps_list;
    Ok (from_option (λ s, <[opt_name := s]> results) results s)) results.

(** [process_hide_label_file], on the parsed document. *)
Definition process_hide_label_file (data : json)
  : result (gmap string OptimizerSummary) :=
  b ← Py.contains "tournament_results" data;
  if (b : bool) then
    tournaments ← Py.getitem data "tournament_results";
    ts ← Py.iter tournaments;
    for_each ts process_tournament ∅
  else Ok ∅.

(** The values of the histories at position [step_idx]:
    [for history in histories:
       if step_idx < len(history):
         best_val = history[step_idx].get('best_value_so_far')
         if best_val is not None: step_values.append(best_val)] *)
Definition values_at (histories : list json) (step_idx : nat) : result (list json) :=
  for_each histories (λ history step_values,
    n ← Py.len history;
    if (step_idx <? n)%nat then
      record ← Py.index history step_idx;
      best_val ← Py.get record "best_value_so_far" JNull;
      Ok (if Py.is_none best_val then step_values else step_values ++ [best_val])
    else Ok step_values) [].

(** The body of [for opt_name, histories in optimizer_histories.items():] *)
Definition average_histories (histories : list json) : result (option RaceResult) :=
  match histories with
  | [] => Ok None
  | _ =>
    lens ← mapM Py.len histories;
    let max_steps := max_list lens in
    sv ← for_each (seq 0 max_steps) (λ step_idx sv,
      step_values ← values_at histories step_idx;
      match step_values with
      | [] => Ok sv
      | _ =>
        nums ← mapM Py.number step_values;
        Ok (sv.1 ++ [step_idx], sv.2 ++ [Np.mean nums])
      end) ([], []);
    Ok (Some {| race_steps := sv.1; race_values := sv.2; final_best := last sv.2 |})
  end.

(** [process_open_race_file], on the parsed document. *)
Definition process_open_race_file (data : json) : result (gmap string RaceResult) :=
  optimizer_names ← Py.get data "optimizer_names" (JArr []);
  competitions ← Py.get data "competitions" (JArr []);
  comps ← Py.iter competitions;
  optimizer_histories ← for_each comps (λ competition optimizer_histories,
    opt_results ← Py.get competition "optimizer_results" (JObj []);
    items ← Py.items opt_results;
    for_each items (λ '(opt_name, opt_data) optimizer_histories,
      history ← Py.get opt_data "optimization_history" (JArr []);
      Ok (append_to opt_name history optimizer_histories)) optimizer_histories) ∅;
  for_items average_histories optimizer_histories.

(** The keys and the values of [DATASET_MAP], in the order in which they
    are written. *)
Definition DATASET_MAP : list (string * string) :=
  [("T_Cell", "T_Cell");
   ("TF_Cell", "TF_Cell");
   ("Hela_regular_mode", "Hela_regular");
   ("Hela_timesaving_mode", "Hela_timesaving");
   ("rat_myocyte", "rat_myocyte")].

(** The metadata [extract_metadata_from_filename] returns. *)
Record Metadata := {
  optimizer : string;
  dataset : option string;
  mode : string;
  race_type : string;
  batch : option Z;
  hidden_frac : option float
}.

Section filenames.
Context `{StrParsers}.

(** [for part in parts:
       if part.startswith("Batch"):
         batch = int(part.replace("Batch", "")); break] *)
Definition batch_of (parts : list string) : result (option Z) :=
  match List.find (λ part, Str.startswith part "Batch") parts with
  | Some part => b ← Py.int (JStr (Str.replace part "Batch" "")); Ok (Some b)
  | None => Ok None
  end.

(** [for i, part in enumerate(parts):
       if part == "Percentage":
         try: hidden_frac = float(parts[i + 1])
         except (IndexError, ValueError): pass
         break]
    On a string, [float] raises no other exception than [ValueError]. *)
Definition hidden_frac_of (parts : list string) : option float :=
  match list_find (λ part, part = "Percentage") parts with
  | Some (i, _) =>
      match parts !! S i with
      | Some part => str_to_float part
      | None => None
      end
  | None => None
  end.

Definition extract_metadata_from_filename (filename : string) : result Metadata :=
  let parts := Str.split (Str.replace filename ".json" "") Str.underscore in
  let optimizer := hd "" parts in
  let dataset :=
    snd <$> List.find (λ ds : string * string, Str.contains ds.1 filename) DATASET_MAP in
  let mode := if Str.contains "Easy" filename then "Regular" else "Hard" in
  let race_type :=
    if Str.contains "Hide_The_Label" filename then "Hide_The_Label" else "Open_Race" in
  batch ← batch_of parts;
  let hidden_frac := hidden_frac_of parts in
  Ok {| optimizer := optimizer; dataset := dataset; mode := mode;
        race_type := race_type; batch := batch; hidden_frac := hidden_frac |}.
End filenames.

End GenerateData.

(** ** docs/validate_setup.py *)

Module ValidateSetup.

(** The message [validate_json_file] returns beside its verdict; the text
    of a caught exception is left out. *)
Inductive Message :=
  | MissingExpectedKeys (missing_keys : list string)
  | ValidJSON (entries : nat)
  | FileNotFound
  | InvalidJSON
  | Error.

(** [[k for k in expected_keys if k not in data]] *)
Fixpoint missing_keys (expected_keys : list string) (data : json)
  : result (list string) :=
  match expected_keys with
  | [] => Ok []
  | k :: expected_keys' =>
      b ← Py.contains k data;
      ks ← missing_keys expected_keys' data;
      Ok (if (b : bool) then ks else k :: ks)
  end.

(** [validate_json_file], given what loading the file gives;
    [expected_keys] is [None] or a list of strings. *)
Definition validate_json_file (file : FileContent)
    (expected_keys : option (list string)) : bool * Message :=
  match file with
  | Document data =>
      let checked :=
        missing ← match expected_keys with
                  | Some ((_ :: _) as keys) => missing_keys keys data
                  | _ => Ok []
                  end;
        match missing with
        | _ :: _ => Ok (false, MissingExpectedKeys missing)
        | [] => entries ← Py.len data; Ok (true, ValidJSON entries)
        end in
      match checked with
      | Ok verdict => verdict
      | Raise _ => (false, Error)
      end
  | FileNotFoundError => (false, FileNotFound)
  | JSONDecodeError => (false, InvalidJSON)
  | OtherError => (false, Error)
  end.

End ValidateSetup.

(** A run whose steps all are keys of [step_to_values]. *)
Definition in_range (max_step : Z) (r : run) : Prop :=
  Forall (λ s, 0 ≤ s ≤ max_step) r.1 ∧ (r.1 ≠ [] → r.2 ≠ []).

(** A run as [sort_and_repair] leaves it, with step indices from 0 on. *)
Definition sorted_run (r : run) : Prop :=
  length r.1 = length r.2 ∧ Sorted Z.le r.1 ∧ Forall (λ s, 0 ≤ s) r.1.

(** A run with exactly one observation at each of the steps [0 .. n-1],
    whose values never decrease. *)
Definition dense_run (r : run) : Prop :=
  r.2 ≠ [] ∧ r.1 = seqZ 0 (Z.of_nat (length r.2)) ∧ nondecreasing r.2.

(** The value of a dense run at step [s]: the observed one, or the last. *)
Definition value_at (r : run) (s : Z) : float :=
  from_option id (default (Fin 0) (last r.2)) (r.2 !! Z.to_nat s).

(** No value of the list is less than the one before it. *)
Definition no_descent (l : list float) : Prop :=
  ∀ i x y, l !! i = Some x → l !! S i = Some y → Float.ltb y x = false.

(** No value of the list is NaN. *)
Definition no_nan (l : list float) : Prop :=
  Forall (λ x, Float.is_nan x = false) l.

(** [x] is a number, and the sum of [n] numbers of its size is within the
    range of the floats of Python, whose largest is just below [2^1024]. *)
Definition summable (n : nat) (x : float) : Prop :=
  match x with
  | Fin q => (Qabs q * inject_Z (Z.of_nat n) <= inject_Z (2 ^ 1023))%Q
  | _ => False
  end.

(** Both are numbers, the first at most the second. *)
Definition below (x y : float) : Prop :=
  ∃ p q, x = Fin p ∧ y = Fin q ∧ (p <= q)%Q.

(** A trial: the optimizer's name and the [(step_indices, best_values)] read
    from one of its histories. *)
Definition trial : Type := string * run.

(** [per_optimizer_histories] after the trials have been recorded in order. *)
Definition record_all (trials : list trial) : gmap string (list run) :=
  foldl (λ histories t, record_run t.1 t.2 histories) ∅ trials.

(** The trials the loops of [collect_runs] read, in the order of the visit. *)
Definition read_trials `{StrParsers} (competitions : list json)
  : result (list trial) :=
  for_each competitions (λ competition trials,
    optimizer_results ← Py.get competition "optimizer_results" (JObj []);
    items ← Py.items optimizer_results;
    for_each items (λ '(name, result_) trials,
      r ← read_history result_;
      Ok (trials ++ [(name, r)])) trials) [].

(** The value of a history record as the design document reads it: the
    best value so far, or the current best when that is null or missing. *)
Definition first_non_null (record : json) : result json :=
  a ← Py.get record "best_value_so_far" JNull;
  if Py.is_none a then Py.get record "current_best" JNull else Ok a.

(** The (step, value) pair of a history record that has a step and a
    value. *)
Definition pair_of `{StrParsers} (record : json) : result (option (Z * float)) :=
  step ← Py.get record "step" JNull;
  value ← first_non_null record;
  if negb (Py.is_none step) && negb (Py.is_none value) then
    s ← Py.int step;
    v ← Py.float value;
    Ok (Some (s, v))
  else Ok None.

(** The (step, value) pairs of the history of a trial, in the order of its
    records. *)
Definition history_pairs `{StrParsers} (result_ : json) : result (list (Z * float)) :=
  history ← Py.get result_ "optimization_history" (JArr []);
  records ← Py.iter history;
  pairs ← mapM pair_of records;
  Ok (omap id (pairs : list (option (Z * float)))).

(** The best value so far of the record is null, or missing, or counts as
    true: it is not one that [or] passes over without its being null, as
    0.0 is. *)
Definition best_value_counts (record : json) : Prop :=
  ∀ a, Py.get record "best_value_so_far" JNull = Ok a →
       Py.is_none a = true ∨ Py.truthy a = true.

(** The same of every record of the history of a trial. *)
Definition best_values_count (result_ : json) : Prop :=
  ∀ history records,
    Py.get result_ "optimization_history" (JArr []) = Ok history →
    Py.iter history = Ok records →
    Forall best_value_counts records.

(** The steps are in the range of the machine integers, within which numpy
    sorts the integers themselves. *)
Definition in_int64 (step_indices : list Z) : Prop :=
  Forall (λ s, - 2 ^ 63 ≤ s < 2 ^ 63) step_indices.

(** [order] is a result [np.argsort] may give for the keys: the indices of
    the keys, each once, in an order in which the keys ascend. *)
Definition sorting_order (keys : list Z) (order : list nat) : Prop :=
  order ≡ₚ seq 0 (length keys) ∧ Sorted Z.le (take_at keys order).

(** [x] is a float of Python (a double): an infinity, NaN, or a number
    [m * 2^e] with [|m| < 2^53] and [-1074 <= e <= 971]. A float of a
    document is one; an integer of a document is one when [float] converts
    it without rounding. *)
Definition float64 (x : float) : Prop :=
  match x with
  | Fin q => ∃ m e : Z,
      Z.abs m < 2 ^ 53 ∧ -1074 ≤ e ≤ 971 ∧ (q == inject_Z m * 2 ^ e)%Q
  | _ => True
  end.

(** The runs of an optimizer: its trials with at least one step, sorted and
    repaired. *)
Definition runs_of (name : string) (trials : list trial) : list run :=
  (λ t : trial, sort_and_repair t.2.1 t.2.2)
    <$> filter (λ t : trial, t.1 = name ∧ t.2.1 ≠ []) trials.

(** The record [res] has a non-null member [field]. *)
Definition entry_has (field : string) (res : json) : bool :=
  match res with
  | JObj fields =>
      match Py.assoc field fields with
      | Some v => negb (Py.is_none v)
      | None => false
      end
  | _ => false
  end.

(** Somewhere in the document [j] a dictionary stores, under the key [name],
    a record with a non-null member [field]. *)
Fixpoint has_value (field name : string) (j : json) : bool :=
  match j with
  | JArr l => existsb (has_value field name) l
  | JObj kvs =>
      existsb (λ kv, (String.eqb kv.1 name && entry_has field kv.2)
                     || has_value field name kv.2) kvs
  | _ => false
  end.

(** No record of [name] in the document [j] has a value for [field]. *)
Definition lacks (field name : string) (j : json) : Prop :=
  has_value field name j = false.

(** The document has the pre-aggregated shape: its ["type"] is
    ["analysis"] and it has a key ["items"]. *)
Definition analysis_shape (data : json) : bool :=
  match data with
  | JObj kvs =>
      Py.is_str "analysis" (default JNull (Py.assoc "type" kvs))
      && bool_decide (is_Some (Py.assoc "items" kvs))
  | _ => false
  end.

(** The member of a record that [collect_hide_label_stats] pools. *)
Definition value_field (data : json) : string :=
  if analysis_shape data then "mean_steps" else "steps_to_target".



(** Some history has a non-null [best_value_so_far] at position [step_idx]. *)
Definition has_values (histories : list json) (step_idx : nat) : bool :=
  match GenerateData.values_at histories step_idx with
  | Ok (_ :: _) => true
  | _ => false
  end.

(** The entry of an optimizer in a returned mapping. *)
Definition entry_of {A} (name : string) (r : result (gmap string A))
  : result (option A) :=
  out ← r; Ok (out !! name).

(** The steps and values of a returned trajectory, the values as fractions
    in lowest terms. *)
Definition lowest_terms (r : result (option OptimizerTrajectory))
  : option (list Z * list float) :=
  match r with
  | Ok (Some t) => Some (steps t, Float.red <$> values t)
  | _ => None
  end.

(** ** Documents used as examples *)

(** An Open Race document in which optimizer [A] is observed at steps 0
    and 2 only. *)
Definition doc_gap : json :=
  JObj [("competitions", JArr [
    JObj [("optimizer_results", JObj [
      ("A", JObj [("optimization_history", JArr [
         JObj [("step", JNum (Fin 0)); ("best_value_so_far", JNum (Fin 1))];
         JObj [("step", JNum (Fin 2)); ("best_value_so_far", JNum (Fin 5))]])])])]])].


(** A Hide-the-Label document in which optimizer [B] never reached the
    target. *)
Definition doc_absent : json :=
  JObj [("tournament_results", JArr [
    JObj [("competitions", JArr [
      JObj [("optimizer_results", JObj [
        ("A", JObj [("steps_to_target", JNum (Fin 12))]);
        ("B", JObj [("steps_to_target", JNull)])])];
      JObj [("optimizer_results", JObj [
        ("A", JObj [("steps_to_target", JNum (Fin 20))]);
        ("B", JObj [])])]])]])].



(** Documents whose shape varies inside a recognized key: a tournament
    whose ["competitions"] is null, an optimizer whose history is null, and
    a history with a negative step. *)
Definition doc_null_competitions : json :=
  JObj [("tournament_results", JArr [JObj [("competitions", JNull)]])].

Definition doc_null_history : json :=
  JObj [("competitions", JArr [
    JObj [("optimizer_results", JObj [
      ("A", JObj [("optimization_history", JNull)])])]])].

Definition doc_negative_step : json :=
  JObj [("competitions", JArr [
    JObj [("optimizer_results", JObj [
      ("A", JObj [("optimization_history", JArr [
         JObj [("step", JNum (Fin (-1))); ("best_value_so_far", JNum (Fin 1))]])])])]])].

(** An Open Race document whose ["results"] is null. *)
Definition doc_null_results : json :=
  JObj [("results", JNull);
        ("competitions", JArr [
           JObj [("optimizer_results", JObj [
             ("A", JObj [("optimization_history", JArr [
                JObj [("step", JNum (Fin 0)); ("best_value_so_far", JNum (Fin 1))]])])])]])].

(** The result of a trial with the history [(0, 5.0), (1, 3.0), (2, 7.0)],
    and of one whose second value is NaN. *)
Definition trial_history (records : list (Q * float)) : json :=
  JObj [("optimization_history",
         JArr ((λ p : Q * float,
                  JObj [("step", JNum (Fin p.1)); ("best_value_so_far", JNum p.2)])
               <$> records))].

Definition trial_5_3_7 : json :=
  trial_history [(0%Q, Fin 5); (1%Q, Fin 3); (2%Q, Fin 7)].

Definition trial_with_nan : json :=
  trial_history [(0%Q, Fin 1); (1%Q, NaN); (2%Q, Fin (1 # 2))].

(** An Open Race document in which the one trial of [A] records the step
    -1 twice. *)
Definition doc_repeated_negative_step : json :=
  JObj [("competitions", JArr [
    JObj [("optimizer_results", JObj [
      ("A", trial_history [((-1)%Q, Fin 1); ((-1)%Q, Fin 2)])])]])].

(** History records whose best value so far is 0.0. *)
Definition record_zero : json :=
  JObj [("step", JNum (Fin 0)); ("best_value_so_far", JNum (Fin 0))].

Definition record_zero_then_current : json :=
  JObj [("step", JNum (Fin 1)); ("best_value_so_far", JNum (Fin 0)); ("current_best", JNum (Fin 3))].

(** An Open Race document in which the history of [A] is empty and the
    second record of [B] has no best value. *)
Definition doc_sparse : json :=
  JObj [("competitions", JArr [
    JObj [("optimizer_results", JObj [
      ("A", JObj [("optimization_history", JArr [])]);
      ("B", JObj [("optimization_history", JArr [
         JObj [("step", JNum (Fin 0)); ("best_value_so_far", JNum (Fin 1))];
         JObj [("step", JNum (Fin 1)); ("best_value_so_far", JNull)];
         JObj [("step", JNum (Fin 2)); ("best_value_so_far", JNum (Fin 4))]])])])]])].

(** ** Vocabulary and examples of the further properties *)

(** A Hide-the-Label document with the wrapper ["all_tournament_results"],
    of two tournaments. *)
Definition doc_all_tournaments : list (string * json) :=
  [("all_tournament_results", JArr [
     JObj [("competitions", JArr [
       JObj [("optimizer_results", JObj [
         ("A", JObj [("steps_to_target", JNum (Fin 12))]);
         ("B", JObj [("steps_to_target", JNum (Fin 30))])])]])];
     JObj [("competitions", JArr [
       JObj [("optimizer_results", JObj [
         ("A", JObj [("steps_to_target", JNum (Fin 20))])])]])]])].

(** A run as the collectors store it: with at least one step, as many
    values as steps, and the steps in ascending order. *)
Definition collected_run (r : run) : Prop :=
  r.1 ≠ [] ∧ length r.1 = length r.2 ∧ Sorted Z.le r.1.

(** What a file adds to the steps that [process_hide_label_directory]
    pools, and to the histories that [process_open_race_directory] pools. *)
Definition file_steps `{StrParsers} (json_file : JsonFile) : gmap string (list float) :=
  match file_content json_file with
  | Document data =>
      match ProcessResults.collect_hide_label_steps data with
      | Ok steps_by_opt => steps_by_opt
      | Raise _ => ∅
      end
  | _ => ∅
  end.

Definition file_histories `{StrParsers} (json_file : JsonFile)
  : gmap string (list run) :=
  match file_content json_file with
  | Document data =>
      match ProcessResults.collect_open_race_histories data with
      | Ok histories => histories
      | Raise _ => ∅
      end
  | _ => ∅
  end.

(** The file cannot be loaded, or the collector raises on its document. *)
Definition fails {A} (collect : json → result A) (json_file : JsonFile) : Prop :=
  match file_content json_file with
  | Document data => ∃ e, collect data = Raise e
  | _ => True
  end.

(** The values of an optimizer in the maps [ds], one after the other. *)
Definition pooled {V} (name : string) (ds : list (gmap string (list V))) : list V :=
  concat ((λ d, default [] (d !! name)) <$> ds).

(** The steps that [main] takes for an optimizer from one directory of
    Hide-the-Label results. *)
Definition directory_steps `{StrParsers} `{SquareRoot} (name : string)
    (htl_dir : option (list JsonFile)) : list float :=
  match htl_dir with
  | Some results_dir =>
      match ProcessResults.process_hide_label_directory results_dir !! name with
      | Some stats => ProcessResults.approximate_steps stats
      | None => []
      end
  | None => []
  end.

(** Two Hide-the-Label files, the second of which is no JSON. *)
Definition htl_file_a : JsonFile :=
  {| file_name := "a.json"; file_content := Document (JObj doc_all_tournaments) |}.

Definition htl_file_bad : JsonFile :=
  {| file_name := "bad.json"; file_content := JSONDecodeError |}.

(** Two Open Race files, the second of which records a negative step. *)
Definition or_file_gap : JsonFile :=
  {| file_name := "gap.json"; file_content := Document doc_gap |}.

Definition or_file_negative : JsonFile :=
  {| file_name := "negative.json"; file_content := Document doc_negative_step |}.

(** Every character of [s] is of the class [cls]. *)
Fixpoint all_of (cls : Ascii.ascii → bool) (s : string) : bool :=
  match s with
  | EmptyString => true
  | String c s' => cls c && all_of cls s'
  end.

(** [s] starts with a character of the class [cls]. *)
Definition starts_with (cls : Ascii.ascii → bool) (s : string) : bool :=
  match s with
  | EmptyString => false
  | String c _ => cls c
  end.

(** The name of a result file, as the scripts' comments give it. *)
Definition example_file_name : string :=
  "DBO_rat_myocyte_Hard_Hide_The_Label_Notallopt_Batch10_Hidden_Percentage_0.95_20251015_202559.json".

(** What [main] of [process_official_results.py] stores for a file of a
    race directory: the batch size and the dataset read off its name, and
    the results of its document. Nothing is stored when the name has no
    batch size, or one that is not 1, 10 or 20, when the file cannot be
    loaded, or when processing its document raises. *)
Definition stored `{StrParsers} (race_type : string) (json_file : JsonFile)
  : option (Z * string * gmap string ProcessOfficialResults.Stats) :=
  let file_info := ProcessOfficialResults.extract_file_info (file_name json_file) in
  digits ← ProcessOfficialResults.batch_size file_info;
  batch_size ← str_to_int digits;
  if bool_decide (batch_size ∈ [1; 10; 20]) then
    match file_content json_file with
    | Document data =>
        match ProcessOfficialResults.process_result_file data race_type with
        | Ok results =>
            Some (batch_size, ProcessOfficialResults.dataset file_info, results)
        | Raise _ => None
        end
    | _ => None
    end
  else None.

(** The entry that a file gives an optimizer under a batch size and a
    dataset, if it gives one. *)
Definition writes `{StrParsers} (race_type : string) (batch_size : Z)
    (dataset name : string) (json_file : JsonFile)
  : option ProcessOfficialResults.Stats :=
  '(b, d, results) ← stored race_type json_file;
  if bool_decide (b = batch_size ∧ d = dataset) then results !! name else None.

(** [by_batch[batch_size][dataset][name]], if there is such an entry. *)
Definition entry_at (by_batch : gmap Z ProcessOfficialResults.Datasets)
    (batch_size : Z) (dataset name : string) : option ProcessOfficialResults.Stats :=
  datasets ← by_batch !! batch_size;
  optimizers ← (datasets : ProcessOfficialResults.Datasets) !! dataset;
  (optimizers : gmap string ProcessOfficialResults.Stats) !! name.

(** Two result files of the same dataset and batch size. *)
Definition official_file_1 : JsonFile :=
  {| file_name := "T_Cell_Easy_Hide_The_Label_Batch10_Hidden_Percentage_0.95_1.json";
     file_content := Document (JObj doc_all_tournaments) |}.

Definition official_file_2 : JsonFile :=
  {| file_name := "T_Cell_Easy_Hide_The_Label_Batch10_Hidden_Percentage_0.95_2.json";
     file_content := Document doc_absent |}.

(** The histories of an optimizer in two competitions; the second record of
    the first one has no best value. *)
Definition example_histories : list json :=
  [JArr [JObj [("step", JNum (Fin 7)); ("best_value_so_far", JNum (Fin 1))];
         JObj [("step", JNum (Fin 8)); ("current_best", JNum (Fin 9))]];
   JArr [JObj [("best_value_so_far", JNum (Fin 3))];
         JObj [("best_value_so_far", JNum (Fin 5))]]].

(** [p] has no underscore. *)
Definition plain (p : string) : bool :=
  all_of (λ c, negb (Ascii.eqb c Str.underscore)) p.

(** ["_".join(parts)] *)
Fixpoint join (parts : list string) : string :=
  match parts with
  | [] => EmptyString
  | p :: parts' =>
      match parts' with
      | [] => p
      | _ => p +:+ String Str.underscore (join parts')
      end
  end.

(** The values of [first] followed, optimizer by optimizer, by those of
    [second]. *)
Definition followed_by {V} (first second : gmap string (list V))
  : gmap string (list V) :=
  union_with (λ x y, Some (x ++ y)) first second.

(** The Hide-the-Label document with the tournaments [tournaments] under
    ["all_tournament_results"]. *)
Definition all_tournaments (tournaments : list json) : json :=
  JObj [("all_tournament_results", JArr tournaments)].

(** Two tournaments, of one competition each. *)
Definition tournament_1 : json :=
  JObj [("competitions", JArr [
    JObj [("optimizer_results", JObj [
      ("A", JObj [("steps_to_target", JNum (Fin 12))]);
      ("B", JObj [("steps_to_target", JNum (Fin 30))])])]])].

Definition tournament_2 : json :=
  JObj [("competitions", JArr [
    JObj [("optimizer_results", JObj [
      ("A", JObj [("steps_to_target", JNum (Fin 20))])])]])].

(** The hidden fraction and the difficulty that [main] of
    [process_official_results.py] reads off the name of a directory. *)
Definition hidden_frac_of_name (name : string) : option Qcanon.Qc :=
  if Str.contains "hiddenfrac95" name then Some (Qcanon.Q2Qc (95 # 100))
  else if Str.contains "hiddenfrac99" name then Some (Qcanon.Q2Qc (99 # 100))
  else None.

Definition difficulty_of_name (name : string) : option string :=
  if Str.contains "Regular_Mode" name then Some "Regular"
  else if Str.contains "Hard_Mode" name then Some "Hard"
  else None.

(** The result files that belong to a race type, to a difficulty and a race
    type, and to a hidden fraction, a difficulty and a race type, in the
    order in which the directories list them. An entry that is no directory
    has none. *)
Definition race_files (race_type : string)
    (race_dirs : list (DirEntry (list JsonFile))) : list JsonFile :=
  concat ((λ race_dir,
    if bool_decide (entry_name race_dir = race_type)
    then default [] (entry_dir race_dir) else []) <$> race_dirs).

Definition difficulty_files (difficulty race_type : string)
    (difficulty_dirs : list (DirEntry (list (DirEntry (list JsonFile)))))
  : list JsonFile :=
  concat ((λ difficulty_dir,
    if bool_decide (difficulty_of_name (entry_name difficulty_dir) = Some difficulty)
    then race_files race_type (default [] (entry_dir difficulty_dir))
    else []) <$> difficulty_dirs).

Definition slot_files (hidden_frac : Qcanon.Qc) (difficulty race_type : string)
    (hidden_frac_dirs :
       list (DirEntry (list (DirEntry (list (DirEntry (list JsonFile)))))))
  : list JsonFile :=
  concat ((λ hidden_frac_dir,
    if bool_decide (hidden_frac_of_name (entry_name hidden_frac_dir) = Some hidden_frac)
    then difficulty_files difficulty race_type (default [] (entry_dir hidden_frac_dir))
    else []) <$> hidden_frac_dirs).

(** [playground_data[hidden_frac][difficulty][race_type]], if there is such
    an entry. *)
Definition at_slot (playground_data : ProcessOfficialResults.Playground)
    (hidden_frac : Qcanon.Qc) (difficulty race_type : string)
  : option (gmap Z ProcessOfficialResults.Datasets) :=
  by_difficulty ← playground_data !! hidden_frac;
  by_race ← (by_difficulty
             : gmap string (gmap string (gmap Z ProcessOfficialResults.Datasets)))
            !! difficulty;
  (by_race : gmap string (gmap Z ProcessOfficialResults.Datasets)) !! race_type.

(** What [Result_Official] holds in the example: two directories of the
    hidden fraction 0.95, a file that is no directory, and a directory that
    [main] passes over. *)
Definition example_result_official
  : list (DirEntry (list (DirEntry (list (DirEntry (list JsonFile)))))) :=
  [{| entry_name := "hiddenfrac95";
      entry_dir := Some [{| entry_name := "Regular_Mode";
        entry_dir := Some [{| entry_name := "Hide_The_Label";
          entry_dir := Some [official_file_1] |}] |}] |};
   {| entry_name := "notes.txt"; entry_dir := None |};
   {| entry_name := "hiddenfrac90";
      entry_dir := Some [{| entry_name := "Regular_Mode";
        entry_dir := Some [{| entry_name := "Hide_The_Label";
          entry_dir := Some [official_file_2] |}] |}] |};
   {| entry_name := "more_hiddenfrac95";
      entry_dir := Some [{| entry_name := "Regular_Mode 2";
        entry_dir := Some [{| entry_name := "Hide_The_Label";
          entry_dir := Some [official_file_2] |}] |}] |}].
(** * Properties *)

(** ** The error monad and the loops *)

Lemma bind_Ok {A B} (m : result A) (k : A → result B) b :
  m ≫= k = Ok b ↔ ∃ a, m = Ok a ∧ k a = Ok b.
Proof.
  destruct m as [a|e]; simpl; split.
  - eauto.
  - by intros (a' & [= ->] & ?).
  - done.
  - by intros (? & ? & ?).
Qed.

Lemma for_each_app {A S} (l1 l2 : list A) (body : A → S → result S) s :
  for_each (l1 ++ l2) body s = (for_each l1 body s ≫= for_each l2 body).
Proof.
  revert s. induction l1 as [|x l1 IH]; intros s; simpl; [done|].
  destruct (body x s); simpl; auto.
Qed.

(** A property that every iteration preserves holds after the loop. *)
Lemma for_each_invariant {A S} (P : S → Prop) (l : list A) body s s' :
  (∀ x s1 s2, x ∈ l → P s1 → body x s1 = Ok s2 → P s2) →
  P s → for_each l body s = Ok s' → P s'.
Proof.
  revert s. induction l as [|x l IH]; intros s Hstep Hs Hrun; simpl in Hrun.
  - by injection Hrun as <-.
  - apply bind_Ok in Hrun as (s1 & Hx & Hrun).
    apply (IH s1); [|by eapply Hstep; [left|..]|done].
    intros y t1 t2 Hy. apply Hstep. by right.
Qed.

(** ** Rationals *)

Lemma Qlt_bool_true x y : Qlt_bool x y = true ↔ (x < y)%Q.
Proof.
  unfold Qlt_bool. rewrite negb_true_iff. split.
  - intros E. apply Qnot_le_lt. intros Hle. apply Qle_bool_iff in Hle. congruence.
  - intros Hlt. destruct (Qle_bool y x) eqn:E; [|done].
    apply Qle_bool_iff in E. exfalso. eapply Qlt_not_le; eauto.
Qed.

Lemma Qlt_bool_false x y : Qlt_bool x y = false ↔ (y <= x)%Q.
Proof. unfold Qlt_bool. rewrite negb_false_iff. apply Qle_bool_iff. Qed.

(** ** The order of floats *)

Lemma le_not_nan x y :
  Float.le x y → Float.is_nan x = false ∧ Float.is_nan y = false.
Proof. by destruct x, y. Qed.

Lemma le_refl x : Float.is_nan x = false → Float.le x x.
Proof.
  destruct x as [q| | |]; intros Hx; try done.
  apply Qle_bool_iff, Qle_refl.
Qed.

Lemma le_trans x y z : Float.le x y → Float.le y z → Float.le x z.
Proof.
  unfold Float.le. destruct x as [p| | |], y as [q| | |], z as [r| | |]; cbn; try done.
  rewrite !Qle_bool_iff. apply Qle_trans.
Qed.

Lemma ltb_irrefl x : Float.ltb x x = false.
Proof.
  destruct x as [q| | |]; try done. cbn. apply Qlt_bool_false, Qle_refl.
Qed.

Lemma ltb_le x y : Float.ltb x y = true → Float.le x y.
Proof.
  unfold Float.le. destruct x as [p| | |], y as [q| | |]; cbn; try done.
  rewrite Qlt_bool_true, Qle_bool_iff. apply Qlt_le_weak.
Qed.

Lemma not_ltb_le x y :
  Float.is_nan x = false → Float.is_nan y = false →
  Float.ltb x y = false → Float.le y x.
Proof.
  unfold Float.le. destruct x as [p| | |], y as [q| | |]; cbn; try done.
  intros _ _. by rewrite Qlt_bool_false, Qle_bool_iff.
Qed.

Lemma le_not_ltb x y : Float.le x y → Float.ltb y x = false.
Proof.
  unfold Float.le. destruct x as [p| | |], y as [q| | |]; cbn; try done.
  by rewrite Qlt_bool_false, Qle_bool_iff.
Qed.

Lemma le_Fin p q : Float.le (Fin p) (Fin q) ↔ (p <= q)%Q.
Proof. unfold Float.le. cbn. apply Qle_bool_iff. Qed.


Lemma max_of_l best x :
  Float.is_nan best = false → Float.is_nan x = false → Float.le best (max_of best x).
Proof.
  intros Hb Hx. unfold max_of. destruct (Float.ltb x best) eqn:E.
  - by apply le_refl.
  - by apply not_ltb_le.
Qed.

Lemma max_of_r best x :
  Float.is_nan x = false → Float.le x (max_of best x).
Proof.
  intros Hx. unfold max_of. destruct (Float.ltb x best) eqn:E.
  - by apply ltb_le.
  - by apply le_refl.
Qed.

Lemma max_of_cases best x : max_of best x = best ∨ max_of best x = x.
Proof. unfold max_of. destruct (Float.ltb x best); auto. Qed.

Lemma max_of_not_nan best x :
  Float.is_nan best = false → Float.is_nan x = false →
  Float.is_nan (max_of best x) = false.
Proof. intros Hb Hx. by destruct (max_of_cases best x) as [-> | ->]. Qed.

(** ** The best-so-far repair is the running maximum *)

Lemma repair_loop pre p rest :
  foldl repair_at (pre ++ p :: rest) (seq (S (length pre)) (length rest))
  = pre ++ p :: running_max_from p rest.
Proof.
  revert pre p. induction rest as [|x rest IH]; intros pre p; [done|].
  cbn [length seq foldl running_max_from].
  assert (Hstep : repair_at (pre ++ p :: x :: rest) (S (length pre))
                  = (pre ++ [p]) ++ max_of p x :: rest).
  { unfold repair_at.
    replace (S (length pre) - 1)%nat with (length pre) by lia.
    rewrite (lookup_app_r pre) by lia.
    replace (S (length pre) - length pre)%nat with 1%nat by lia.
    rewrite list_lookup_middle by done. cbn [lookup list_lookup].
    unfold max_of. destruct (Float.ltb x p).
    - rewrite insert_app_r_alt by lia.
      replace (S (length pre) - length pre)%nat with 1%nat by lia.
      by rewrite <- app_assoc.
    - by rewrite <- app_assoc. }
  rewrite Hstep.
  replace (S (S (length pre))) with (S (length (pre ++ [p])))
    by (rewrite length_app; simpl; lia).
  rewrite IH. by rewrite <- app_assoc.
Qed.

Lemma ensure_monotonic_running_max l : ensure_monotonic l = running_max l.
Proof.
  destruct l as [|x l]; [done|].
  unfold ensure_monotonic. cbn [length running_max].
  replace (S (length l) - 1)%nat with (length l) by lia.
  apply (repair_loop [] x l).
Qed.

Lemma running_max_from_nondecreasing best l :
  Float.is_nan best = false → no_nan l →
  nondecreasing (best :: running_max_from best l).
Proof.
  intros Hb Hl. revert best Hb.
  induction Hl as [|x l Hx _ IH]; intros best Hb i a b Ha Hb'.
  - destruct i; simplify_eq/=.
  - destruct i as [|i]; simplify_eq/=.
    + by apply max_of_l.
    + apply (IH (max_of best x)) with i; [by apply max_of_not_nan|done..].
Qed.

Lemma running_max_nondecreasing l : no_nan l → nondecreasing (running_max l).
Proof.
  destruct 1 as [|x l Hx Hl]; [by intros [|?] ?? ?|].
  by apply running_max_from_nondecreasing.
Qed.

Lemma length_running_max_from best l : length (running_max_from best l) = length l.
Proof. revert best. induction l; intros; simpl; auto. Qed.

Lemma length_running_max l : length (running_max l) = length l.
Proof. destruct l; simpl; [done|]. by rewrite length_running_max_from. Qed.

(** Each element of the running maximum is the largest input value up to
    its position, when no value is NaN. *)
Lemma running_max_from_upper best l i m :
  Float.is_nan best = false → no_nan l →
  (best :: running_max_from best l) !! i = Some m →
  Float.le best m ∧ ∀ j x, (j < i)%nat → l !! j = Some x → Float.le x m.
Proof.
  intros Hb Hl. revert best Hb i.
  induction Hl as [|x l Hx _ IH]; intros best Hb i Hm.
  - destruct i; simplify_eq/=. split; [by apply le_refl|]. intros; lia.
  - destruct i as [|i]; simplify_eq/=.
    + split; [by apply le_refl|]. intros; lia.
    + apply IH in Hm as [Hbm Hup]; [|by apply max_of_not_nan]. split.
      * apply (le_trans _ (max_of best x)); [by apply max_of_l|done].
      * intros [|j] y Hj Hy; simplify_eq/=.
        -- apply (le_trans _ (max_of best y)); [by apply max_of_r|done].
        -- apply (Hup j); [lia|done].
Qed.

Lemma running_max_from_attained best l i m :
  (best :: running_max_from best l) !! i = Some m →
  m = best ∨ ∃ j, (j < i)%nat ∧ l !! j = Some m.
Proof.
  revert best i. induction l as [|x l IH]; intros best i Hm.
  - destruct i; simplify_eq/=. by left.
  - destruct i as [|i]; simplify_eq/=; [by left|].
    apply IH in Hm as [->|(j & Hj & Hl)].
    + destruct (max_of_cases best x) as [->| ->]; [by left|].
      right. exists 0%nat. split; [lia|done].
    + right. exists (S j). split; [lia|done].
Qed.

Lemma running_max_spec l i m :
  no_nan l →
  running_max l !! i = Some m →
  (∀ j x, (j <= i)%nat → l !! j = Some x → Float.le x m) ∧
  (∃ j, (j <= i)%nat ∧ l !! j = Some m).
Proof.
  destruct 1 as [|x0 l Hx0 Hl]; [done|]. cbn [running_max]. intros Hm. split.
  - apply running_max_from_upper in Hm as [Hb Hup]; [|done..].
    intros [|j] x Hj Hx; simplify_eq/=; [done|]. apply (Hup j); [lia|done].
  - apply running_max_from_attained in Hm as [->|(j & Hj & Hl')].
    + exists 0%nat. split; [lia|done].
    + exists (S j). split; [lia|done].
Qed.

(** ** Sorting a run by step *)

Lemma indexed_lookup (keys : list Z) :
  Forall (λ p, keys !! p.2 = Some p.1) (zip keys (seq 0 (length keys))).
Proof.
  apply Forall_forall. intros [k i] Hin.
  apply list_elem_of_lookup in Hin as [j Hj].
  apply lookup_zip_with_Some in Hj as (k' & i' & [= <- <-] & Hk & Hi).
  apply lookup_seq in Hi as [-> _]. done.
Qed.

Lemma take_at_indexed {A} (l : list A) (ps : list (A * nat)) :
  Forall (λ p, l !! p.2 = Some p.1) ps → take_at l ps.*2 = ps.*1.
Proof.
  unfold take_at. induction 1 as [|[a i] ps Ha _ IH]; [done|].
  rewrite !fmap_cons. cbn [omap list_omap fst snd] in *. rewrite Ha.
  by f_equal.
Qed.

Lemma argsort_Permutation keys :
  Np.argsort keys ≡ₚ seq 0 (length keys).
Proof.
  unfold Np.argsort. rewrite merge_sort_Permutation.
  by rewrite snd_zip by (rewrite length_seq; lia).
Qed.

Lemma take_at_argsort_keys keys :
  take_at keys (Np.argsort keys)
  = (merge_sort Np.key_le (zip keys (seq 0 (length keys)))).*1.
Proof.
  apply take_at_indexed.
  rewrite (merge_sort_Permutation Np.key_le). apply indexed_lookup.
Qed.

Lemma take_at_argsort_Sorted keys :
  Sorted Z.le (take_at keys (Np.argsort keys)).
Proof.
  rewrite take_at_argsort_keys.
  pose proof (Sorted_merge_sort Np.key_le (zip keys (seq 0 (length keys)))) as Hs.
  induction Hs as [|p l _ IH Hhd]; simpl; constructor; [done|].
  destruct Hhd; simpl; constructor. done.
Qed.

Lemma zip_take_at {A B} (keys : list A) (vals : list B) order :
  length keys = length vals →
  Forall (λ i, (i < length keys)%nat) order →
  zip (take_at keys order) (take_at vals order) = omap (pair_at keys vals) order.
Proof.
  intros Hlen. unfold take_at, pair_at.
  induction 1 as [|i order Hi _ IH]; [done|].
  destruct (lookup_lt_is_Some_2 keys i Hi) as [k Hk].
  destruct (lookup_lt_is_Some_2 vals i ltac:(lia)) as [v Hv].
  cbn [omap list_omap]. rewrite Hk, Hv. cbn. by f_equal.
Qed.

Lemma omap_pair_at_seq {A B} (keys : list A) (vals : list B) :
  length keys = length vals →
  omap (pair_at keys vals) (seq 0 (length keys)) = zip keys vals.
Proof.
  revert vals. induction keys as [|k keys IH] using rev_ind; intros vals Hlen.
  - done.
  - destruct vals as [|v vals _] using rev_ind.
    { rewrite length_app in Hlen. simpl in Hlen. lia. }
    rewrite !length_app in Hlen. simpl in Hlen.
    rewrite length_app. simpl. rewrite Nat.add_1_r, seq_S, omap_app. simpl.
    rewrite zip_with_app by lia. f_equal.
    + rewrite <- (IH vals) by lia.
      apply list_omap_ext. apply Forall2_same_length_lookup. split; [done|].
      intros i x y Hx Hy. simplify_eq. apply lookup_seq in Hx as [-> Hlt].
      unfold pair_at. simpl in *.
      by rewrite !lookup_app_l by lia.
    + unfold pair_at.
      rewrite (list_lookup_middle keys [] k) by done.
      rewrite (list_lookup_middle vals [] v) by lia. done.
Qed.

Lemma sort_by_step_Permutation (steps_ : list Z) (vals : list float) :
  length steps_ = length vals →
  zip (take_at steps_ (Np.argsort steps_)) (take_at vals (Np.argsort steps_))
  ≡ₚ zip steps_ vals.
Proof.
  intros Hlen. rewrite zip_take_at; [|done|].
  - rewrite argsort_Permutation. by rewrite omap_pair_at_seq.
  - rewrite argsort_Permutation. apply Forall_forall. intros i Hi. apply elem_of_seq in Hi. lia.
Qed.

Lemma length_take_at {A} (l : list A) order :
  Forall (λ i, (i < length l)%nat) order → length (take_at l order) = length order.
Proof.
  unfold take_at. induction 1 as [|i o Hi _ IH]; [done|].
  destruct (lookup_lt_is_Some_2 l i Hi) as [x Hx].
  cbn [omap list_omap]. rewrite Hx. simpl. by rewrite IH.
Qed.

Lemma length_take_at_argsort {A} (l : list A) keys :
  length keys = length l → length (take_at l (Np.argsort keys)) = length l.
Proof.
  intros Hlen. rewrite length_take_at.
  - by rewrite (Permutation_length (argsort_Permutation keys)), length_seq.
  - rewrite argsort_Permutation. apply Forall_forall.
    intros i Hi. apply elem_of_seq in Hi. lia.
Qed.

(** The same for any order that [np.argsort] may give. *)
Lemma argsort_sorting_order keys : sorting_order keys (Np.argsort keys).
Proof. split; [apply argsort_Permutation|apply take_at_argsort_Sorted]. Qed.

Lemma sort_and_repair_by_argsort step_indices best_values :
  sort_and_repair step_indices best_values
  = sort_and_repair_by (Np.argsort step_indices) step_indices best_values.
Proof. done. Qed.

Lemma sorting_order_bound (keys : list Z) order :
  sorting_order keys order → Forall (λ i, (i < length keys)%nat) order.
Proof.
  intros [Hperm _]. rewrite Hperm. apply Forall_forall.
  intros i Hi. apply elem_of_seq in Hi. lia.
Qed.

Lemma sorted_by_Permutation (steps_ : list Z) (vals : list float) order :
  sorting_order steps_ order →
  length steps_ = length vals →
  zip (take_at steps_ order) (take_at vals order) ≡ₚ zip steps_ vals.
Proof.
  intros Horder Hlen. rewrite zip_take_at; [|done|by apply sorting_order_bound].
  destruct Horder as [Hperm _]. rewrite Hperm. by rewrite omap_pair_at_seq.
Qed.

Lemma length_take_at_order {A} (l : list A) (keys : list Z) order :
  sorting_order keys order →
  length keys = length l → length (take_at l order) = length l.
Proof.
  intros Horder Hlen. rewrite length_take_at.
  - destruct Horder as [Hperm _].
    by rewrite (Permutation_length Hperm), length_seq.
  - rewrite <- Hlen. by apply sorting_order_bound.
Qed.

Lemma take_at_order_Permutation (keys : list Z) order :
  sorting_order keys order → take_at keys order ≡ₚ keys.
Proof.
  intros Horder.
  pose proof (sorted_by_Permutation keys (replicate (length keys) (Fin 0)) order
                Horder ltac:(by rewrite length_replicate)) as Hzip.
  apply (fmap_Permutation fst) in Hzip.
  rewrite !fst_zip in Hzip; [done|..].
  - by rewrite length_replicate.
  - rewrite !(length_take_at_order _ keys); by rewrite ?length_replicate.
Qed.

(** ** What one run adds to [step_to_values] *)

Lemma append_at_Ok s v m m' :
  append_at s v m = Ok m' ↔ ∃ l, m !! s = Some l ∧ m' = <[s := l ++ [v]]> m.
Proof.
  unfold append_at. destruct (m !! s) as [l|]; split.
  - intros [= <-]. eauto.
  - by intros (l' & [= <-] & ->).
  - done.
  - by intros (? & ? & ?).
Qed.

Lemma append_loop (items : list (Z * float)) m m' :
  for_each items (λ '(step, value) m, append_at step value m) m = Ok m' →
  ∀ s, m' !! s = (λ l, l ++ (filter (λ p, p.1 = s) items).*2) <$> m !! s.
Proof.
  revert m. induction items as [|[s0 v] items IH]; intros m Hrun s.
  - injection Hrun as <-. simpl. destruct (m !! s); simpl; [|done].
    by rewrite app_nil_r.
  - simpl in Hrun. apply bind_Ok in Hrun as (m1 & Happ & Hrun).
    apply append_at_Ok in Happ as (l0 & Hl0 & ->).
    rewrite (IH _ Hrun s). rewrite filter_cons. simpl.
    destruct (decide (s0 = s)) as [->|Hne].
    + rewrite lookup_insert_eq, Hl0. simpl. by rewrite <- app_assoc.
    + by rewrite lookup_insert_ne.
Qed.

Lemma append_loop_total (items : list (Z * float)) (m : gmap Z (list float)) :
  Forall (λ p, is_Some (m !! p.1)) items →
  ∃ m', for_each items (λ '(step, value) m, append_at step value m) m = Ok m'.
Proof.
  revert m. induction items as [|[s0 v] items IH]; intros m Hall.
  - by eexists.
  - apply Forall_cons in Hall as [[l0 Hl0] Hall]. simpl in Hl0.
    cbn [for_each].
    replace (append_at s0 v m) with (Ok (<[s0 := l0 ++ [v]]> m))
      by (unfold append_at; by rewrite Hl0).
    cbn. apply IH. eapply Forall_impl; [done|]. intros [s1 v1] [l1 Hl1]. simpl in *.
    destruct (decide (s0 = s1)) as [->|Hne].
    + rewrite lookup_insert_eq. eauto.
    + rewrite lookup_insert_ne by done. eauto.
Qed.

Lemma for_each_fmap {A B S} (f : A → B) (l : list A) (body : B → S → result S) s :
  for_each (f <$> l) body s = for_each l (λ x, body (f x)) s.
Proof.
  revert s. induction l as [|x l IH]; intros s; simpl; [done|].
  destruct (body (f x) s); simpl; auto.
Qed.

Lemma for_each_ext {A S} (l : list A) (f g : A → S → result S) s :
  (∀ x t, f x t = g x t) → for_each l f s = for_each l g s.
Proof.
  intros Hfg. revert s. induction l as [|x l IH]; intros s; simpl; [done|].
  rewrite Hfg. destruct (g x s); simpl; auto.
Qed.

Lemma filter_const_seqZ (v : float) (s a n : Z) :
  (filter (λ p : Z * float, p.1 = s) ((λ x, (x, v)) <$> seqZ a n)).*2
  = if bool_decide (a ≤ s < a + n) then [v] else [].
Proof.
  destruct (decide (n ≤ 0)) as [Hn|Hn].
  { rewrite seqZ_nil by done. simpl. rewrite bool_decide_eq_false_2 by lia. done. }
  revert a. pattern n. apply natlike_ind; [| |lia]; clear n Hn.
  - intros a. rewrite seqZ_nil by done. simpl.
    by rewrite bool_decide_eq_false_2 by lia.
  - intros n Hn IH a. rewrite seqZ_cons by lia.
    replace (Z.pred (Z.succ n)) with n by lia.
    rewrite fmap_cons, filter_cons. simpl.
    specialize (IH (Z.succ a)).
    destruct (decide (a = s)) as [->|Hne].
    + rewrite fmap_cons, IH. simpl.
      rewrite bool_decide_eq_false_2 by lia.
      by rewrite bool_decide_eq_true_2 by lia.
    + rewrite IH. apply (f_equal (λ b : bool, if b then [v] else [])).
      apply bool_decide_ext. lia.
Qed.

(** After a run is added, every step holds its earlier samples followed by
    the run's contribution, and no step is created. *)
Lemma add_run_lookup max_step r m m' :
  add_run max_step r m = Ok m' →
  ∀ s, m' !! s = (λ l, l ++ contribution max_step r s) <$> m !! s.
Proof.
  unfold add_run. intros Hrun s.
  apply bind_Ok in Hrun as (m1 & Hobs & Hfill).
  pose proof (append_loop _ _ _ Hobs s) as H1.
  unfold contribution, filled, observed.
  destruct r as [run_steps run_values]. simpl in *.
  destruct run_steps as [|s0 run_steps].
  { injection Hfill as <-. rewrite H1. simpl.
    destruct (m !! s); simpl; [|done]. by rewrite app_nil_r. }
  destruct (last run_values) as [last_value|]; [|done].
  rewrite <- for_each_fmap with (f := λ x, (x, last_value))
    (body := λ p m, append_at p.1 p.2 m) in Hfill.
  erewrite (append_loop _ m1 m').
  2:{ rewrite <- Hfill. apply for_each_ext. by intros [??] ?. }
  rewrite H1, filter_const_seqZ.
  destruct (m !! s); simpl; [|done].
  rewrite <- app_assoc. do 3 f_equal.
  apply (f_equal (λ b : bool, if b then [last_value] else [])).
  apply bool_decide_ext. lia.
Qed.

Lemma add_runs_lookup max_step runs m m' :
  for_each runs (add_run max_step) m = Ok m' →
  ∀ s, m' !! s
       = (λ l, l ++ concat ((λ r, contribution max_step r s) <$> runs)) <$> m !! s.
Proof.
  revert m. induction runs as [|r runs IH]; intros m Hrun s.
  - injection Hrun as <-. simpl. destruct (m !! s); simpl; [|done].
    by rewrite app_nil_r.
  - simpl in Hrun. apply bind_Ok in Hrun as (m1 & Hr & Hrun).
    rewrite (IH _ Hrun s), (add_run_lookup _ _ _ _ Hr s).
    destruct (m !! s); simpl; [|done]. by rewrite <- app_assoc.
Qed.

Lemma init_step_to_values_lookup max_step s :
  init_step_to_values max_step !! s
  = if bool_decide (0 ≤ s ≤ max_step) then Some [] else None.
Proof.
  unfold init_step_to_values. case_bool_decide as Hs.
  - apply elem_of_list_to_map_1.
    + rewrite <- list_fmap_compose. simpl. rewrite list_fmap_id. apply NoDup_seqZ.
    + apply list_elem_of_fmap. exists s. split; [done|]. apply elem_of_seqZ. lia.
  - apply not_elem_of_list_to_map_1.
    rewrite <- list_fmap_compose. simpl. rewrite list_fmap_id.
    rewrite elem_of_seqZ. lia.
Qed.

Lemma fill_step_to_values_lookup runs m :
  fill_step_to_values runs = Ok m →
  ∀ s, m !! s
       = if bool_decide (0 ≤ s ≤ max_step_of runs) then Some (samples runs s) else None.
Proof.
  unfold fill_step_to_values. intros Hrun s.
  rewrite (add_runs_lookup _ _ _ _ Hrun s), init_step_to_values_lookup.
  by case_bool_decide.
Qed.

Lemma Sorted_seqZ a n : Sorted Z.le (seqZ a n).
Proof.
  destruct (decide (n ≤ 0)) as [Hn|Hn]; [by rewrite seqZ_nil|].
  revert a. pattern n. apply natlike_ind; [| |lia]; clear n Hn.
  - intros a. by rewrite seqZ_nil.
  - intros n Hn IH a. rewrite seqZ_cons by lia.
    replace (Z.pred (Z.succ n)) with n by lia.
    constructor; [apply IH|].
    destruct (decide (n ≤ 0)) as [Hn0|Hn0]; [by rewrite seqZ_nil|].
    rewrite seqZ_cons by lia. constructor. lia.
Qed.

Lemma sorted_keys_range (m : gmap Z (list float)) max_step :
  (∀ s, is_Some (m !! s) ↔ 0 ≤ s ≤ max_step) →
  sorted_keys m = seqZ 0 (max_step + 1).
Proof.
  intros Hdom. unfold sorted_keys.
  apply (Sorted_unique Z.le).
  - apply Sorted_merge_sort. apply _.
  - apply Sorted_seqZ.
  - rewrite merge_sort_Permutation.
    apply NoDup_Permutation; [apply NoDup_fst_map_to_list|apply NoDup_seqZ|].
    intros s. rewrite elem_of_seqZ. rewrite list_elem_of_fmap. split.
    + intros ([s' l] & -> & Hin). apply elem_of_map_to_list in Hin.
      simpl. apply mk_is_Some, Hdom in Hin. lia.
    + intros Hs. destruct (proj2 (Hdom s)) as [l Hl]; [lia|].
      exists (s, l). split; [done|]. by apply elem_of_map_to_list.
Qed.

(** The trajectory of a non-empty list of runs, when no exception is
    raised: a dense step axis, and at every step the mean of the samples,
    or [0] without samples. *)
Lemma aggregate_runs_Ok runs o :
  aggregate_runs runs = Ok o →
  match runs with
  | [] => o = None
  | _ => o = Some {| steps := seqZ 0 (max_step_of runs + 1);
                     values := (λ s, mean_or_zero (samples runs s))
                               <$> seqZ 0 (max_step_of runs + 1) |}
  end.
Proof.
  destruct runs as [|r runs]; [by intros [= <-]|].
  unfold aggregate_runs. intros Hrun.
  apply bind_Ok in Hrun as (m & Hfill & [= <-]).
  pose proof (fill_step_to_values_lookup _ _ Hfill) as Hm.
  assert (Hkeys : sorted_keys m = seqZ 0 (max_step_of (r :: runs) + 1)).
  { apply sorted_keys_range. intros s. rewrite Hm.
    case_bool_decide as Hs; split; [done|by eexists|by intros []|done]. }
  rewrite Hkeys. do 2 f_equal.
  apply list_fmap_ext. intros i s Hs.
  apply lookup_seqZ in Hs as [-> Hi].
  unfold step_value. rewrite Hm. by rewrite bool_decide_eq_true_2 by lia.
Qed.

Lemma aggregate_runs_Some runs traj :
  aggregate_runs runs = Ok (Some traj) →
  ∃ m, fill_step_to_values runs = Ok m ∧
       steps traj = seqZ 0 (max_step_of runs + 1) ∧
       values traj = (λ s, mean_or_zero (samples runs s))
                     <$> seqZ 0 (max_step_of runs + 1).
Proof.
  intros Hagg. pose proof (aggregate_runs_Ok _ _ Hagg) as Hspec.
  destruct runs as [|r runs]; [done|].
  assert (Htraj : traj = {| steps := seqZ 0 (max_step_of (r :: runs) + 1);
                            values := (λ s, mean_or_zero (samples (r :: runs) s))
                                      <$> seqZ 0 (max_step_of (r :: runs) + 1) |})
    by congruence.
  unfold aggregate_runs in Hagg. apply bind_Ok in Hagg as (m & Hfill & _).
  exists m. by rewrite Htraj.
Qed.

(** ** The loop over the items of a dictionary *)

Lemma for_items_loop {A B} (f : A → result (option B)) (l : list (string * A))
    (acc out : gmap string B) :
  NoDup l.*1 →
  for_each l (λ '(k, a) out, r ← f a; Ok (from_option (λ b, <[k := b]> out) out r)) acc
  = Ok out →
  ∀ k, (k ∉ l.*1 → out !! k = acc !! k) ∧
       (∀ a, (k, a) ∈ l →
          ∃ r, f a = Ok r ∧ out !! k = from_option Some (acc !! k) r).
Proof.
  revert acc. induction l as [|[k0 a0] l IH]; intros acc Hnd Hrun k.
  - injection Hrun as <-. split; [done|]. intros a Hin. by apply elem_of_nil in Hin.
  - simpl in Hrun. apply bind_Ok in Hrun as (acc1 & Hbody & Hrun).
    apply bind_Ok in Hbody as (r0 & Hf & [= <-]).
    rewrite fmap_cons in Hnd. apply NoDup_cons in Hnd as [Hk0 Hnd].
    destruct (IH _ Hnd Hrun k) as [Hout Hin]. simpl in *. split.
    + intros Hk. apply not_elem_of_cons in Hk as [Hne Hk].
      rewrite (Hout Hk). destruct r0; simpl; [|done]. by rewrite lookup_insert_ne.
    + intros a Ha. apply elem_of_cons in Ha as [[= -> ->]|Ha].
      * exists r0. split; [done|]. rewrite (Hout Hk0).
        destruct r0; simpl; [|done]. by rewrite lookup_insert_eq.
      * destruct (Hin a Ha) as (r & Hr & Hlk). exists r. split; [done|].
        rewrite Hlk. destruct r; simpl; [done|].
        assert (k ≠ k0).
        { intros ->. apply Hk0. apply list_elem_of_fmap. by exists (k0, a). }
        destruct r0; simpl; [|done]. by rewrite lookup_insert_ne.
Qed.

Lemma for_items_Ok {A B} (f : A → result (option B)) (d : gmap string A) out :
  for_items f d = Ok out →
  ∀ k, match d !! k with
       | Some a => ∃ r, f a = Ok r ∧ out !! k = r
       | None => out !! k = None
       end.
Proof.
  unfold for_items. intros Hrun k.
  destruct (for_items_loop f _ _ _ (NoDup_fst_map_to_list d) Hrun k) as [Hout Hin].
  destruct (d !! k) as [a|] eqn:Hk.
  - apply elem_of_map_to_list in Hk. destruct (Hin a Hk) as (r & Hr & Hlk).
    exists r. split; [done|]. rewrite Hlk, lookup_empty. by destruct r.
  - rewrite Hout, lookup_empty; [done|].
    intros Hin'. apply list_elem_of_fmap in Hin' as ([k' a] & -> & Hin').
    apply elem_of_map_to_list in Hin'. simpl in *. congruence.
Qed.

Lemma for_items_total {A B} (f : A → result (option B)) (d : gmap string A) :
  (∀ k a, d !! k = Some a → ∃ r, f a = Ok r) →
  ∃ out, for_items f d = Ok out.
Proof.
  unfold for_items. intros Hf.
  assert (Hall : Forall (λ p, ∃ r, f p.2 = Ok r) (map_to_list d)).
  { apply Forall_forall. intros [k a] Hin. apply elem_of_map_to_list in Hin. eauto. }
  clear Hf. generalize (∅ : gmap string B).
  induction Hall as [|[k a] l [r Hr] _ IH]; intros acc; [by eexists|].
  simpl in *. rewrite Hr. simpl. apply IH.
Qed.


(** ** Claims about one trial *)

Lemma last_step_cons a b l : last_step (a :: b :: l) = last_step (b :: l).
Proof. done. Qed.

Lemma sorted_le_last_step l s : Sorted Z.le l → s ∈ l → s ≤ last_step l.
Proof.
  intros Hs%Sorted_StronglySorted; [|apply _]. revert s.
  induction Hs as [|a l Hs IH Hall]; intros s Hin; [by apply elem_of_nil in Hin|].
  destruct l as [|b l].
  - apply list_elem_of_singleton in Hin as ->. done.
  - rewrite last_step_cons. apply elem_of_cons in Hin as [->|Hin]; [|by apply IH].
    apply Forall_cons in Hall as [Hab _].
    etrans; [apply Hab|]. apply IH. left.
Qed.

Lemma last_step_elem l : l ≠ [] → last_step l ∈ l.
Proof.
  intros Hl. unfold last_step. destruct (last l) as [x|] eqn:E.
  - by apply last_Some_elem_of.
  - by apply last_None in E.
Qed.

Lemma observed_elem (r : run) s i v :
  r.1 !! i = Some s → r.2 !! i = Some v → v ∈ observed r s.
Proof.
  intros Hs Hv. unfold observed. apply list_elem_of_fmap.
  exists (s, v). split; [done|]. apply list_elem_of_filter. split; [done|].
  apply list_elem_of_lookup. exists i. apply lookup_zip_with_Some. eauto.
Qed.

Lemma observed_nil (r : run) s : s ∉ r.1 → observed r s = [].
Proof.
  intros Hs. unfold observed.
  destruct (filter (λ p : Z * float, p.1 = s) (zip r.1 r.2)) as [|[s' v] rest] eqn:E;
    [done|].
  assert (Hin : (s', v) ∈ filter (λ p : Z * float, p.1 = s) (zip r.1 r.2))
    by (rewrite E; left).
  apply list_elem_of_filter in Hin as [Heq Hin]. simpl in Heq. subst s'.
  exfalso. apply Hs. apply list_elem_of_lookup in Hin as [i Hi].
  apply lookup_zip_with_Some in Hi as (? & ? & [= <- <-] & Hi & _).
  by eapply list_elem_of_lookup_2.
Qed.

(** C2, as the code has it. A run adds, to the samples of every step [s]
    of [step_to_values]: the value of each of its observations at [s]; its
    last value alone when [s] lies beyond its last step; nothing when it has
    no observation at [s] and [s] is not beyond its last step. A trial
    observed only at steps 0 and 3 with values 2.0 and 5.0 contributes 2.0 at
    step 0, nothing at steps 1 and 2, and 5.0 at steps 3, 4 and 5 when
    [max_step] is 5. *)
Theorem add_run_contribution (max_step : Z) (r : run) (m m' : gmap Z (list float))
    (s : Z) (l : list float) :
  Sorted Z.le r.1 →
  length r.1 = length r.2 →
  add_run max_step r m = Ok m' →
  m !! s = Some l →
  (∃ c, m' !! s = Some (l ++ c) ∧
     (∀ i v, r.1 !! i = Some s → r.2 !! i = Some v → v ∈ c) ∧
     (r.1 ≠ [] → last_step r.1 < s ≤ max_step →
        ∃ v, last r.2 = Some v ∧ c = [v]) ∧
     (s ∉ r.1 → s ≤ last_step r.1 → c = [])) ∧
  (add_run 5 ([0; 3], [Fin 2; Fin 5]) (init_step_to_values 5)
     ≫= λ m, Ok ((m !!.) <$> [0; 1; 2; 3; 4; 5]))
  = Ok [Some [Fin 2]; Some []; Some []; Some [Fin 5]; Some [Fin 5]; Some [Fin 5]].
Proof.
  intros Hsorted Hlen Hrun Hl. split; [|by vm_compute].
  exists (contribution max_step r s).
  rewrite (add_run_lookup _ _ _ _ Hrun s), Hl. split_and!; [done|..].
  - intros i v Hs Hv. apply elem_of_app. left. by eapply observed_elem.
  - intros Hne Hs. unfold contribution, filled.
    rewrite observed_nil.
    2:{ intros Hin. apply sorted_le_last_step in Hin; [lia|done]. }
    destruct r as [[|s0 run_steps] run_values]; [done|]. simpl in *.
    destruct run_values as [|v0 run_values]; [done|].
    destruct (last (v0 :: run_values)) as [v|] eqn:E.
    + exists v. split; [done|]. by rewrite bool_decide_eq_true_2.
    + by apply last_None in E.
  - intros Hnot Hle. unfold contribution, filled. rewrite observed_nil by done.
    destruct r.1; [done|]. destruct (last r.2); [|done].
    by rewrite bool_decide_eq_false_2 by lia.
Qed.

Lemma add_run_contribution_witness :
  ∃ m', add_run 5 ([0; 3], [Fin 2; Fin 5]) (init_step_to_values 5) = Ok m' ∧
        (∃ c, m' !! 0 = Some c ∧ Fin 2 ∈ c) ∧
        m' !! 1 = Some [] ∧ m' !! 4 = Some [Fin 5].
Proof.
  destruct (add_run 5 ([0; 3], [Fin 2; Fin 5]) (init_step_to_values 5)) as [m'|e] eqn:E;
    [|by vm_compute in E].
  exists m'. split; [done|].
  assert (Hs : Sorted Z.le ([0; 3], [Fin 2; Fin 5]).1) by (repeat constructor; lia).
  assert (Hinit : ∀ s, 0 ≤ s ≤ 5 → init_step_to_values 5 !! s = Some []).
  { intros s Hs'. rewrite init_step_to_values_lookup.
    by rewrite bool_decide_eq_true_2. }
  split_and!.
  - destruct (add_run_contribution 5 _ _ m' 0 [] Hs eq_refl E (Hinit 0 ltac:(lia)))
      as [(c & Hc & Hobs & _ & _) _].
    exists c. split; [done|]. by apply (Hobs 0%nat).
  - destruct (add_run_contribution 5 _ _ m' 1 [] Hs eq_refl E (Hinit 1 ltac:(lia)))
      as [(c & Hc & _ & _ & Hgap) _].
    rewrite Hc, Hgap; [done| |by vm_compute].
    cbn. apply (bool_decide_unpack _). by vm_compute.
  - destruct (add_run_contribution 5 _ _ m' 4 [] Hs eq_refl E (Hinit 4 ltac:(lia)))
      as [(c & Hc & _ & Hfill & _) _].
    rewrite Hc. destruct Hfill as (v & [= <-] & ->); [done|by vm_compute|done].
Defined.

(** ** When the aggregation returns *)

Lemma foldl_max_ge_init (f : run → Z) x l : x ≤ foldl (λ m r, Z.max m (f r)) x l.
Proof.
  revert x. induction l as [|r l IH]; intros x; simpl; [done|].
  etrans; [|apply IH]. lia.
Qed.

Lemma foldl_max_ge_elem (f : run → Z) x l r :
  r ∈ l → f r ≤ foldl (λ m r, Z.max m (f r)) x l.
Proof.
  revert x. induction l as [|r' l IH]; intros x Hin; [by apply elem_of_nil in Hin|].
  simpl. apply elem_of_cons in Hin as [->|Hin]; [|by apply IH].
  etrans; [|apply foldl_max_ge_init]. lia.
Qed.

Lemma max_step_of_ge runs r : r ∈ runs → last_step r.1 ≤ max_step_of runs.
Proof.
  destruct runs as [|r0 runs]; [by intros ?%elem_of_nil|].
  intros [->|Hin]%elem_of_cons; simpl.
  - apply (foldl_max_ge_init (λ r, last_step r.1)).
  - by apply (foldl_max_ge_elem (λ r, last_step r.1)).
Qed.

Lemma foldl_max_attained (f : run → Z) x l :
  foldl (λ m r, Z.max m (f r)) x l = x ∨
  ∃ r, r ∈ l ∧ foldl (λ m r, Z.max m (f r)) x l = f r.
Proof.
  revert x. induction l as [|r l IH]; intros x; simpl; [by left|].
  destruct (IH (Z.max x (f r))) as [Heq|(r' & Hin & Heq)].
  - rewrite Heq. destruct (Z.max_spec x (f r)) as [[_ ->]|[_ ->]].
    + right. exists r. split; [left|done].
    + by left.
  - right. exists r'. split; [by right|done].
Qed.

Lemma max_step_of_attained runs :
  runs ≠ [] → ∃ r, r ∈ runs ∧ max_step_of runs = last_step r.1.
Proof.
  destruct runs as [|r0 runs]; [done|]. intros _. simpl.
  destruct (foldl_max_attained (λ r, last_step r.1) (last_step r0.1) runs)
    as [Heq|(r & Hin & Heq)].
  - exists r0. split; [left|done].
  - exists r. split; [by right|done].
Qed.

Lemma add_run_total max_step r (m : gmap Z (list float)) :
  (∀ s, 0 ≤ s ≤ max_step → is_Some (m !! s)) →
  in_range max_step r →
  ∃ m', add_run max_step r m = Ok m'.
Proof.
  intros Hdom [Hsteps Hvals]. unfold add_run.
  destruct (append_loop_total (zip r.1 r.2) m) as [m1 Hm1].
  { apply Forall_forall. intros [s v] Hin. simpl. apply Hdom.
    apply list_elem_of_lookup in Hin as [i Hi].
    apply lookup_zip_with_Some in Hi as (? & ? & [= <- <-] & Hi & _).
    eapply Forall_forall in Hsteps; [done|]. by eapply list_elem_of_lookup_2. }
  rewrite Hm1. cbn.
  destruct r as [[|s0 run_steps] run_values]; [by eexists|]. cbn [fst snd] in *.
  destruct (last run_values) as [last_value|] eqn:E.
  2:{ apply last_None in E. by destruct Hvals. }
  destruct (append_loop_total
    ((λ x, (x, last_value)) <$> seqZ (last_step (s0 :: run_steps) + 1)
       (max_step + 1 - (last_step (s0 :: run_steps) + 1))) m1) as [m' Hm'].
  { apply Forall_forall. intros [s v] Hin. simpl.
    apply list_elem_of_fmap in Hin as (s' & [= -> ->] & Hin).
    apply elem_of_seqZ in Hin.
    rewrite (append_loop _ _ _ Hm1 s'). apply fmap_is_Some, Hdom.
    pose proof (last_step_elem (s0 :: run_steps) ltac:(done)) as Hlast.
    eapply Forall_forall in Hsteps; [|exact Hlast]. simpl in Hsteps. lia. }
  exists m'. rewrite <- Hm', for_each_fmap. apply for_each_ext. by intros ??.
Qed.

Lemma add_runs_total max_step runs (m : gmap Z (list float)) :
  (∀ s, 0 ≤ s ≤ max_step → is_Some (m !! s)) →
  Forall (in_range max_step) runs →
  ∃ m', for_each runs (add_run max_step) m = Ok m'.
Proof.
  intros Hdom Hall. revert m Hdom.
  induction Hall as [|r runs Hr _ IH]; intros m Hdom; [by eexists|].
  destruct (add_run_total _ _ _ Hdom Hr) as [m1 Hm1].
  simpl. rewrite Hm1. cbn. apply IH.
  intros s Hs. rewrite (add_run_lookup _ _ _ _ Hm1 s). by apply fmap_is_Some, Hdom.
Qed.

Lemma sorted_run_in_range runs r :
  r ∈ runs → sorted_run r → in_range (max_step_of runs) r.
Proof.
  intros Hin (Hlen & Hsorted & Hpos). split.
  - apply Forall_forall. intros s Hs. split.
    + by eapply Forall_forall in Hpos.
    + etrans; [by apply sorted_le_last_step|by apply max_step_of_ge].
  - intros Hne Hnil. rewrite Hnil in Hlen. by destruct r.1.
Qed.

Lemma aggregate_runs_total runs :
  Forall sorted_run runs → ∃ o, aggregate_runs runs = Ok o.
Proof.
  intros Hall. destruct runs as [|r runs]; [by eexists|].
  unfold aggregate_runs, fill_step_to_values.
  destruct (add_runs_total (max_step_of (r :: runs)) (r :: runs)
              (init_step_to_values (max_step_of (r :: runs)))) as [m Hm].
  - intros s Hs. rewrite init_step_to_values_lookup.
    by rewrite bool_decide_eq_true_2.
  - apply Forall_forall. intros r' Hin. apply sorted_run_in_range; [done|].
    by eapply Forall_forall in Hall.
  - rewrite Hm. by eexists.
Qed.

(** ** Dense runs *)

Lemma observed_seqZ a (vs : list float) s :
  (filter (λ p : Z * float, p.1 = s) (zip (seqZ a (Z.of_nat (length vs))) vs)).*2
  = if bool_decide (a ≤ s) then option_list (vs !! Z.to_nat (s - a)) else [].
Proof.
  revert a. induction vs as [|v vs IH]; intros a.
  - cbn [length]. rewrite seqZ_nil by done. cbn. rewrite lookup_nil.
    by case_bool_decide.
  - cbn [length]. rewrite seqZ_cons by lia.
    replace (Z.pred (Z.of_nat (S (length vs)))) with (Z.of_nat (length vs)) by lia.
    cbn [zip_with]. rewrite filter_cons. cbn [fst].
    destruct (decide (a = s)) as [->|Hne].
    + rewrite fmap_cons, IH. rewrite bool_decide_eq_false_2 by lia.
      rewrite bool_decide_eq_true_2 by lia.
      replace (Z.to_nat (s - s)) with 0%nat by lia. done.
    + rewrite IH. case_bool_decide as H1; case_bool_decide as H2; try lia; [|done].
      replace (Z.to_nat (s - a)) with (S (Z.to_nat (s - Z.succ a))) by lia. done.
Qed.

Lemma last_step_seqZ n : (0 < n)%nat → last_step (seqZ 0 (Z.of_nat n)) = Z.of_nat n - 1.
Proof.
  intros Hn. unfold last_step. rewrite last_lookup, length_seqZ.
  rewrite lookup_seqZ_lt by lia. simpl. lia.
Qed.

Lemma contribution_dense max_step r s :
  dense_run r → 0 ≤ s ≤ max_step → contribution max_step r s = [value_at r s].
Proof.
  intros (Hne & Hsteps & _) Hs. unfold contribution, observed, filled, value_at.
  destruct r as [run_steps run_values]. cbn [fst snd] in *. subst run_steps.
  assert (Hlen : (0 < length run_values)%nat) by (destruct run_values; [done|simpl; lia]).
  rewrite observed_seqZ, bool_decide_eq_true_2 by lia.
  rewrite last_step_seqZ by done.
  replace (s - 0) with s by lia.
  destruct (seqZ 0 (Z.of_nat (length run_values))) as [|s0 ss] eqn:Eseq.
  { apply (f_equal length) in Eseq. rewrite length_seqZ in Eseq. simpl in Eseq. lia. }
  destruct (last run_values) as [last_value|] eqn:E.
  2:{ apply last_None in E. done. }
  destruct (run_values !! Z.to_nat s) as [v|] eqn:Ev; simpl.
  - apply lookup_lt_Some in Ev. by rewrite bool_decide_eq_false_2 by lia.
  - apply lookup_ge_None in Ev. by rewrite bool_decide_eq_true_2 by lia.
Qed.

Lemma samples_dense runs s :
  Forall dense_run runs → 0 ≤ s ≤ max_step_of runs →
  samples runs s = (λ r, value_at r s) <$> runs.
Proof.
  intros Hall Hs. unfold samples. generalize (max_step_of runs) Hs. clear Hs.
  intros M Hs. induction Hall as [|r runs Hr _ IH]; [done|].
  rewrite !fmap_cons. cbn [concat]. rewrite IH. by rewrite contribution_dense.
Qed.

Lemma value_at_elem r s : r.2 ≠ [] → value_at r s ∈ r.2.
Proof.
  intros Hne. unfold value_at.
  destruct (r.2 !! Z.to_nat s) as [x|] eqn:Ex; simpl.
  - by eapply list_elem_of_lookup_2.
  - destruct (last r.2) as [y|] eqn:Ey; simpl.
    + by apply last_Some_elem_of.
    + by apply last_None in Ey.
Qed.

Lemma value_at_mono r s :
  dense_run r → no_nan r.2 → 0 ≤ s → Float.le (value_at r s) (value_at r (s + 1)).
Proof.
  intros (Hne & _ & Hmono) Hnan Hs.
  assert (Hrefl : Float.le (value_at r s) (value_at r s)).
  { apply le_refl. pose proof (value_at_elem r s Hne) as Hin.
    by apply (proj1 (Forall_forall _ _) Hnan). }
  revert Hrefl. unfold value_at.
  replace (Z.to_nat (s + 1)) with (S (Z.to_nat s)) by lia.
  destruct (r.2 !! Z.to_nat s) as [x|] eqn:Ex; simpl.
  - destruct (r.2 !! S (Z.to_nat s)) as [y|] eqn:Ey; simpl.
    + intros _. by eapply Hmono.
    + rewrite last_lookup.
      pose proof (lookup_lt_Some _ _ _ Ex). apply lookup_ge_None in Ey.
      assert (Hp : Nat.pred (length r.2) = Z.to_nat s) by lia.
      by rewrite Hp, Ex.
  - apply lookup_ge_None in Ex. by rewrite lookup_ge_None_2 by lia.
Qed.

(** ** Sums and means of numbers *)

Lemma summable_Fin n x : summable n x → ∃ q, x = Fin q.
Proof. destruct x; [eauto|done..]. Qed.

Lemma summable_not_nan n l : Forall (summable n) l → no_nan l.
Proof. intros Hl. eapply Forall_impl; [exact Hl|]. by intros [q| | |]. Qed.

Lemma sum_mono l1 l2 :
  Forall2 below l1 l2 →
  ∃ p q, Float.sum l1 = Fin p ∧ Float.sum l2 = Fin q ∧ (p <= q)%Q.
Proof.
  induction 1 as [|x y l1 l2 (p & q & -> & -> & Hpq) _ (p' & q' & E1 & E2 & Hle)].
  - exists 0%Q, 0%Q. split_and!; [done..|apply Qle_refl].
  - change (Float.sum (Fin p :: l1)) with (Float.add (Fin p) (Float.sum l1)).
    change (Float.sum (Fin q :: l2)) with (Float.add (Fin q) (Float.sum l2)).
    rewrite E1, E2. exists (p + p')%Q, (q + q')%Q.
    split_and!; [done..|]. by apply Qplus_le_compat.
Qed.

Lemma mean_or_zero_mono l1 l2 :
  Forall2 below l1 l2 → Float.le (mean_or_zero l1) (mean_or_zero l2).
Proof.
  intros Hall. pose proof (Forall2_length _ _ _ Hall) as Hlen.
  destruct (sum_mono _ _ Hall) as (p & q & E1 & E2 & Hpq).
  destruct Hall as [|x y l1 l2 Hxy Hall]; [by apply le_refl|].
  unfold mean_or_zero, Np.mean. rewrite E1, E2, Hlen.
  cbn [length Float.div_nat]. apply le_Fin.
  unfold Qdiv. apply Qmult_le_compat_r; [done|].
  apply Qinv_le_0_compat. unfold Qle. simpl. lia.
Qed.

Lemma dense_run_sorted r : dense_run r → sorted_run r.
Proof.
  intros (Hne & Hsteps & _). unfold sorted_run. rewrite Hsteps. split_and!.
  - rewrite length_seqZ. lia.
  - apply Sorted_seqZ.
  - apply Forall_seqZ. lia.
Qed.

(** ** Claims about the aggregated trajectory *)

Lemma take_at_no_nan (l : list float) order : no_nan l → no_nan (take_at l order).
Proof.
  intros Hl. unfold take_at. induction order as [|i order IH]; [constructor|].
  cbn [omap list_omap]. destruct (l !! i) as [x|] eqn:E; [|done].
  constructor; [|done].
  by eapply (proj1 (Forall_forall _ _) Hl), list_elem_of_lookup_2.
Qed.

Lemma sort_and_repair_by_nondecreasing order step_indices best_values :
  no_nan best_values →
  nondecreasing (sort_and_repair_by order step_indices best_values).2.
Proof.
  intros Hnan. unfold sort_and_repair_by. cbn [snd].
  rewrite ensure_monotonic_running_max.
  by apply running_max_nondecreasing, take_at_no_nan.
Qed.

(** C1, as the code has it. The repaired values of a trial are
    non-decreasing when none of them is NaN, in whatever order the sort
    leaves them. The aggregated values of an optimizer are returned and are
    non-decreasing when each of its runs is dense, that is has exactly one
    observation at every step from 0 to its last step, and its values are
    numbers whose sum over the runs stays in the range of floats. *)
Theorem aggregated_values_nondecreasing (runs : list run) :
  runs ≠ [] →
  Forall dense_run runs →
  Forall (λ r : run, Forall (summable (length runs)) r.2) runs →
  (∀ order step_indices best_values,
     no_nan best_values →
     nondecreasing (sort_and_repair_by order step_indices best_values).2 ∧
     nondecreasing (sort_and_repair step_indices best_values).2) ∧
  ∃ traj, aggregate_runs runs = Ok (Some traj) ∧ nondecreasing (values traj).
Proof.
  intros Hne Hdense Hsum. split.
  { intros order step_indices best_values Hnan.
    split; by apply sort_and_repair_by_nondecreasing. }
  destruct (aggregate_runs_total runs) as [o Ho].
  { eapply Forall_impl; [exact Hdense|]. apply dense_run_sorted. }
  pose proof (aggregate_runs_Ok _ _ Ho) as Hspec.
  revert Hsum. generalize (length runs). intros n Hsum.
  destruct runs as [|r0 runs]; [done|]. subst o.
  eexists. split; [done|]. cbn [values].
  set (M := max_step_of (r0 :: runs)) in *.
  intros i x y Hx Hy.
  apply list_lookup_fmap_Some in Hx as (s & -> & Hs).
  apply list_lookup_fmap_Some in Hy as (s' & -> & Hs').
  apply lookup_seqZ in Hs as [-> Hi]. apply lookup_seqZ in Hs' as [-> Hi'].
  rewrite !samples_dense by (done || fold M; lia).
  apply mean_or_zero_mono. apply Forall2_fmap, Forall_Forall2_diag.
  apply Forall_forall. intros r Hr.
  pose proof (proj1 (Forall_forall _ _) Hdense r Hr) as Hd.
  pose proof (proj1 (Forall_forall _ _) Hsum r Hr) as Hn. simpl in Hn.
  assert (Hle : Float.le (value_at r (0 + Z.of_nat i)) (value_at r (0 + Z.of_nat (S i)))).
  { replace (0 + Z.of_nat (S i)) with (0 + Z.of_nat i + 1) by lia.
    apply value_at_mono; [done|by eapply summable_not_nan|lia]. }
  destruct Hd as (Hd & _ & _).
  destruct (summable_Fin n (value_at r (0 + Z.of_nat i))) as [p Hp].
  { apply (proj1 (Forall_forall _ _) Hn). by apply value_at_elem. }
  destruct (summable_Fin n (value_at r (0 + Z.of_nat (S i)))) as [q Hq].
  { apply (proj1 (Forall_forall _ _) Hn). by apply value_at_elem. }
  exists p, q. split_and!; [done..|]. apply le_Fin. by rewrite <- Hp, <- Hq.
Qed.

Lemma aggregated_values_nondecreasing_witness :
  ∃ traj,
    aggregate_runs [([0; 1], [Fin 1; Fin 3]); ([0; 1; 2], [Fin 2; Fin 2; Fin 4])]
    = Ok (Some traj)
    ∧ nondecreasing (values traj).
Proof.
  apply aggregated_values_nondecreasing; [done| |].
  - repeat constructor; try done.
    + intros [|[|i]] x y Hx Hy; simplify_eq/=. by vm_compute.
    + intros [|[|[|i]]] x y Hx Hy; simplify_eq/=; by vm_compute.
  - repeat constructor; by vm_compute.
Defined.

(** C1 as stated fails: the trajectory of [A] in [doc_gap] is
    [1.0, 0.0, 5.0], which decreases at step 1. *)
Lemma aggregated_values_decrease :
  entry_of "A"
    (@ProcessOfficialResults.collect_open_race_histories no_numeric_strings doc_gap)
  = Ok (Some {| steps := [0; 1; 2]; values := [Fin 1; Fin 0; Fin 5] |}) ∧
  entry_of "A"
    (@ProcessResults.collect_open_race_histories no_numeric_strings doc_gap
       ≫= ProcessResults.aggregate_open_race_histories)
  = Ok (Some {| steps := [0; 1; 2]; values := [Fin 1; Fin 0; Fin 5] |}) ∧
  ¬ nondecreasing [Fin 1; Fin 0; Fin 5].
Proof.
  split_and!; [by vm_compute|by vm_compute|].
  intros Hmono. specialize (Hmono 0%nat (Fin 1) (Fin 0) eq_refl eq_refl).
  by vm_compute in Hmono.
Qed.

(** C2 as stated fails: the trial observed only at steps 0 and 3 adds no
    sample at steps 1 and 2, so that merged with a trial that records 1.0 at
    every step up to 5 the means at steps 1 and 2 are 1.0, not 1.5. *)
Lemma forward_fill_skips_gaps :
  (m ← add_run 5 ([0; 3], [Fin 2; Fin 5]) (init_step_to_values 5);
   Ok (m !! 1, m !! 2)) = Ok (Some [], Some []) ∧
  lowest_terms
    (aggregate_runs [([0; 3], [Fin 2; Fin 5]);
                     ([0; 1; 2; 3; 4; 5], [Fin 1; Fin 1; Fin 1; Fin 1; Fin 1; Fin 1])])
  = Some ([0; 1; 2; 3; 4; 5], [Fin (3 # 2); Fin 1; Fin 1; Fin 3; Fin 3; Fin 3]).
Proof. split; by vm_compute. Qed.

(** ** From trials to trajectories *)

Lemma record_all_snoc trials t :
  record_all (trials ++ [t]) = record_run t.1 t.2 (record_all trials).
Proof. unfold record_all. by rewrite foldl_app. Qed.

Lemma append_to_lookup {V} name (v : V) d k :
  append_to name v d !! k
  = if decide (name = k) then Some (default [] (d !! name) ++ [v]) else d !! k.
Proof. unfold append_to. apply lookup_insert. Qed.

Lemma record_all_lookup trials name :
  record_all trials !! name
  = match runs_of name trials with [] => None | runs => Some runs end.
Proof.
  induction trials as [|[name' r] trials IH] using rev_ind; [done|].
  rewrite record_all_snoc. unfold runs_of in *. rewrite filter_app, fmap_app.
  unfold record_run. cbn [fst snd].
  destruct r as [[|s0 run_steps] run_values]; cbn [fst snd].
  - rewrite filter_cons_False by (intros [_ Hne]; by apply Hne).
    rewrite filter_nil, fmap_nil, app_nil_r. apply IH.
  - rewrite append_to_lookup. destruct (decide (name' = name)) as [->|Hne].
    + rewrite filter_cons_True by done. rewrite filter_nil, IH.
      by destruct (_ <$> filter _ trials).
    + rewrite filter_cons_False by (intros [? _]; done).
      rewrite filter_nil, fmap_nil, app_nil_r. apply IH.
Qed.

Section read_trials.
Context `{StrParsers}.

Lemma collect_items_read_trials items (acc : list trial) :
  for_each items (λ '(name, result_) histories,
      r ← read_history result_; Ok (record_run name r histories)) (record_all acc)
  = (trials ← for_each items (λ '(name, result_) trials,
                r ← read_history result_; Ok (trials ++ [(name, r)])) acc;
     Ok (record_all trials)).
Proof.
  revert acc. induction items as [|[name result_] items IH]; intros acc; [done|].
  cbn [for_each]. destruct (read_history result_) as [r|e]; [|done].
  cbn. rewrite <- IH. by rewrite record_all_snoc.
Qed.

Lemma collect_runs_loop comps (acc : list trial) :
  for_each comps (λ competition histories,
      optimizer_results ← Py.get competition "optimizer_results" (JObj []);
      items ← Py.items optimizer_results;
      for_each items (λ '(name, result_) histories,
        r ← read_history result_;
        Ok (record_run name r histories)) histories) (record_all acc)
  = (trials ← for_each comps (λ competition trials,
        optimizer_results ← Py.get competition "optimizer_results" (JObj []);
        items ← Py.items optimizer_results;
        for_each items (λ '(name, result_) trials,
          r ← read_history result_;
          Ok (trials ++ [(name, r)])) trials) acc;
     Ok (record_all trials)).
Proof.
  revert acc. induction comps as [|c comps IH]; intros acc; [done|].
  cbn [for_each].
  destruct (Py.get c "optimizer_results" (JObj [])) as [o|e]; [|done]. cbn.
  destruct (Py.items o) as [items|e]; [|done]. cbn.
  rewrite collect_items_read_trials.
  match goal with
  | |- context [for_each items ?f acc] =>
      destruct (for_each items f acc) as [acc'|e]; [|done]
  end.
  cbn. apply IH.
Qed.

(** [collect_runs] records the trials it reads, one after the other. *)
Lemma collect_runs_read_trials comps :
  collect_runs comps = (trials ← read_trials comps; Ok (record_all trials)).
Proof. apply (collect_runs_loop comps []). Qed.
End read_trials.

Lemma add_runs_elem max_step runs (m m' : gmap Z (list float)) r :
  for_each runs (add_run max_step) m = Ok m' → r ∈ runs →
  ∃ m1 m2, add_run max_step r m1 = Ok m2 ∧
           ∀ s, is_Some (m1 !! s) ↔ is_Some (m !! s).
Proof.
  revert m. induction runs as [|r0 runs IH]; intros m Hrun Hin;
    [by apply elem_of_nil in Hin|].
  simpl in Hrun. apply bind_Ok in Hrun as (m1 & Hr0 & Hrun).
  apply elem_of_cons in Hin as [->|Hin].
  - by exists m, m1.
  - destruct (IH _ Hrun Hin) as (ma & mb & Hadd & Hdom).
    exists ma, mb. split; [done|]. intros s. rewrite Hdom.
    rewrite (add_run_lookup _ _ _ _ Hr0 s). apply fmap_is_Some.
Qed.

Lemma add_run_first_step max_step s0 run_steps run_values (m m' : gmap Z (list float)) :
  add_run max_step (s0 :: run_steps, run_values) m = Ok m' → is_Some (m !! s0).
Proof.
  unfold add_run. cbn [fst snd]. destruct run_values as [|v0 run_values]; [done|].
  cbn [zip_with for_each]. intros Hrun.
  apply bind_Ok in Hrun as (m1 & Hrun & _).
  apply bind_Ok in Hrun as (m0 & Happ & _).
  apply append_at_Ok in Happ as (l & Hl & _). eauto.
Qed.

Lemma fill_step_to_values_max_step runs m r :
  fill_step_to_values runs = Ok m → r ∈ runs → r.1 ≠ [] → 0 ≤ max_step_of runs.
Proof.
  unfold fill_step_to_values. intros Hfill Hin Hne.
  destruct (add_runs_elem _ _ _ _ _ Hfill Hin) as (m1 & m2 & Hadd & Hdom).
  destruct r as [[|s0 run_steps] run_values]; [done|].
  apply add_run_first_step, Hdom in Hadd.
  rewrite init_step_to_values_lookup in Hadd.
  case_bool_decide; [lia|by destruct Hadd].
Qed.

Lemma sort_and_repair_steps_nonempty step_indices best_values :
  step_indices ≠ [] → (sort_and_repair step_indices best_values).1 ≠ [].
Proof.
  intros Hne Hnil. apply (f_equal length) in Hnil. unfold sort_and_repair in Hnil.
  cbn [fst] in Hnil. rewrite length_take_at_argsort in Hnil by done.
  by destruct step_indices.
Qed.

Lemma runs_of_nonempty_steps name trials r : r ∈ runs_of name trials → r.1 ≠ [].
Proof.
  unfold runs_of. intros ([name' r'] & -> & Hin)%list_elem_of_fmap.
  apply list_elem_of_filter in Hin as [[_ Hne] _].
  by apply sort_and_repair_steps_nonempty.
Qed.

Lemma runs_of_nil name trials :
  runs_of name trials = [] ↔ ∀ r, (name, r) ∈ trials → r.1 = [].
Proof.
  unfold runs_of. split.
  - intros Hnil r Hin. destruct (decide (r.1 = [])) as [|Hne]; [done|].
    apply fmap_nil_inv in Hnil.
    pose proof (filter_nil_not_elem_of (λ t : trial, t.1 = name ∧ t.2.1 ≠ [])
                  trials (name, r) Hnil) as Hnot.
    destruct Hnot; [by split|done].
  - intros Hall.
    destruct (filter _ trials) as [|[name' r] rest] eqn:E; [done|].
    assert (Hin : (name', r) ∈ filter (λ t : trial, t.1 = name ∧ t.2.1 ≠ []) trials)
      by (rewrite E; left).
    apply list_elem_of_filter in Hin as [[Hname Hne] Hin]. simpl in Hname, Hne.
    subst name'. exfalso. apply Hne. by apply Hall.
Qed.


(** ** The positional average of generate_data.py *)

Lemma positional_loop histories k sv :
  for_each (seq 0 k) (λ step_idx sv,
      step_values ← GenerateData.values_at histories step_idx;
      match step_values with
      | [] => Ok sv
      | _ =>
        nums ← mapM Py.number step_values;
        Ok (sv.1 ++ [step_idx], sv.2 ++ [Np.mean nums])
      end) ([], []) = Ok sv →
  sv.1 = filter (λ p, has_values histories p = true) (seq 0 k) ∧
  length sv.2 = length sv.1.
Proof.
  revert sv. induction k as [|k IH]; intros sv.
  - by intros [= <-].
  - rewrite seq_S, for_each_app. change (0 + k)%nat with k. intros Hrun.
    apply bind_Ok in Hrun as (sv0 & Hsv0 & Hrun).
    destruct (IH _ Hsv0) as [Hsteps Hlen].
    cbn [for_each] in Hrun. apply bind_Ok in Hrun as (sv1 & Hbody & [= <-]).
    apply bind_Ok in Hbody as (step_values & Hvals & Hbody).
    rewrite filter_app, filter_cons, filter_nil.
    assert (Hhas : has_values histories k
                   = match step_values with [] => false | _ => true end)
      by (unfold has_values; by rewrite Hvals).
    destruct step_values as [|x step_values].
    + injection Hbody as <-. rewrite decide_False by (by rewrite Hhas).
      by rewrite app_nil_r.
    + apply bind_Ok in Hbody as (nums & _ & [= <-]). cbn [fst snd].
      rewrite decide_True by done. split; [by rewrite Hsteps|].
      rewrite !length_app. simpl. lia.
Qed.

Lemma average_histories_Some histories t :
  GenerateData.average_histories histories = Ok (Some t) →
  ∃ lens,
    mapM Py.len histories = Ok lens ∧
    GenerateData.race_steps t
    = filter (λ p, has_values histories p = true) (seq 0 (max_list lens)) ∧
    length (GenerateData.race_values t) = length (GenerateData.race_steps t) ∧
    GenerateData.final_best t = last (GenerateData.race_values t).
Proof.
  unfold GenerateData.average_histories. destruct histories as [|h histories]; [done|].
  intros Hrun. apply bind_Ok in Hrun as (lens & Hlens & Hrun).
  apply bind_Ok in Hrun as (sv & Hloop & [= <-]).
  apply positional_loop in Hloop as [Hsteps Hlen].
  exists lens. by cbn.
Qed.

Lemma average_histories_emits histories :
  histories ≠ [] → GenerateData.average_histories histories ≠ Ok None.
Proof.
  unfold GenerateData.average_histories. destruct histories as [|h histories]; [done|].
  intros _ Hrun. apply bind_Ok in Hrun as (lens & _ & Hrun).
  by apply bind_Ok in Hrun as (sv & _ & ?).
Qed.

(** C3, as the code has it. In [process_results.py] and
    [process_official_results.py], where the collector records the trials
    it reads one after the other: for an optimizer with at least one
    non-empty trial the aggregated trajectory has
    [steps = [0, 1, ..., max_step]] and
    [len(steps) = len(values) = max_step + 1], where [max_step] is the
    largest last step of its runs; a step at which no run contributes a
    sample has the value 0; an optimizer whose trials all are empty has no
    entry in the result. The positional average of [generate_data.py]
    instead lists the positions at which some history has a non-null best
    value, with as many values, and has an entry for every optimizer with a
    history. *)
Theorem trajectory_dense `{StrParsers} (trials : list trial)
    (out : gmap string OptimizerTrajectory) (name : string) :
  ProcessResults.aggregate_open_race_histories (record_all trials) = Ok out →
  (∀ competitions,
     collect_runs competitions
     = (trials ← read_trials competitions; Ok (record_all trials))) ∧
  ((∀ r, (name, r) ∈ trials → r.1 = []) → out !! name = None) ∧
  ((∃ r, (name, r) ∈ trials ∧ r.1 ≠ []) →
     ∃ traj max_step,
       out !! name = Some traj ∧
       (∃ r, r ∈ runs_of name trials ∧ max_step = last_step r.1) ∧
       (∀ r, r ∈ runs_of name trials → last_step r.1 ≤ max_step) ∧
       steps traj = seqZ 0 (max_step + 1) ∧
       Z.of_nat (length (steps traj)) = max_step + 1 ∧
       length (values traj) = length (steps traj) ∧
       (∀ i s, steps traj !! i = Some s →
          samples (runs_of name trials) s = [] → values traj !! i = Some (Fin 0))) ∧
  (∀ histories,
     histories ≠ [] →
     GenerateData.average_histories histories ≠ Ok None ∧
     ∀ t, GenerateData.average_histories histories = Ok (Some t) →
       ∃ lens,
         mapM Py.len histories = Ok lens ∧
         GenerateData.race_steps t
         = filter (λ p, has_values histories p = true) (seq 0 (max_list lens)) ∧
         length (GenerateData.race_values t) = length (GenerateData.race_steps t)).
Proof.
  unfold ProcessResults.aggregate_open_race_histories. intros Hagg.
  pose proof (for_items_Ok _ _ _ Hagg name) as Hname.
  rewrite record_all_lookup in Hname. split_and!.
  - apply collect_runs_read_trials.
  - intros Hempty. apply (proj2 (runs_of_nil name trials)) in Hempty.
    by rewrite Hempty in Hname.
  - intros (r0 & Hin & Hne).
    destruct (runs_of name trials) as [|r runs] eqn:Eruns.
    { exfalso. apply Hne. by apply (proj1 (runs_of_nil name trials) Eruns). }
    destruct Hname as (o & Hruns & Hout).
    pose proof (aggregate_runs_Ok _ _ Hruns) as Ho. cbn beta iota in Ho.
    rewrite Ho in Hout, Hruns. clear Ho.
    assert (Hmax : 0 ≤ max_step_of (r :: runs)).
    { unfold aggregate_runs in Hruns.
      apply bind_Ok in Hruns as (m & Hfill & _).
      apply (fill_step_to_values_max_step _ _ r Hfill); [left|].
      apply (runs_of_nonempty_steps name trials). rewrite Eruns. left. }
    eexists _, (max_step_of (r :: runs)). split_and!.
    + exact Hout.
    + by apply max_step_of_attained.
    + apply max_step_of_ge.
    + done.
    + cbn [steps]. rewrite length_seqZ. lia.
    + cbn [steps values]. by rewrite length_fmap.
    + cbn [steps values]. intros i s Hs Hnone.
      rewrite list_lookup_fmap, Hs. simpl. by rewrite Hnone.
  - intros histories Hne. split; [by apply average_histories_emits|].
    intros t Ht. apply average_histories_Some in Ht as (lens & ? & ? & ? & _).
    by exists lens.
Qed.

Lemma trajectory_dense_witness :
  ∃ out,
    ProcessResults.aggregate_open_race_histories
      (record_all [("A", ([2; 0], [Fin 5; Fin 1])); ("B", ([], [])); ("A", ([], []))])
    = Ok out ∧
    out !! "B" = None ∧
    ∃ traj, out !! "A" = Some traj ∧ steps traj = [0; 1; 2] ∧
            length (values traj) = 3%nat ∧ values traj !! 1%nat = Some (Fin 0).
Proof.
  set (trials := [("A", ([2; 0], [Fin 5; Fin 1])); ("B", ([], [])); ("A", ([], []))]).
  destruct (ProcessResults.aggregate_open_race_histories (record_all trials))
    as [out|e] eqn:E; [|by vm_compute in E].
  exists out. split; [done|].
  destruct (@trajectory_dense no_numeric_strings trials out "B" E) as (_ & HB & _ & _).
  destruct (@trajectory_dense no_numeric_strings trials out "A" E) as (_ & _ & HA & _).
  split.
  - apply HB. intros r Hin. unfold trials in Hin.
    do 3 (apply elem_of_cons in Hin as [Heq|Hin]; [by inversion Heq|]).
    by apply elem_of_nil in Hin.
  - destruct HA as (traj & max_step & Hout & (r & Hr & Hmax) & _ & Hsteps & _ & Hlen & Hzero).
    { exists ([2; 0], [Fin 5; Fin 1]). split; [left|done]. }
    assert (max_step = 2) as ->.
    { rewrite Hmax. vm_compute in Hr. apply list_elem_of_singleton in Hr as ->. done. }
    exists traj. split_and!; [done|by rewrite Hsteps|by rewrite Hlen, Hsteps|].
    apply (Hzero 1%nat 1); [by rewrite Hsteps|by vm_compute].
Defined.

(** C3 as stated fails on [generate_data.py]: for [doc_sparse] its
    positional average emits [A], whose only history is empty, with empty
    steps and values, and omits position 1 of [B], at which no history has a
    value, where the claim has [A] omitted and position 1 valued 0. *)
Lemma positional_average_is_sparse :
  entry_of "A" (GenerateData.process_open_race_file doc_sparse)
  = Ok (Some {| GenerateData.race_steps := [];
                GenerateData.race_values := [];
                GenerateData.final_best := None |}) ∧
  entry_of "B" (GenerateData.process_open_race_file doc_sparse)
  = Ok (Some {| GenerateData.race_steps := [0; 2]%nat;
                GenerateData.race_values := [Fin 1; Fin 4];
                GenerateData.final_best := Some (Fin 4) |}) ∧
  entry_of "A"
    (@ProcessOfficialResults.collect_open_race_histories no_numeric_strings doc_sparse)
  = Ok None ∧
  entry_of "B"
    (@ProcessOfficialResults.collect_open_race_histories no_numeric_strings doc_sparse)
  = Ok (Some {| steps := [0; 1; 2]; values := [Fin 1; Fin 0; Fin 4] |}).
Proof. split_and!; by vm_compute. Qed.

(** ** The history of a trial *)

Section histories.
Context `{StrParsers}.

Lemma best_value_of_first_non_null record :
  best_value_counts record → best_value_of record = first_non_null record.
Proof.
  intros Hcounts. unfold best_value_of, first_non_null.
  destruct (Py.get record "best_value_so_far" JNull) as [a|e] eqn:E; [|done].
  cbn [mbind result_bind].
  destruct (Hcounts a E) as [Hnone|Htrue].
  - rewrite Hnone. by destruct a.
  - rewrite Htrue. by destruct a.
Qed.

Lemma read_record_pair record acc :
  best_value_counts record →
  read_record record acc
  = (o ← pair_of record;
     Ok (from_option (λ p : Z * float, (acc.1 ++ [p.1], acc.2 ++ [p.2])) acc o)).
Proof.
  intros Hcounts. unfold read_record, pair_of.
  rewrite (best_value_of_first_non_null _ Hcounts).
  destruct (Py.get record "step" JNull) as [step|e]; [|done].
  cbn [mbind result_bind].
  destruct (first_non_null record) as [value|e]; [|done].
  cbn [mbind result_bind].
  destruct (negb (Py.is_none step) && negb (Py.is_none value)); [|done].
  destruct (Py.int step) as [s|e]; [|done]. cbn [mbind result_bind].
  by destruct (Py.float value) as [v|e].
Qed.

Lemma read_records_pairs records acc :
  Forall best_value_counts records →
  for_each records read_record acc
  = (pairs ← mapM pair_of records;
     Ok (acc.1 ++ (omap id pairs).*1, acc.2 ++ (omap id pairs).*2)).
Proof.
  intros Hall. revert acc.
  induction Hall as [|record records Hrecord _ IH]; intros acc.
  - cbn. rewrite !app_nil_r. by destruct acc.
  - cbn [for_each mapM]. rewrite (read_record_pair _ _ Hrecord).
    destruct (pair_of record) as [o|e]; [|done]. cbn [mbind result_bind].
    rewrite IH. destruct (mapM pair_of records) as [pairs|e]; [|done].
    cbn [mbind result_bind]. destruct o as [[s v]|]; cbn; [|done].
    by rewrite <- !app_assoc.
Qed.

(** On a history without such a best value, the collector reads the
    pairs of the history. *)
Lemma read_history_pairs result_ :
  best_values_count result_ →
  read_history result_ = (pairs ← history_pairs result_; Ok (pairs.*1, pairs.*2)).
Proof.
  intros Hcount. unfold read_history, history_pairs.
  destruct (Py.get result_ "optimization_history" (JArr [])) as [history|e] eqn:E1;
    [|done].
  cbn [mbind result_bind].
  destruct (Py.iter history) as [records|e] eqn:E2; [|done].
  cbn [mbind result_bind].
  rewrite (read_records_pairs _ _ (Hcount _ _ E1 E2)).
  by destruct (mapM pair_of records).
Qed.
End histories.

Lemma trial_history_counts records :
  Forall (λ p : Q * float, Float.is_zero p.2 = false) records →
  best_values_count (trial_history records).
Proof.
  intros Hall history rs [= <-] [= <-].
  apply Forall_fmap. eapply Forall_impl; [exact Hall|].
  intros [q x] Hx a [= <-]. right. cbn in *. by rewrite Hx.
Qed.

(** ** The normalizer of a trial *)

(** C4, as the code has it. For the history of a trial in which no best
    value so far counts as false without being null, whose steps are in the
    range of the machine integers and whose values are floats other than
    NaN, the normalizer reads the (step, value) pairs of the history, sorts
    them by step, ascending, and then replaces each value with the running
    maximum of the sorted values so far, in whatever order the sort leaves
    the pairs of equal steps; the raw history
    [(0, 5.0), (1, 3.0), (2, 7.0)] is repaired to the values
    [5.0, 5.0, 7.0]. *)
Theorem sort_and_repair_running_max `{StrParsers} (result_ : json)
    (pairs : list (Z * float)) :
  history_pairs result_ = Ok pairs →
  best_values_count result_ →
  in_int64 pairs.*1 →
  Forall float64 pairs.*2 →
  no_nan pairs.*2 →
  read_history result_ = Ok (pairs.*1, pairs.*2) ∧
  sorting_order pairs.*1 (Np.argsort pairs.*1) ∧
  sort_and_repair pairs.*1 pairs.*2
  = sort_and_repair_by (Np.argsort pairs.*1) pairs.*1 pairs.*2 ∧
  (∀ order, sorting_order pairs.*1 order →
     ∃ sorted_values,
       Sorted Z.le (sort_and_repair_by order pairs.*1 pairs.*2).1 ∧
       zip (sort_and_repair_by order pairs.*1 pairs.*2).1 sorted_values ≡ₚ pairs ∧
       (sort_and_repair_by order pairs.*1 pairs.*2).2 = running_max sorted_values ∧
       ∀ i m, (sort_and_repair_by order pairs.*1 pairs.*2).2 !! i = Some m →
         (∀ j x, (j <= i)%nat → sorted_values !! j = Some x → Float.le x m) ∧
         (∃ j, (j <= i)%nat ∧ sorted_values !! j = Some m)) ∧
  (r ← read_history trial_5_3_7; Ok (sort_and_repair r.1 r.2))
  = Ok ([0; 1; 2], [Fin 5; Fin 5; Fin 7]).
Proof.
  intros Hpairs Hcount _ _ Hnan. split_and!.
  - by rewrite (read_history_pairs _ Hcount), Hpairs.
  - apply argsort_sorting_order.
  - done.
  - intros order Horder. exists (take_at pairs.*2 order).
    unfold sort_and_repair_by. cbn [fst snd].
    assert (Hlen : length pairs.*1 = length pairs.*2) by by rewrite !length_fmap.
    split_and!.
    + apply Horder.
    + rewrite (sorted_by_Permutation _ _ _ Horder Hlen). by rewrite zip_fst_snd.
    + apply ensure_monotonic_running_max.
    + intros i m. rewrite ensure_monotonic_running_max.
      by apply running_max_spec, take_at_no_nan.
  - rewrite (read_history_pairs trial_5_3_7).
    + by vm_compute.
    + apply trial_history_counts. by repeat constructor.
Qed.

Lemma sort_and_repair_running_max_witness :
  ∃ pairs,
    @history_pairs no_numeric_strings trial_5_3_7 = Ok pairs ∧
    best_values_count trial_5_3_7 ∧
    in_int64 pairs.*1 ∧
    Forall float64 pairs.*2 ∧
    no_nan pairs.*2 ∧
    @read_history no_numeric_strings trial_5_3_7 = Ok (pairs.*1, pairs.*2) ∧
    sort_and_repair pairs.*1 pairs.*2 = ([0; 1; 2], [Fin 5; Fin 5; Fin 7]).
Proof.
  exists [(0, Fin 5); (1, Fin 3); (2, Fin 7)].
  assert (Hcount : best_values_count trial_5_3_7)
    by (apply trial_history_counts; by repeat constructor).
  assert (Hint : in_int64 [(0, Fin 5); (1, Fin 3); (2, Fin 7)].*1)
    by (repeat constructor; by vm_compute).
  assert (Hfloat : Forall float64 [(0, Fin 5); (1, Fin 3); (2, Fin 7)].*2)
    by (repeat constructor; [by exists 5, 0|by exists 3, 0|by exists 7, 0]).
  assert (Hnan : no_nan [(0, Fin 5); (1, Fin 3); (2, Fin 7)].*2)
    by by repeat constructor.
  split_and!; [by vm_compute|done..| |by vm_compute].
  exact (proj1 (@sort_and_repair_running_max no_numeric_strings trial_5_3_7
                  [(0, Fin 5); (1, Fin 3); (2, Fin 7)] eq_refl Hcount Hint Hfloat
                  Hnan)).
Defined.

(** C4 as stated fails: a NaN is neither less nor more than a value, so
    that the repair does not carry the maximum over it. In the history
    [(0, 1.0), (1, NaN), (2, 0.5)] the third value stays 0.5, less than the
    first. *)
Lemma nan_stops_running_max :
  @history_pairs no_numeric_strings trial_with_nan
  = Ok [(0, Fin 1); (1, NaN); (2, Fin (1 # 2))] ∧
  (r ← @read_history no_numeric_strings trial_with_nan; Ok (sort_and_repair r.1 r.2))
  = Ok ([0; 1; 2], [Fin 1; NaN; Fin (1 # 2)]) ∧
  ¬ (∀ i m, [Fin 1; NaN; Fin (1 # 2)] !! i = Some m →
       ∀ j x, (j <= i)%nat → [Fin 1; NaN; Fin (1 # 2)] !! j = Some x → Float.le x m).
Proof.
  split_and!; [by vm_compute..|].
  intros Hmax. by specialize (Hmax 2%nat (Fin (1 # 2)) eq_refl 0%nat (Fin 1)
                                ltac:(lia) eq_refl).
Qed.

(** ** Repeated steps within one run *)

Lemma filter_two {A} (P : A → Prop) `{∀ x, Decision (P x)} (l : list A) i j x y :
  (i < j)%nat → l !! i = Some x → l !! j = Some y → P x → P y →
  [x; y] `sublist_of` filter P l.
Proof.
  revert i j. induction l as [|a l IH]; intros i j Hij Hx Hy Px Py; [done|].
  destruct j as [|j]; [lia|]. destruct i as [|i]; simplify_eq/=.
  - rewrite filter_cons_True by done. apply sublist_skip.
    apply singleton_sublist_l, list_elem_of_filter. split; [done|].
    by eapply list_elem_of_lookup_2.
  - rewrite filter_cons. destruct (decide (P a)).
    + apply sublist_cons. apply (IH i j); [lia|done..].
    + apply (IH i j); [lia|done..].
Qed.

Lemma observed_two (r : run) s i j v1 v2 :
  (i < j)%nat → r.1 !! i = Some s → r.1 !! j = Some s →
  r.2 !! i = Some v1 → r.2 !! j = Some v2 →
  [v1; v2] `sublist_of` observed r s.
Proof.
  intros Hij Hi Hj Hv1 Hv2. unfold observed.
  change [v1; v2] with ([(s, v1); (s, v2)].*2). apply fmap_sublist.
  apply (filter_two _ _ i j); [done| | |done|done];
    apply lookup_zip_with_Some; eauto.
Qed.

Lemma append_loop_dom (items : list (Z * float)) (m m' : gmap Z (list float)) p :
  for_each items (λ '(step, value) m, append_at step value m) m = Ok m' →
  p ∈ items → is_Some (m !! p.1).
Proof.
  revert m. induction items as [|[s0 v0] items IH]; intros m Hrun Hin;
    [by apply elem_of_nil in Hin|].
  simpl in Hrun. apply bind_Ok in Hrun as (m1 & Happ & Hrun).
  apply append_at_Ok in Happ as (l0 & Hl0 & ->).
  apply elem_of_cons in Hin as [->|Hin]; [by eexists|].
  apply (IH _ Hrun) in Hin. destruct (decide (s0 = p.1)) as [<-|Hne]; [by eexists|].
  by rewrite lookup_insert_ne in Hin.
Qed.

Lemma samples_segment runs r s :
  r ∈ runs →
  ∃ before after,
    samples runs s = before ++ contribution (max_step_of runs) r s ++ after.
Proof.
  unfold samples. generalize (max_step_of runs). intros M Hin.
  apply list_elem_of_split in Hin as (runs1 & runs2 & ->).
  rewrite fmap_app, fmap_cons, concat_app. cbn [concat]. eauto.
Qed.

Lemma observed_length (r : run) s :
  length r.1 = length r.2 →
  length (observed r s) = length (filter (λ k, k = s) r.1).
Proof.
  unfold observed. rewrite length_fmap. destruct r as [ks vs]. cbn [fst snd].
  revert vs. induction ks as [|k ks IH]; intros [|v vs] Hlen; try done.
  cbn [zip_with]. rewrite !filter_cons. cbn [fst].
  destruct (decide (k = s)); cbn [length]; rewrite IH; auto.
Qed.

(** The sorted and repaired run has as many observations at a step as the
    history has pairs with that step. *)
Lemma sort_and_repair_by_observed (pairs : list (Z * float)) order s :
  sorting_order pairs.*1 order →
  length (observed (sort_and_repair_by order pairs.*1 pairs.*2) s)
  = length (filter (λ p : Z * float, p.1 = s) pairs).
Proof.
  intros Horder. rewrite observed_length.
  2:{ unfold sort_and_repair_by. cbn [fst snd].
      rewrite ensure_monotonic_running_max, length_running_max.
      rewrite !(length_take_at_order _ pairs.*1); by rewrite ?length_fmap. }
  unfold sort_and_repair_by. cbn [fst].
  rewrite (take_at_order_Permutation pairs.*1 order Horder). clear Horder.
  induction pairs as [|[k v] pairs IH]; [done|].
  rewrite fmap_cons, !filter_cons. cbn [fst].
  destruct (decide (k = s)); cbn [length]; by rewrite IH.
Qed.

Lemma observed_in_range runs r s m :
  fill_step_to_values runs = Ok m → r ∈ runs → observed r s ≠ [] →
  0 ≤ s ≤ max_step_of runs.
Proof.
  intros Hfill Hin Hobs.
  destruct (add_runs_elem _ _ _ _ _ Hfill Hin) as (m1 & m2 & Hadd & Hdom).
  unfold add_run in Hadd. apply bind_Ok in Hadd as (m3 & Hloop & _).
  unfold observed in Hobs.
  destruct (filter (λ p : Z * float, p.1 = s) (zip r.1 r.2)) as [|[s' v] rest] eqn:E;
    [done|].
  assert (Hp : (s', v) ∈ filter (λ p : Z * float, p.1 = s) (zip r.1 r.2))
    by (rewrite E; left).
  apply list_elem_of_filter in Hp as [Hs Hp]. cbn in Hs. subst s'.
  apply (append_loop_dom _ _ _ _ Hloop), Hdom in Hp. simpl in Hp.
  rewrite init_step_to_values_lookup in Hp.
  case_bool_decide; [done|by destruct Hp].
Qed.

(** The value of the trajectory at a step that a run has observed: the
    mean of the samples of the step, those of the run among them. *)
Lemma observed_step_value runs r s traj :
  aggregate_runs runs = Ok (Some traj) → r ∈ runs → observed r s ≠ [] →
  ∃ k before mid after,
    steps traj !! k = Some s ∧
    values traj !! k = Some (Np.mean (before ++ mid ++ after)) ∧
    samples runs s = before ++ mid ++ after ∧
    mid = contribution (max_step_of runs) r s.
Proof.
  intros Hagg Hin Hobs.
  destruct (aggregate_runs_Some _ _ Hagg) as (m & Hfill & Hsteps & Hvalues).
  pose proof (observed_in_range _ _ _ _ Hfill Hin Hobs) as Hs.
  destruct (samples_segment runs r s Hin) as (before & after & Hsamples).
  exists (Z.to_nat s), before, (contribution (max_step_of runs) r s), after.
  rewrite Hsteps, Hvalues. split_and!; [| |done|done].
  - rewrite lookup_seqZ_lt by lia. f_equal. lia.
  - rewrite list_lookup_fmap, lookup_seqZ_lt by lia. simpl.
    replace (0 + Z.of_nat (Z.to_nat s)) with s by lia.
    rewrite Hsamples. unfold mean_or_zero.
    destruct (before ++ _ ++ after) eqn:E; [|done].
    apply app_eq_nil in E as [_ E]. apply app_eq_nil in E as [E _].
    unfold contribution in E. apply app_eq_nil in E as [E _]. done.
Qed.

(** C10, as the code has it. When the history of a trial, in which no best
    value so far counts as false without being null and whose steps and
    values are machine integers and floats, has two pairs with the same step
    [s], the trial's run has at least two observations at [s], in whatever
    order the sort leaves the pairs of equal steps. All of them are appended
    to the samples of [s], with the values they have after the repair, and
    are among the samples whose mean is the aggregated value at [s], when
    the aggregation returns: the trial weighs twice there. With the runs
    [([0, 0], [1.0, 3.0])] and [([0], [5.0])] the value at step 0 is the
    mean of [1.0, 3.0, 5.0]. *)
Theorem repeated_step_counts_twice `{StrParsers} (result_ : json)
    (pairs : list (Z * float)) (i j : nat) (s : Z) (v1 v2 : float)
    (order : list nat) (runs : list run) (traj : OptimizerTrajectory) :
  history_pairs result_ = Ok pairs →
  best_values_count result_ →
  in_int64 pairs.*1 →
  Forall float64 pairs.*2 →
  (i < j)%nat → pairs !! i = Some (s, v1) → pairs !! j = Some (s, v2) →
  sorting_order pairs.*1 order →
  sort_and_repair_by order pairs.*1 pairs.*2 ∈ runs →
  aggregate_runs runs = Ok (Some traj) →
  read_history result_ = Ok (pairs.*1, pairs.*2) ∧
  sorting_order pairs.*1 (Np.argsort pairs.*1) ∧
  sort_and_repair pairs.*1 pairs.*2
  = sort_and_repair_by (Np.argsort pairs.*1) pairs.*1 pairs.*2 ∧
  (2 <= length (observed (sort_and_repair_by order pairs.*1 pairs.*2) s))%nat ∧
  (∀ m m' l,
     add_run (max_step_of runs) (sort_and_repair_by order pairs.*1 pairs.*2) m
     = Ok m' →
     m !! s = Some l →
     ∃ c, m' !! s = Some (l ++ c) ∧
          observed (sort_and_repair_by order pairs.*1 pairs.*2) s `prefix_of` c) ∧
  (∃ k before mid after,
     steps traj !! k = Some s ∧
     values traj !! k = Some (Np.mean (before ++ mid ++ after)) ∧
     samples runs s = before ++ mid ++ after ∧
     mid = contribution (max_step_of runs)
             (sort_and_repair_by order pairs.*1 pairs.*2) s ∧
     observed (sort_and_repair_by order pairs.*1 pairs.*2) s `prefix_of` mid) ∧
  lowest_terms (aggregate_runs [([0; 0], [Fin 1; Fin 3]); ([0], [Fin 5])])
  = Some ([0], [Float.red (Np.mean [Fin 1; Fin 3; Fin 5])]).
Proof.
  intros Hpairs Hcount _ _ Hij Hi Hj Horder Hin Hagg.
  set (r := sort_and_repair_by order pairs.*1 pairs.*2) in *.
  assert (Htwo : (2 <= length (observed r s))%nat).
  { unfold r. rewrite (sort_and_repair_by_observed _ _ _ Horder).
    apply (sublist_length [(s, v1); (s, v2)]).
    by apply (filter_two _ _ i j). }
  assert (Hprefix : observed r s `prefix_of` contribution (max_step_of runs) r s)
    by apply prefix_app_r, reflexivity.
  split_and!; [|apply argsort_sorting_order|done|done| | |by vm_compute].
  - by rewrite (read_history_pairs _ Hcount), Hpairs.
  - intros m m' l Hadd Hl. eexists. split; [|exact Hprefix].
    by rewrite (add_run_lookup _ _ _ _ Hadd s), Hl.
  - destruct (observed_step_value runs _ s traj Hagg Hin)
      as (k & before & mid & after & Hk & Hv & Hsamples & ->).
    { intros E. rewrite E in Htwo. cbn in Htwo. lia. }
    exists k, before, (contribution (max_step_of runs) r s), after.
    done.
Qed.

Lemma repeated_step_counts_twice_witness :
  ∃ pairs traj k before mid after,
    @history_pairs no_numeric_strings
      (trial_history [(0%Q, Fin 2); (1%Q, Fin 3); (1%Q, Fin 4)]) = Ok pairs ∧
    aggregate_runs [sort_and_repair pairs.*1 pairs.*2] = Ok (Some traj) ∧
    steps traj !! k = Some 1 ∧
    values traj !! k = Some (Np.mean (before ++ mid ++ after)) ∧
    (2 <= length mid)%nat.
Proof.
  set (history := trial_history [(0%Q, Fin 2); (1%Q, Fin 3); (1%Q, Fin 4)]).
  set (pairs := [(0, Fin 2); (1, Fin 3); (1, Fin 4)] : list (Z * float)).
  assert (Hpairs : @history_pairs no_numeric_strings history = Ok pairs)
    by by vm_compute.
  assert (Hcount : best_values_count history)
    by (apply trial_history_counts; by repeat constructor).
  assert (Hint : in_int64 pairs.*1) by (repeat constructor; by vm_compute).
  assert (Hfloat : Forall float64 pairs.*2)
    by (repeat constructor; [by exists 2, 0|by exists 3, 0|by exists 4, 0]).
  destruct (aggregate_runs [sort_and_repair pairs.*1 pairs.*2])
    as [[traj|]|e] eqn:E; [|by vm_compute in E..].
  destruct (@repeated_step_counts_twice no_numeric_strings history pairs
              1%nat 2%nat 1 (Fin 3) (Fin 4) (Np.argsort pairs.*1)
              [sort_and_repair pairs.*1 pairs.*2] traj Hpairs Hcount Hint Hfloat)
    as (_ & _ & _ & Htwo & _ &
        (k & before & mid & after & Hk & Hv & _ & _ & Hprefix) & _);
    [lia|done|done|apply argsort_sorting_order|left|done|].
  exists pairs, traj, k, before, mid, after. split_and!; [done..|].
  apply prefix_length in Hprefix. lia.
Defined.

(** C10 as stated fails: a trial that records the step -1 twice
    contributes no sample, since the aggregation raises [KeyError]. *)
Lemma repeated_negative_step_raises :
  @history_pairs no_numeric_strings
    (trial_history [((-1)%Q, Fin 1); ((-1)%Q, Fin 2)])
  = Ok [(-1, Fin 1); (-1, Fin 2)] ∧
  (@ProcessResults.collect_open_race_histories no_numeric_strings
     doc_repeated_negative_step
   ≫= ProcessResults.aggregate_open_race_histories) = Raise KeyError ∧
  @ProcessOfficialResults.collect_open_race_histories no_numeric_strings
    doc_repeated_negative_step = Raise KeyError.
Proof. split_and!; by vm_compute. Qed.

(** ** Which optimizers the steps-to-target collectors emit *)

Lemma assoc_elem k kvs v : Py.assoc k kvs = Some v → (k, v) ∈ kvs.
Proof.
  induction kvs as [|[k' v'] kvs IH]; [done|]. simpl.
  destruct (String.eqb k' k) eqn:E.
  - intros [= ->]. apply String.eqb_eq in E as ->. left.
  - intros Hv. right. by apply IH.
Qed.

Lemma has_value_arr field name l x :
  has_value field name (JArr l) = false → x ∈ l → has_value field name x = false.
Proof.
  simpl. intros Hl Hx. destruct (has_value field name x) eqn:E; [|done].
  rewrite <- Hl. symmetry. apply existsb_exists. exists x.
  split; [by apply list_elem_of_In|done].
Qed.

Lemma has_value_obj field name kvs k x :
  has_value field name (JObj kvs) = false → (k, x) ∈ kvs →
  has_value field name x = false ∧ (k = name → entry_has field x = false).
Proof.
  simpl. intros Hl Hx.
  assert (Hkx : (String.eqb k name && entry_has field x)
                || has_value field name x = false).
  { destruct (_ || _) eqn:E; [|done]. rewrite <- Hl. symmetry.
    apply existsb_exists. exists (k, x). split; [by apply list_elem_of_In|done]. }
  apply orb_false_iff in Hkx as [Hentry Hx']. split; [done|].
  intros ->. by rewrite String.eqb_refl in Hentry.
Qed.

Section frames.
Context `{StrParsers}.
Variables (field name : string).

Lemma get_lacks x k d v :
  lacks field name x → lacks field name d → Py.get x k d = Ok v → lacks field name v.
Proof.
  intros Hx Hd. destruct x; try done. simpl. intros [= <-].
  destruct (Py.assoc k kvs) as [v|] eqn:E; simpl; [|done].
  apply assoc_elem in E. by eapply has_value_obj.
Qed.

Lemma getitem_lacks x k v :
  lacks field name x → Py.getitem x k = Ok v → lacks field name v.
Proof.
  intros Hx. destruct x; try done. simpl.
  destruct (Py.assoc k kvs) as [v'|] eqn:E; [|done]. intros [= <-].
  apply assoc_elem in E. by eapply has_value_obj.
Qed.

Lemma iter_lacks x l : lacks field name x → Py.iter x = Ok l → Forall (lacks field name) l.
Proof.
  intros Hx. destruct x; try done; simpl; intros [= <-]; apply Forall_forall.
  - by intros y (c & -> & _)%list_elem_of_fmap.
  - intros y Hy. by eapply has_value_arr.
  - by intros y (kv & -> & _)%list_elem_of_fmap.
Qed.

Lemma pool_optimizer_results_frame opt_res (acc acc' : gmap string (list float)) :
  lacks field name opt_res →
  pool_optimizer_results field opt_res acc = Ok acc' →
  acc' !! name = acc !! name.
Proof.
  intros Hclean Hrun. unfold pool_optimizer_results in Hrun.
  apply bind_Ok in Hrun as (items & Hitems & Hrun).
  destruct opt_res as [| | | | |kvs]; try done. injection Hitems as <-.
  eapply (for_each_invariant (λ a : gmap string (list float), a !! name = acc !! name));
    [|done|exact Hrun].
  intros [k res] acc1 acc2 Hin Hacc1 Hbody.
  apply bind_Ok in Hbody as (v & Hget & Hbody).
  destruct (has_value_obj _ _ _ _ _ Hclean Hin) as [_ Hentry].
  destruct (Py.is_none v) eqn:Hnone; [by injection Hbody as <-|].
  apply bind_Ok in Hbody as (q & _ & [= <-]).
  rewrite append_to_lookup. destruct (decide (k = name)) as [->|]; [|done].
  exfalso. specialize (Hentry eq_refl).
  destruct res as [| | | | |fields]; try done. simpl in Hget, Hentry.
  destruct (Py.assoc field fields) as [v'|]; simpl in Hget.
  - injection Hget as ->. by rewrite Hnone in Hentry.
  - by injection Hget as <-.
Qed.
End frames.

Section frames_tournaments.
Context `{StrParsers}.
Variable name : string.

Lemma pool_tournament_frame tournament (acc acc' : gmap string (list float)) :
  lacks "steps_to_target" name tournament → pool_tournament tournament acc = Ok acc' →
  acc' !! name = acc !! name.
Proof.
  intros Hclean Hrun. unfold pool_tournament in Hrun.
  apply bind_Ok in Hrun as (competitions & Hget & Hrun).
  apply bind_Ok in Hrun as (comps & Hiter & Hrun).
  apply (get_lacks _ _ _ _ (JArr []) _ Hclean eq_refl) in Hget.
  apply (iter_lacks _ _ _ _ Hget) in Hiter.
  eapply (for_each_invariant (λ a : gmap string (list float), a !! name = acc !! name));
    [|done|exact Hrun].
  intros comp acc1 acc2 Hin Hacc1 Hbody.
  apply bind_Ok in Hbody as (opt_res & Hget' & Hbody).
  rewrite <- Hacc1. eapply pool_optimizer_results_frame; [|exact Hbody].
  eapply (get_lacks _ _ comp _ (JObj [])); [|done|exact Hget'].
  by eapply Forall_forall in Hiter.
Qed.

Lemma pool_tournaments_frame tournaments (acc acc' : gmap string (list float)) :
  lacks "steps_to_target" name tournaments → pool_tournaments tournaments acc = Ok acc' →
  acc' !! name = acc !! name.
Proof.
  intros Hclean Hrun. unfold pool_tournaments in Hrun.
  apply bind_Ok in Hrun as (ts & Hiter & Hrun).
  apply (iter_lacks _ _ _ _ Hclean) in Hiter.
  eapply (for_each_invariant (λ a : gmap string (list float), a !! name = acc !! name));
    [|done|exact Hrun].
  intros t acc1 acc2 Hin Hacc1 Hbody. rewrite <- Hacc1.
  eapply pool_tournament_frame; [|exact Hbody]. by eapply Forall_forall in Hiter.
Qed.

Lemma lacks_singleton x : lacks "steps_to_target" name x → lacks "steps_to_target" name (JArr [x]).
Proof. unfold lacks. simpl. by intros ->. Qed.

Lemma pool_standard_frame data acc :
  lacks "steps_to_target" name data → ProcessOfficialResults.pool_standard data = Ok acc →
  acc !! name = None.
Proof.
  intros Hclean Hrun. unfold ProcessOfficialResults.pool_standard in Hrun.
  apply bind_Ok in Hrun as (tournaments & Hget & Hrun).
  apply (get_lacks _ _ _ _ (JArr []) _ Hclean eq_refl) in Hget.
  apply pool_tournaments_frame in Hrun; [by rewrite Hrun, lookup_empty|].
  destruct (Py.truthy tournaments);
    destruct (Py.is_list _); try done; by repeat apply lacks_singleton.
Qed.

Lemma collect_hide_label_steps_frame data acc :
  lacks "steps_to_target" name data → ProcessResults.collect_hide_label_steps data = Ok acc →
  acc !! name = None.
Proof.
  intros Hclean Hrun. unfold ProcessResults.collect_hide_label_steps in Hrun.
  apply bind_Ok in Hrun as (tournaments & Hget & Hrun).
  apply (get_lacks _ _ _ _ (JArr []) _ Hclean eq_refl) in Hget.
  apply pool_tournaments_frame in Hrun; [by rewrite Hrun, lookup_empty|].
  destruct (Py.truthy tournaments); [done|by apply lacks_singleton].
Qed.
End frames_tournaments.

Section frames_analysis.
Context `{StrParsers}.
Variable name : string.

Lemma pool_analysis_frame data acc :
  has_value "mean_steps" name data = false →
  ProcessOfficialResults.pool_analysis data = Ok acc →
  acc !! name = None.
Proof.
  intros Hclean Hrun. unfold ProcessOfficialResults.pool_analysis in Hrun.
  apply bind_Ok in Hrun as (items & Hget & Hrun).
  apply bind_Ok in Hrun as (its & Hiter & Hrun).
  apply (get_lacks _ _ _ _ (JArr []) _ Hclean eq_refl) in Hget.
  apply (iter_lacks _ _ _ _ Hget) in Hiter.
  eapply (for_each_invariant (λ a : gmap string (list float), a !! name = None));
    [|apply lookup_empty|exact Hrun].
  intros item acc1 acc2 Hin Hacc1 Hbody.
  apply bind_Ok in Hbody as (item_data & Hdata & Hbody).
  apply bind_Ok in Hbody as (optimizer_stats & Hstats & Hbody).
  rewrite <- Hacc1. eapply pool_optimizer_results_frame; [|exact Hbody].
  eapply (get_lacks _ _ item_data _ (JObj [])); [|done|exact Hstats].
  eapply (get_lacks _ _ item _ (JObj [])); [|done|exact Hdata].
  by eapply Forall_forall in Hiter.
Qed.

(** The first test of [collect_steps] is the pre-aggregated shape. *)
Lemma is_analysis_shape data ty b :
  Py.get data "type" JNull = Ok ty →
  ProcessOfficialResults.and_then (Py.eq_str ty "analysis")
    (Py.contains "items" data) = Ok b →
  b = analysis_shape data.
Proof.
  destruct data as [| | | | |kvs]; try done. simpl. intros [= <-].
  unfold Py.eq_str. destruct (Py.assoc "type" kvs) as [ty|]; simpl.
  - destruct (Py.is_str "analysis" ty); simpl; by intros [= <-].
  - by intros [= <-].
Qed.

Lemma collect_steps_frame data acc :
  has_value (value_field data) name data = false →
  ProcessOfficialResults.collect_steps data = Ok acc →
  acc !! name = None.
Proof.
  unfold value_field, ProcessOfficialResults.collect_steps. intros Hclean Hrun.
  apply bind_Ok in Hrun as (ty & Hty & Hrun).
  apply bind_Ok in Hrun as (b & Hb & Hrun).
  rewrite (is_analysis_shape _ _ _ Hty Hb) in Hrun.
  destruct (analysis_shape data); [by eapply pool_analysis_frame|].
  apply bind_Ok in Hrun as (b2 & _ & Hrun). destruct b2.
  { apply bind_Ok in Hrun as (ts & Hts & Hrun).
    apply pool_tournaments_frame with (name := name) in Hrun; [by rewrite Hrun, lookup_empty|].
    by eapply getitem_lacks. }
  apply bind_Ok in Hrun as (b3 & _ & Hrun). destruct b3.
  { apply bind_Ok in Hrun as (r & Hr & Hrun).
    apply bind_Ok in Hrun as (ts & Hts & Hrun).
    apply pool_tournaments_frame with (name := name) in Hrun; [by rewrite Hrun, lookup_empty|].
    eapply getitem_lacks; [|done]. by eapply getitem_lacks. }
  apply bind_Ok in Hrun as (b4 & _ & Hrun). destruct b4.
  { apply bind_Ok in Hrun as (r & Hr & Hrun).
    apply bind_Ok in Hrun as (ts & Hts & Hrun).
    destruct (Py.is_list ts); [|by injection Hrun as <-].
    apply pool_tournaments_frame with (name := name) in Hrun; [by rewrite Hrun, lookup_empty|].
    eapply getitem_lacks; [|done]. by eapply getitem_lacks. }
  by eapply pool_standard_frame.
Qed.
End frames_analysis.

Lemma summary_of_count pooled s :
  ProcessOfficialResults.summary_of pooled = Some s →
  pooled ≠ [] ∧ count s = length pooled ∧
  s = {| mean_steps := Np.mean pooled; median_steps := Np.median pooled;
         min_steps := Np.min pooled; max_steps := Np.max pooled;
         count := length pooled |}.
Proof. destruct pooled; [done|]. by intros [= <-]. Qed.

(** C7. An optimizer none of whose records holds a value for the pooled
    member ([steps_to_target]; [mean_steps] in a pre-aggregated document)
    is no key of the mapping the steps-to-target collectors return, and an
    optimizer that is a key has a summary of at least one value. *)
Theorem absent_optimizer_omitted `{StrParsers} (data : json) (name : string) :
  lacks (value_field data) name data →
  lacks "steps_to_target" name data →
  (∀ summary, ProcessOfficialResults.collect_hide_label_stats data = Ok summary →
     summary !! name = None) ∧
  (∀ steps_by_opt, ProcessResults.collect_hide_label_steps data = Ok steps_by_opt →
     steps_by_opt !! name = None) ∧
  (∀ summary other s,
     ProcessOfficialResults.collect_hide_label_stats data = Ok summary →
     summary !! other = Some s → (1 <= count s)%nat).
Proof.
  intros Hfield Hsteps. split_and!.
  - intros summary Hrun. unfold ProcessOfficialResults.collect_hide_label_stats in Hrun.
    apply bind_Ok in Hrun as (steps_by_opt & Hcollect & [= <-]).
    unfold ProcessOfficialResults.summarize. rewrite lookup_omap.
    by rewrite (collect_steps_frame name data steps_by_opt).
  - intros steps_by_opt Hrun. by eapply collect_hide_label_steps_frame.
  - intros summary other s Hrun Hs.
    unfold ProcessOfficialResults.collect_hide_label_stats in Hrun.
    apply bind_Ok in Hrun as (steps_by_opt & Hcollect & [= <-]).
    unfold ProcessOfficialResults.summarize in Hs. rewrite lookup_omap in Hs.
    destruct (steps_by_opt !! other) as [pooled|]; [|done]. simpl in Hs.
    apply summary_of_count in Hs as (Hne & -> & _). destruct pooled; [done|simpl; lia].
Qed.

Lemma absent_optimizer_omitted_witness :
  lacks "steps_to_target" "B" doc_absent ∧
  entry_of "B"
    (@ProcessOfficialResults.collect_hide_label_stats no_numeric_strings doc_absent)
  = Ok None ∧
  entry_of "B"
    (@ProcessResults.collect_hide_label_steps no_numeric_strings doc_absent)
  = Ok None.
Proof.
  split; [reflexivity|].
  destruct (@absent_optimizer_omitted no_numeric_strings doc_absent "B"
              eq_refl eq_refl) as (Hstats & Hsteps & _).
  split.
  - destruct (@ProcessOfficialResults.collect_hide_label_stats
                no_numeric_strings doc_absent) as [summary|e] eqn:E;
      [|by vm_compute in E].
    simpl. by rewrite (Hstats summary).
  - destruct (@ProcessResults.collect_hide_label_steps
                no_numeric_strings doc_absent) as [steps_by_opt|e] eqn:E;
      [|by vm_compute in E].
    simpl. by rewrite (Hsteps steps_by_opt).
Defined.

(** ** Shape detection *)




(** ** Documents without competitions, and documents that raise *)

(** C8, as the code has it. A document that is a JSON object with none of
    the keys ["items"], ["all_tournament_results"], ["results"],
    ["tournament_results"] and ["competitions"] gives the empty mapping, in
    every collector and in the aggregation, and no exception. *)
Theorem unrecognized_document_is_empty `{StrParsers} (kvs : list (string * json)) :
  Py.assoc "items" kvs = None →
  Py.assoc "all_tournament_results" kvs = None →
  Py.assoc "results" kvs = None →
  Py.assoc "tournament_results" kvs = None →
  Py.assoc "competitions" kvs = None →
  ProcessOfficialResults.collect_hide_label_stats (JObj kvs) = Ok ∅ ∧
  ProcessOfficialResults.collect_open_race_histories (JObj kvs) = Ok ∅ ∧
  ProcessResults.collect_hide_label_steps (JObj kvs) = Ok ∅ ∧
  ProcessResults.collect_open_race_histories (JObj kvs) = Ok ∅ ∧
  ProcessResults.aggregate_open_race_histories ∅ = Ok ∅.
Proof.
  intros Hitems Hall Hres Htour Hcomp. split_and!.
  - unfold ProcessOfficialResults.collect_hide_label_stats,
      ProcessOfficialResults.collect_steps,
      ProcessOfficialResults.results_has,
      ProcessOfficialResults.pool_standard, pool_tournaments, pool_tournament.
    cbn [Py.get Py.contains mbind result_bind].
    rewrite Hitems, Hall, Hres, Htour. cbn.
    destruct (Py.eq_str _ _); cbn; rewrite ?Hcomp; cbn;
      unfold ProcessOfficialResults.summarize; by rewrite omap_empty.
  - unfold ProcessOfficialResults.collect_open_race_histories,
      ProcessOfficialResults.results_has.
    cbn [Py.get Py.contains mbind result_bind].
    rewrite Hres. cbn. rewrite Hcomp, Htour. cbn. done.
  - unfold ProcessResults.collect_hide_label_steps, pool_tournaments, pool_tournament.
    cbn [Py.get mbind result_bind]. rewrite Hall. cbn. by rewrite Hcomp.
  - unfold ProcessResults.collect_open_race_histories.
    cbn [Py.get mbind result_bind]. rewrite Hcomp. cbn. by rewrite Htour.
  - unfold ProcessResults.aggregate_open_race_histories, for_items.
    by rewrite map_to_list_empty.
Qed.

Lemma unrecognized_document_is_empty_witness :
  @ProcessOfficialResults.collect_hide_label_stats no_numeric_strings
    (JObj [("optimizer_names", JArr [JStr "A"])]) = Ok ∅ ∧
  @ProcessOfficialResults.collect_open_race_histories no_numeric_strings
    (JObj [("optimizer_names", JArr [JStr "A"])]) = Ok ∅.
Proof.
  destruct (@unrecognized_document_is_empty no_numeric_strings
              [("optimizer_names", JArr [JStr "A"])]
              eq_refl eq_refl eq_refl eq_refl eq_refl) as (H1 & H2 & _).
  by split.
Defined.

(** C8 as stated fails: each of these documents makes a collector raise,
    the empty JSON array among them. *)
Lemma shape_variance_raises :
  @ProcessOfficialResults.collect_hide_label_stats no_numeric_strings (JArr [])
  = Raise AttributeError ∧
  @ProcessOfficialResults.collect_open_race_histories no_numeric_strings (JArr [])
  = Raise AttributeError ∧
  @ProcessOfficialResults.collect_hide_label_stats no_numeric_strings
    doc_null_competitions = Raise TypeError ∧
  @ProcessResults.collect_hide_label_steps no_numeric_strings
    (JObj [("all_tournament_results", JArr [JObj [("competitions", JNull)]])])
  = Raise TypeError ∧
  @ProcessOfficialResults.collect_open_race_histories no_numeric_strings
    doc_null_history = Raise TypeError ∧
  @ProcessResults.collect_open_race_histories no_numeric_strings
    doc_null_history = Raise TypeError ∧
  @ProcessOfficialResults.collect_open_race_histories no_numeric_strings
    doc_negative_step = Raise KeyError ∧
  (@ProcessResults.collect_open_race_histories no_numeric_strings doc_negative_step
     ≫= ProcessResults.aggregate_open_race_histories) = Raise KeyError.
Proof. split_and!; by vm_compute. Qed.

(** ** The value of a history record *)

(** [best_value_so_far] is used when it is truthy, [current_best] otherwise. *)
Lemma best_value_of_truthy fields :
  best_value_of (JObj fields)
  = Ok (let a := default JNull (Py.assoc "best_value_so_far" fields) in
        if Py.truthy a then a else default JNull (Py.assoc "current_best" fields)).
Proof.
  unfold best_value_of. cbn [Py.get mbind result_bind].
  by destruct (Py.truthy _).
Qed.

(** C5 at the failing input. A record whose [best_value_so_far] is 0.0 and
    that has no [current_best] is skipped although its step and its value
    are not null, whereas [generate_data.py] keeps its 0.0; when the record
    has a [current_best] of 3.0, 3.0 is recorded in place of 0.0. *)
Theorem zero_best_value_is_dropped `{StrParsers} :
  read_record record_zero ([], []) = Ok ([], []) ∧
  GenerateData.values_at [JArr [record_zero]] 0 = Ok [JNum (Fin 0)] ∧
  read_record record_zero_then_current ([], []) = Ok ([1], [Fin 3]) ∧
  entry_has "step" record_zero = true ∧
  entry_has "best_value_so_far" record_zero = true ∧
  entry_has "best_value_so_far" record_zero_then_current = true.
Proof. split_and!; reflexivity. Qed.
(** ** Summary statistics of the emitted optimizers *)

Lemma add_zero x : Float.add x (Fin 0) = x.
Proof.
  destruct x as [[n d]| | |]; try done.
  unfold Float.add, Qplus. cbn. f_equal. f_equal; [lia|by rewrite Pos.mul_1_r].
Qed.

Lemma div_one x : Float.div_nat x 1 = x.
Proof.
  destruct x as [[n d]| | |]; try done.
  unfold Float.div_nat, Qdiv, Qmult, Qinv. cbn.
  change (Z.of_nat 1) with 1. cbn. f_equal. f_equal; [lia|by rewrite Pos.mul_1_r].
Qed.

Lemma mean_of_one x : Np.mean [x] = x.
Proof.
  unfold Np.mean, Float.sum. cbn [foldr length]. by rewrite add_zero, div_one.
Qed.


Lemma min2_cases m y : Float.min2 m y = m ∨ Float.min2 m y = y.
Proof. unfold Float.min2. destruct (Float.ltb y m); auto. Qed.

Lemma max2_cases m y : Float.max2 m y = m ∨ Float.max2 m y = y.
Proof. unfold Float.max2. destruct (Float.ltb m y); auto. Qed.



Lemma foldl_min2_elem x l : foldl Float.min2 x l ∈ x :: l.
Proof.
  revert x. induction l as [|y l IH]; intros x; simpl; [left|].
  specialize (IH (Float.min2 x y)). apply elem_of_cons in IH as [->|Hin].
  - destruct (min2_cases x y) as [-> | ->]; [left|right; left].
  - by do 2 right.
Qed.

Lemma foldl_max2_elem x l : foldl Float.max2 x l ∈ x :: l.
Proof.
  revert x. induction l as [|y l IH]; intros x; simpl; [left|].
  specialize (IH (Float.max2 x y)). apply elem_of_cons in IH as [->|Hin].
  - destruct (max2_cases x y) as [-> | ->]; [left|right; left].
  - by do 2 right.
Qed.



(** [np.min] and [np.max] give one of the values, NaN when one is NaN. *)
Lemma min_elem l : l ≠ [] → Np.min l ∈ l.
Proof.
  destruct l as [|x l]; [done|]. intros _. unfold Np.min.
  destruct (existsb Float.is_nan (x :: l)) eqn:E; [|apply foldl_min2_elem].
  apply existsb_exists in E as (y & Hin & Hy). destruct y; try done.
  by apply list_elem_of_In.
Qed.

Lemma max_elem l : l ≠ [] → Np.max l ∈ l.
Proof.
  destruct l as [|x l]; [done|]. intros _. unfold Np.max.
  destruct (existsb Float.is_nan (x :: l)) eqn:E; [|apply foldl_max2_elem].
  apply existsb_exists in E as (y & Hin & Hy). destruct y; try done.
  by apply list_elem_of_In.
Qed.


















(** * Further properties of the scripts *)

(** ** The repair of a history *)

Lemma no_descent_cons_inv x l : no_descent (x :: l) → no_descent l.
Proof. intros Hl i a b Ha Hb. by apply (Hl (S i)). Qed.

Lemma running_max_from_id best l :
  no_descent (best :: l) → running_max_from best l = l.
Proof.
  revert best. induction l as [|x l IH]; intros best Hl; [done|].
  cbn [running_max_from].
  assert (Hx : max_of best x = x).
  { unfold max_of. by rewrite (Hl 0%nat best x eq_refl eq_refl). }
  rewrite Hx. f_equal. apply IH. by eapply no_descent_cons_inv.
Qed.

Lemma running_max_id l : no_descent l → running_max l = l.
Proof.
  destruct l as [|x l]; [done|]. intros Hl. cbn [running_max].
  f_equal. by apply running_max_from_id.
Qed.

Lemma running_max_from_no_descent best l :
  no_descent (best :: running_max_from best l).
Proof.
  revert best. induction l as [|x l IH]; intros best i a b Ha Hb.
  - destruct i; simplify_eq/=.
  - destruct i as [|i]; cbn in Ha, Hb.
    + injection Ha as <-. injection Hb as <-.
      unfold max_of. destruct (Float.ltb x best) eqn:E; [apply ltb_irrefl|done].
    + by apply (IH (max_of best x) i).
Qed.

Lemma running_max_no_descent l : no_descent (running_max l).
Proof.
  destruct l as [|x l]; [by intros [|?] ?? ?|]. apply running_max_from_no_descent.
Qed.

Lemma running_max_from_raised best l i x y :
  l !! i = Some x → running_max_from best l !! i = Some y →
  y = x ∨ Float.ltb x y = true.
Proof.
  revert best i. induction l as [|a l IH]; intros best [|i] Hx Hy; try done.
  - cbn in Hx, Hy. injection Hx as ->. injection Hy as <-.
    unfold max_of. destruct (Float.ltb x best) eqn:E; auto.
  - cbn in Hx, Hy. by eapply IH.
Qed.

Lemma no_descent_nondecreasing l :
  no_nan l → no_descent l ↔ nondecreasing l.
Proof.
  intros Hnan. split; intros Hl i x y Hx Hy.
  - apply not_ltb_le; [| |by eapply Hl].
    + by eapply (proj1 (Forall_forall _ _) Hnan), list_elem_of_lookup_2.
    + by eapply (proj1 (Forall_forall _ _) Hnan), list_elem_of_lookup_2.
  - apply le_not_ltb. by eapply Hl.
Qed.

(** X1. The repair of the best values leaves a list unchanged exactly when
    no value is less than the one before it, which for values that are not
    NaN says that the list is non-decreasing; the repaired list then is
    non-decreasing. Repairing twice is repairing once; the repair keeps the
    length and the first value, and it keeps each value or replaces it by a
    larger one. A NaN is neither less nor more than a value:
    [1.0, NaN, 0.5] is left as it is. *)
Theorem ensure_monotonic_fixpoint (best_values : list float) :
  (ensure_monotonic best_values = best_values ↔ no_descent best_values) ∧
  (no_nan best_values →
     (no_descent best_values ↔ nondecreasing best_values) ∧
     nondecreasing (ensure_monotonic best_values)) ∧
  ensure_monotonic (ensure_monotonic best_values) = ensure_monotonic best_values ∧
  length (ensure_monotonic best_values) = length best_values ∧
  head (ensure_monotonic best_values) = head best_values ∧
  (∀ i x y, best_values !! i = Some x → ensure_monotonic best_values !! i = Some y →
     y = x ∨ Float.ltb x y = true) ∧
  ensure_monotonic [Fin 1; NaN; Fin (1 # 2)] = [Fin 1; NaN; Fin (1 # 2)].
Proof.
  rewrite !ensure_monotonic_running_max. split_and!.
  - split.
    + intros <-. apply running_max_no_descent.
    + apply running_max_id.
  - intros Hnan. split; [by apply no_descent_nondecreasing|].
    by apply running_max_nondecreasing.
  - apply running_max_id, running_max_no_descent.
  - apply length_running_max.
  - by destruct best_values.
  - intros i x y Hx Hy. destruct best_values as [|a l]; [done|].
    destruct i as [|i]; cbn in Hx, Hy.
    + injection Hx as ->. injection Hy as <-. by left.
    + by eapply running_max_from_raised.
  - done.
Qed.

Lemma ensure_monotonic_fixpoint_witness :
  no_nan [Fin 5; Fin 3; Fin 7] ∧
  ensure_monotonic [Fin 5; Fin 3; Fin 7] = [Fin 5; Fin 5; Fin 7] ∧
  nondecreasing (ensure_monotonic [Fin 5; Fin 3; Fin 7]).
Proof.
  assert (Hnan : no_nan [Fin 5; Fin 3; Fin 7]) by by repeat constructor.
  split; [done|]. split; [by vm_compute|].
  by apply (ensure_monotonic_fixpoint [Fin 5; Fin 3; Fin 7]).
Defined.

(** ** The two Open Race collectors *)

(** X2. The Open Race collector of [process_official_results.py] first
    tests ["results" in data and "competitions" in data["results"]]. When
    the test raises, the collector raises that exception. Else it is the
    collector of [process_results.py] followed by its aggregation: on the
    document itself when the test is false, and on [data["results"]], taken
    as the ["tournament_results"] of a document, when it is true. The test
    raises [TypeError] on a document whose ["results"] is null, and on a
    document that is a number, where the collector of [process_results.py]
    returns, or raises [AttributeError]. *)
Theorem official_open_race_composes `{StrParsers} (data : json) :
  match ProcessOfficialResults.results_has data "competitions" with
  | Ok true =>
      ∃ wrapper,
        Py.getitem data "results" = Ok wrapper ∧
        ProcessOfficialResults.collect_open_race_histories data
        = (histories ← ProcessResults.collect_open_race_histories
                          (JObj [("tournament_results", wrapper)]);
           ProcessResults.aggregate_open_race_histories histories)
  | Ok false =>
      ProcessOfficialResults.collect_open_race_histories data
      = (histories ← ProcessResults.collect_open_race_histories data;
         ProcessResults.aggregate_open_race_histories histories)
  | Raise e => ProcessOfficialResults.collect_open_race_histories data = Raise e
  end ∧
  ProcessOfficialResults.collect_open_race_histories doc_null_results
  = Raise TypeError ∧
  (∃ histories,
     ProcessResults.collect_open_race_histories doc_null_results = Ok histories ∧
     ProcessResults.aggregate_open_race_histories histories
     = Ok {["A" := {| steps := [0]; values := [Fin 1] |}]}) ∧
  ProcessOfficialResults.collect_open_race_histories (JNum (Fin 5)) = Raise TypeError ∧
  ProcessResults.collect_open_race_histories (JNum (Fin 5)) = Raise AttributeError.
Proof.
  split; [|split_and!; [done| |done|done]].
  2:{ eexists. split; [reflexivity|]. by vm_compute. }
  unfold ProcessOfficialResults.collect_open_race_histories,
    ProcessResults.collect_open_race_histories,
    ProcessResults.aggregate_open_race_histories.
  destruct (ProcessOfficialResults.results_has data "competitions")
    as [in_results|e] eqn:Hres; [|done].
  cbn [mbind result_bind]. destruct in_results.
  - unfold ProcessOfficialResults.results_has in Hres.
    apply bind_Ok in Hres as (b & Hb & Hres). destruct b; [|done].
    cbn [ProcessOfficialResults.and_then] in Hres.
    apply bind_Ok in Hres as (wrapper & Hw & _).
    exists wrapper. split; [done|]. rewrite Hw. cbn.
    destruct (Py.get wrapper "competitions" (JArr [])) as [competitions|e]; [|done].
    cbn. destruct (Py.truthy competitions); [|done]. cbn.
    destruct (Py.iter competitions) as [comps|e]; [|done]. cbn.
    by destruct (collect_runs comps).
  - destruct (Py.get data "competitions" JNull) as [c|e]; [|done]. cbn.
    destruct (if Py.is_list c then Ok data else Py.get data "tournament_results" (JObj []))
      as [tournament_results|e]; [|done].
    cbn.
    destruct (Py.get tournament_results "competitions" (JArr [])) as [competitions|e];
      [|done].
    cbn. destruct (Py.truthy competitions); [|done]. cbn.
    destruct (Py.iter competitions) as [comps|e]; [|done]. cbn.
    by destruct (collect_runs comps).
Qed.

(** ** The two Hide-the-Label collectors *)

(** X3. On a document that is not of the pre-aggregated shape, and that
    either has a non-empty ["all_tournament_results"] or has none of the
    wrappers (no ["all_tournament_results"], no ["results"], no or an empty
    ["tournament_results"]), the summary of [process_official_results.py]
    is the summary of the values that [collect_hide_label_steps] of
    [process_results.py] pools; both raise the same exception otherwise. *)
Theorem hide_label_collectors_agree `{StrParsers} (kvs : list (string * json)) :
  analysis_shape (JObj kvs) = false →
  match Py.assoc "all_tournament_results" kvs with
  | Some tournaments => Py.truthy tournaments = true
  | None =>
      Py.assoc "results" kvs = None ∧
      Py.truthy (default (JArr []) (Py.assoc "tournament_results" kvs)) = false
  end →
  ProcessOfficialResults.collect_hide_label_stats (JObj kvs)
  = (steps_by_opt ← ProcessResults.collect_hide_label_steps (JObj kvs);
     Ok (ProcessOfficialResults.summarize steps_by_opt)).
Proof.
  intros Hshape Hkeys.
  unfold ProcessOfficialResults.collect_hide_label_stats,
    ProcessOfficialResults.collect_steps, ProcessResults.collect_hide_label_steps.
  cbn [Py.get Py.contains mbind result_bind].
  assert (Hfirst : ProcessOfficialResults.and_then
            (Py.eq_str (from_option id JNull (Py.assoc "type" kvs)) "analysis")
            (Ok (bool_decide (is_Some (Py.assoc "items" kvs)))) = Ok false).
  { unfold analysis_shape in Hshape. unfold Py.eq_str.
    destruct (Py.assoc "type" kvs) as [ty|]; cbn in *.
    - destruct (Py.is_str "analysis" ty); [|done]. cbn in *. by rewrite Hshape.
    - done. }
  rewrite Hfirst. cbn [mbind result_bind].
  destruct (Py.assoc "all_tournament_results" kvs) as [tournaments|] eqn:Eall.
  - rewrite bool_decide_eq_true_2 by eauto.
    cbn [Py.getitem]. rewrite Eall. cbn. by rewrite Hkeys.
  - destruct Hkeys as [Hres Htr].
    rewrite bool_decide_eq_false_2 by (by intros [??]).
    unfold ProcessOfficialResults.results_has.
    cbn [Py.contains mbind result_bind]. rewrite Hres.
    rewrite bool_decide_eq_false_2 by (by intros [??]).
    cbn [ProcessOfficialResults.and_then mbind result_bind].
    unfold ProcessOfficialResults.pool_standard.
    cbn [Py.get mbind result_bind].
    destruct (Py.assoc "tournament_results" kvs) as [t|]; cbn in Htr |- *.
    + by rewrite Htr.
    + done.
Qed.

Lemma hide_label_collectors_agree_witness :
  @ProcessOfficialResults.collect_hide_label_stats no_numeric_strings
    (JObj doc_all_tournaments)
  = (steps_by_opt ← @ProcessResults.collect_hide_label_steps no_numeric_strings
                       (JObj doc_all_tournaments);
     Ok (ProcessOfficialResults.summarize steps_by_opt)).
Proof.
  exact (@hide_label_collectors_agree no_numeric_strings doc_all_tournaments
           eq_refl eq_refl).
Defined.

(** ** Where the loops raise *)

Lemma for_each_Raise {A S} (l : list A) (body : A → S → result S) s e :
  for_each l body s = Raise e → ∃ x s1, x ∈ l ∧ body x s1 = Raise e.
Proof.
  revert s. induction l as [|x l IH]; intros s Hrun; [done|].
  cbn [for_each] in Hrun. destruct (body x s) as [s1|e1] eqn:E.
  - cbn in Hrun. destruct (IH _ Hrun) as (y & s2 & Hin & Hy).
    exists y, s2. split; [by right|done].
  - cbn in Hrun. injection Hrun as ->. exists x, s. split; [left|done].
Qed.

Lemma for_items_Raise {A B} (f : A → result (option B)) (d : gmap string A) e :
  for_items f d = Raise e → ∃ k a, d !! k = Some a ∧ f a = Raise e.
Proof.
  unfold for_items. intros Hrun.
  apply for_each_Raise in Hrun as ([k a] & out & Hin & Hbody).
  apply elem_of_map_to_list in Hin. exists k, a. split; [done|].
  cbn in Hbody. destruct (f a) as [r|e1]; [done|]. cbn in Hbody. congruence.
Qed.

Lemma for_items_Ok_iff {A B} (f : A → result (option B)) (d : gmap string A) :
  (∃ out, for_items f d = Ok out) ↔ ∀ k a, d !! k = Some a → ∃ r, f a = Ok r.
Proof.
  split.
  - intros [out Hout] k a Hk. pose proof (for_items_Ok _ _ _ Hout k) as Hspec.
    rewrite Hk in Hspec. destruct Hspec as (r & Hr & _). eauto.
  - apply for_items_total.
Qed.

(** ** The runs the collectors store *)

Section collected.
Context `{StrParsers}.

Lemma read_record_length record acc acc' :
  read_record record acc = Ok acc' →
  length acc.1 = length acc.2 → length acc'.1 = length acc'.2.
Proof.
  unfold read_record. intros Hrun Hlen.
  apply bind_Ok in Hrun as (step & _ & Hrun).
  apply bind_Ok in Hrun as (best_value & _ & Hrun).
  destruct (negb (Py.is_none step) && negb (Py.is_none best_value)).
  - apply bind_Ok in Hrun as (s & _ & Hrun).
    apply bind_Ok in Hrun as (v & _ & [= <-]). cbn.
    rewrite !length_app. cbn. lia.
  - by injection Hrun as <-.
Qed.

Lemma read_history_length result_ r :
  read_history result_ = Ok r → length r.1 = length r.2.
Proof.
  unfold read_history. intros Hrun.
  apply bind_Ok in Hrun as (history & _ & Hrun).
  apply bind_Ok in Hrun as (records & _ & Hrun).
  apply (for_each_invariant (λ acc : run, length acc.1 = length acc.2)) in Hrun;
    [done| |done].
  intros record acc acc' _ Hacc Hstep. by eapply read_record_length.
Qed.

Lemma read_trials_length competitions trials :
  read_trials competitions = Ok trials →
  Forall (λ t : trial, length t.2.1 = length t.2.2) trials.
Proof.
  unfold read_trials. intros Hrun.
  apply (for_each_invariant
           (Forall (λ t : trial, length t.2.1 = length t.2.2))) in Hrun;
    [done| |by constructor].
  intros competition acc acc' _ Hacc Hstep.
  apply bind_Ok in Hstep as (optimizer_results & _ & Hstep).
  apply bind_Ok in Hstep as (items & _ & Hstep).
  apply (for_each_invariant
           (Forall (λ t : trial, length t.2.1 = length t.2.2))) in Hstep;
    [done| |done].
  intros [name result_] acc1 acc2 _ Hacc1 Hitem.
  apply bind_Ok in Hitem as (r & Hr & [= <-]).
  apply Forall_app. split; [done|]. constructor; [|constructor].
  cbn. by eapply read_history_length.
Qed.

Lemma runs_of_collected name trials :
  Forall (λ t : trial, length t.2.1 = length t.2.2) trials →
  Forall collected_run (runs_of name trials).
Proof.
  intros Hlen. unfold runs_of. apply Forall_fmap, Forall_forall.
  intros [name' [step_indices best_values]] Hin.
  apply list_elem_of_filter in Hin as [[_ Hne] Hin]. cbn in Hne.
  eapply Forall_forall in Hlen; [|done]. cbn in Hlen. cbn -[sort_and_repair].
  split_and!.
  - by apply sort_and_repair_steps_nonempty.
  - unfold sort_and_repair. cbn [fst snd].
    rewrite ensure_monotonic_running_max, length_running_max.
    by rewrite !length_take_at_argsort.
  - apply take_at_argsort_Sorted.
Qed.

Lemma collect_runs_collected competitions histories name runs :
  collect_runs competitions = Ok histories →
  histories !! name = Some runs →
  runs ≠ [] ∧ Forall collected_run runs.
Proof.
  rewrite collect_runs_read_trials. intros Hrun Hname.
  apply bind_Ok in Hrun as (trials & Htrials & [= <-]).
  rewrite record_all_lookup in Hname.
  pose proof (runs_of_collected name trials (read_trials_length _ _ Htrials)) as Hall.
  destruct (runs_of name trials) as [|r rs]; [done|].
  injection Hname as <-. done.
Qed.

Lemma collect_open_race_histories_collected data histories name runs :
  ProcessResults.collect_open_race_histories data = Ok histories →
  histories !! name = Some runs →
  runs ≠ [] ∧ Forall collected_run runs.
Proof.
  unfold ProcessResults.collect_open_race_histories. intros Hrun Hname.
  apply bind_Ok in Hrun as (c & _ & Hrun).
  apply bind_Ok in Hrun as (tournament_results & _ & Hrun).
  apply bind_Ok in Hrun as (competitions & _ & Hrun).
  destruct (negb (Py.truthy competitions)).
  - injection Hrun as <-. by rewrite lookup_empty in Hname.
  - apply bind_Ok in Hrun as (comps & _ & Hrun).
    by eapply collect_runs_collected.
Qed.
End collected.

(** ** Where the aggregation raises *)

Lemma append_at_Raise s v (m : gmap Z (list float)) e :
  append_at s v m = Raise e → e = KeyError.
Proof. unfold append_at. destruct (m !! s); [done|]. by intros [= <-]. Qed.

Lemma add_run_Raise max_step r (m : gmap Z (list float)) e :
  length r.1 = length r.2 → add_run max_step r m = Raise e → e = KeyError.
Proof.
  unfold add_run. intros Hlen Hrun.
  destruct (for_each (zip r.1 r.2) (λ '(step, value) m, append_at step value m) m)
    as [m1|e1] eqn:E1.
  - cbn in Hrun. destruct r as [[|s0 run_steps] run_values]; [done|].
    cbn [fst snd] in *. destruct (last run_values) as [last_value|] eqn:El.
    + apply for_each_Raise in Hrun as (s & m2 & _ & Hs).
      by eapply append_at_Raise.
    + apply last_None in El. by subst run_values.
  - cbn in Hrun. injection Hrun as ->.
    apply for_each_Raise in E1 as ([s v] & m2 & _ & Hs).
    by eapply append_at_Raise.
Qed.

Lemma aggregate_runs_Raise runs e :
  Forall collected_run runs → aggregate_runs runs = Raise e → e = KeyError.
Proof.
  intros Hall Hrun. destruct runs as [|r0 runs]; [done|].
  unfold aggregate_runs in Hrun.
  destruct (fill_step_to_values (r0 :: runs)) as [m|e1] eqn:E; [done|].
  cbn in Hrun. injection Hrun as ->. unfold fill_step_to_values in E.
  apply for_each_Raise in E as (r & m1 & Hin & Hr).
  eapply Forall_forall in Hall; [|done]. destruct Hall as (_ & Hlen & _).
  by eapply add_run_Raise.
Qed.

Lemma add_run_steps max_step r (m m' : gmap Z (list float)) s :
  length r.1 = length r.2 → add_run max_step r m = Ok m' → s ∈ r.1 →
  is_Some (m !! s).
Proof.
  unfold add_run. intros Hlen Hrun Hs.
  apply bind_Ok in Hrun as (m1 & Hloop & _).
  apply list_elem_of_lookup in Hs as [i Hi].
  destruct (lookup_lt_is_Some_2 r.2 i) as [v Hv].
  { rewrite <- Hlen. by eapply lookup_lt_Some. }
  apply (append_loop_dom _ _ _ (s, v) Hloop).
  apply list_elem_of_lookup. exists i. apply lookup_zip_with_Some. eauto.
Qed.

(** The runs of one optimizer are aggregated without an exception exactly
    when none of their steps is negative. *)
Lemma aggregate_runs_Ok_iff runs :
  Forall collected_run runs →
  (∃ o, aggregate_runs runs = Ok o) ↔ ∀ r s, r ∈ runs → s ∈ r.1 → 0 ≤ s.
Proof.
  intros Hall. split.
  - intros [o Ho] r s Hr Hs. destruct runs as [|r0 runs]; [by apply elem_of_nil in Hr|].
    unfold aggregate_runs in Ho. apply bind_Ok in Ho as (m & Hfill & _).
    unfold fill_step_to_values in Hfill.
    destruct (add_runs_elem _ _ _ _ _ Hfill Hr) as (m1 & m2 & Hadd & Hdom).
    eapply Forall_forall in Hall; [|exact Hr]. destruct Hall as (_ & Hlen & _).
    pose proof (add_run_steps _ _ _ _ s Hlen Hadd Hs) as Hsome.
    apply Hdom in Hsome. rewrite init_step_to_values_lookup in Hsome.
    case_bool_decide; [lia|by destruct Hsome].
  - intros Hpos. apply aggregate_runs_total. apply Forall_forall. intros r Hr.
    eapply Forall_forall in Hall; [|exact Hr]. destruct Hall as (_ & Hlen & Hsorted).
    split_and!; [done..|]. apply Forall_forall. intros s Hs. by eapply Hpos.
Qed.

(** X4. The histories that [collect_open_race_histories] returns are
    aggregated without an exception exactly when no recorded step is
    negative; the only exception the aggregation raises on them is
    [KeyError]. *)
Theorem open_race_aggregation_errors `{StrParsers} (data : json)
    (histories : gmap string (list run)) :
  ProcessResults.collect_open_race_histories data = Ok histories →
  (∀ e, ProcessResults.aggregate_open_race_histories histories = Raise e →
        e = KeyError) ∧
  ((∃ out, ProcessResults.aggregate_open_race_histories histories = Ok out) ↔
   ∀ name runs r s, histories !! name = Some runs → r ∈ runs → s ∈ r.1 → 0 ≤ s).
Proof.
  intros Hcollect. unfold ProcessResults.aggregate_open_race_histories. split.
  - intros e Hrun. apply for_items_Raise in Hrun as (name & runs & Hname & Hruns).
    destruct (collect_open_race_histories_collected _ _ _ _ Hcollect Hname) as [_ Hall].
    by eapply aggregate_runs_Raise.
  - rewrite for_items_Ok_iff. split.
    + intros Hok name runs r s Hname Hr Hs.
      destruct (collect_open_race_histories_collected _ _ _ _ Hcollect Hname) as [_ Hall].
      eapply (proj1 (aggregate_runs_Ok_iff runs Hall)); eauto.
    + intros Hpos name runs Hname.
      destruct (collect_open_race_histories_collected _ _ _ _ Hcollect Hname) as [_ Hall].
      apply (proj2 (aggregate_runs_Ok_iff runs Hall)). eauto.
Qed.

Lemma open_race_aggregation_errors_witness :
  ∃ histories,
    @ProcessResults.collect_open_race_histories no_numeric_strings doc_negative_step
    = Ok histories ∧
    ∀ e, ProcessResults.aggregate_open_race_histories histories = Raise e →
         e = KeyError.
Proof.
  destruct (@ProcessResults.collect_open_race_histories no_numeric_strings
              doc_negative_step) as [histories|e] eqn:E; [|by vm_compute in E].
  exists histories. split; [done|].
  exact (proj1 (@open_race_aggregation_errors no_numeric_strings _ _ E)).
Defined.

(** ** The trajectory of a single complete run *)

Lemma aggregate_complete_run (run_values : list float) :
  run_values ≠ [] →
  aggregate_runs [(seqZ 0 (Z.of_nat (length run_values)), run_values)]
  = Ok (Some {| steps := seqZ 0 (Z.of_nat (length run_values));
                values := run_values |}).
Proof.
  intros Hne. set (n := length run_values).
  assert (Hn : (0 < n)%nat) by (subst n; destruct run_values; [done|cbn; lia]).
  pose (r := (seqZ 0 (Z.of_nat n), run_values) : run).
  change (aggregate_runs [r]
          = Ok (Some {| steps := seqZ 0 (Z.of_nat n); values := run_values |})).
  destruct (aggregate_runs_total [r]) as [o Ho].
  { constructor; [|constructor]. split_and!.
    - cbn. by rewrite length_seqZ, Nat2Z.id.
    - apply Sorted_seqZ.
    - apply Forall_forall. intros s Hs. apply elem_of_seqZ in Hs. lia. }
  rewrite Ho. pose proof (aggregate_runs_Ok _ _ Ho) as ->. do 2 f_equal.
  assert (Hmax : max_step_of [r] = Z.of_nat n - 1) by (cbn; by apply last_step_seqZ).
  rewrite Hmax. replace (Z.of_nat n - 1 + 1) with (Z.of_nat n) by lia.
  f_equal. apply list_eq. intros i. rewrite list_lookup_fmap.
  destruct (decide (i < n)%nat) as [Hi|Hi].
  - rewrite lookup_seqZ_lt by lia. cbn [fmap option_fmap option_map].
    destruct (lookup_lt_is_Some_2 run_values i Hi) as [v Hv]. rewrite Hv. f_equal.
    unfold samples. rewrite Hmax. cbn [fmap list_fmap concat]. rewrite app_nil_r.
    unfold contribution, observed, filled. subst r. cbn [fst snd].
    unfold n in *. rewrite observed_seqZ, bool_decide_eq_true_2 by lia.
    replace (Z.to_nat (0 + Z.of_nat i - 0)) with i by lia. rewrite Hv.
    rewrite last_step_seqZ by exact Hn.
    destruct (seqZ 0 (Z.of_nat (length run_values)));
      [by rewrite app_nil_r; apply mean_of_one|].
    destruct (last run_values); cbn; [|apply mean_of_one].
    rewrite bool_decide_eq_false_2 by lia. apply mean_of_one.
  - rewrite lookup_seqZ_ge by lia. cbn. symmetry. apply lookup_ge_None. fold n. lia.
Qed.

(** X5. The mean trajectory of an optimizer with a single run that has one
    observation at each of the steps [0 .. n-1] is that run: the same steps
    and the same values. *)
Theorem single_run_round_trip (name : string) (run_values : list float) :
  run_values ≠ [] →
  ProcessResults.aggregate_open_race_histories
    {[name := [(seqZ 0 (Z.of_nat (length run_values)), run_values)]]}
  = Ok {[name := {| steps := seqZ 0 (Z.of_nat (length run_values));
                    values := run_values |}]}.
Proof.
  intros Hne. unfold ProcessResults.aggregate_open_race_histories, for_items.
  rewrite map_to_list_singleton. cbn [for_each].
  rewrite (aggregate_complete_run _ Hne). cbn. by rewrite insert_empty.
Qed.

Lemma single_run_round_trip_witness :
  ProcessResults.aggregate_open_race_histories {["A" := [([0; 1; 2], [Fin 1; Fin 1; Fin 4])]]}
  = Ok {["A" := {| steps := [0; 1; 2]; values := [Fin 1; Fin 1; Fin 4] |}]}.
Proof. exact (single_run_round_trip "A" [Fin 1; Fin 1; Fin 4] ltac:(done)). Defined.

(** ** Tournaments in generate_data.py *)

Lemma summaries_onto {A B} (f : A → result (option B)) (l : list (string * A))
    (acc1 acc2 : gmap string B) :
  for_each l (λ '(k, a) out, r ← f a; Ok (from_option (λ b, <[k := b]> out) out r))
    (acc1 ∪ acc2)
  = (own ← for_each l
        (λ '(k, a) out, r ← f a; Ok (from_option (λ b, <[k := b]> out) out r)) acc1;
     Ok (own ∪ acc2)).
Proof.
  revert acc1. induction l as [|[k a] l IH]; intros acc1; [done|].
  cbn [for_each]. destruct (f a) as [[b|]|e]; cbn; [| |done].
  - rewrite <- IH. by rewrite insert_union_l.
  - apply IH.
Qed.

Lemma process_tournament_onto tournament (results : gmap string OptimizerSummary) :
  GenerateData.process_tournament tournament results
  = (own ← GenerateData.process_tournament tournament ∅; Ok (own ∪ results)).
Proof.
  unfold GenerateData.process_tournament.
  destruct (Py.get tournament "optimizer_names" (JArr [])) as [names|e]; [|done]. cbn.
  destruct (Py.get tournament "competitions" (JArr [])) as [competitions|e]; [|done].
  cbn. destruct (Py.iter competitions) as [comps|e]; [|done]. cbn.
  match goal with
  | |- context [for_each comps ?body ∅] =>
      destruct (for_each comps body ∅) as [optimizer_steps|e]; [|done]
  end.
  cbn. rewrite <- (left_id_L ∅ (∪) results) at 1.
  apply (summaries_onto GenerateData.summary_of).
Qed.

(** X6. [process_hide_label_file] computes the statistics of each
    tournament on its own and stores them over those of the earlier
    tournaments: the result for the tournaments [ts ++ [t]] is the result
    for [t] alone, completed by the entries that the result for [ts] has
    for the other optimizers. The values of different tournaments are never
    pooled. *)
Theorem later_tournament_overrides (tournaments : list json) (tournament : json) :
  GenerateData.process_hide_label_file
    (JObj [("tournament_results", JArr (tournaments ++ [tournament]))])
  = (earlier ← GenerateData.process_hide_label_file
                  (JObj [("tournament_results", JArr tournaments)]);
     own ← GenerateData.process_hide_label_file
              (JObj [("tournament_results", JArr [tournament])]);
     Ok (own ∪ earlier)) ∧
  ∀ (own earlier : gmap string OptimizerSummary) name,
    (own ∪ earlier) !! name = from_option Some (earlier !! name) (own !! name).
Proof.
  split.
  - unfold GenerateData.process_hide_label_file.
    cbn [Py.contains Py.getitem Py.assoc Py.iter String.eqb Ascii.eqb Bool.eqb
         mbind result_bind bool_decide decide_rel].
    cbn. rewrite for_each_app.
    destruct (for_each tournaments GenerateData.process_tournament ∅)
      as [earlier|e]; [|done].
    cbn. rewrite process_tournament_onto.
    by destruct (GenerateData.process_tournament tournament ∅).
  - intros own earlier name. rewrite lookup_union.
    destruct (own !! name), (earlier !! name); done.
Qed.

(** ** Pooling over the files of a directory *)

Lemma extend_loop_lookup {V} (l : list (string * list V)) (d : gmap string (list V)) k :
  NoDup l.*1 →
  foldl (λ d '(k, vs), <[k := default [] (d !! k) ++ vs]> d) d l !! k
  = match (list_to_map l : gmap string (list V)) !! k with
    | Some vs => Some (default [] (d !! k) ++ vs)
    | None => d !! k
    end.
Proof.
  revert d. induction l as [|[k0 vs0] l IH]; intros d Hnd; [done|].
  rewrite fmap_cons in Hnd. apply NoDup_cons in Hnd as [Hk0 Hnd].
  cbn [foldl]. rewrite (IH _ Hnd), list_to_map_cons. cbn [fst snd] in *.
  destruct (decide (k0 = k)) as [->|Hne].
  - rewrite (not_elem_of_list_to_map_1 (M := gmap string) l k Hk0).
    by rewrite !lookup_insert_eq.
  - by rewrite !lookup_insert_ne by done.
Qed.

Lemma extend_all_lookup {V} (new d : gmap string (list V)) k :
  extend_all new d !! k
  = match new !! k with
    | Some vs => Some (default [] (d !! k) ++ vs)
    | None => d !! k
    end.
Proof.
  unfold extend_all. rewrite extend_loop_lookup by apply NoDup_fst_map_to_list.
  by rewrite list_to_map_to_list.
Qed.

Lemma extend_all_empty {V} (d : gmap string (list V)) : extend_all ∅ d = d.
Proof. unfold extend_all. by rewrite map_to_list_empty. Qed.

Lemma extend_all_default {V} (new d : gmap string (list V)) k :
  default [] (extend_all new d !! k) = default [] (d !! k) ++ default [] (new !! k).
Proof.
  rewrite extend_all_lookup. destruct (new !! k); cbn; [done|].
  by rewrite app_nil_r.
Qed.

Lemma pool_loop_default {V F} (add : gmap string (list V) → F → gmap string (list V))
    (contribution : F → gmap string (list V)) (files : list F)
    (acc : gmap string (list V)) name :
  (∀ acc f, add acc f = extend_all (contribution f) acc) →
  default [] (foldl add acc files !! name)
  = default [] (acc !! name) ++ pooled name (contribution <$> files).
Proof.
  intros Hadd. revert acc. induction files as [|f files IH]; intros acc.
  - cbn. by rewrite app_nil_r.
  - cbn [foldl]. rewrite IH, Hadd, extend_all_default. unfold pooled.
    rewrite !fmap_cons. cbn [concat]. by rewrite app_assoc.
Qed.

Lemma pool_loop_dom {V F} (add : gmap string (list V) → F → gmap string (list V))
    (contribution : F → gmap string (list V)) (files : list F)
    (acc : gmap string (list V)) name vs :
  (∀ acc f, add acc f = extend_all (contribution f) acc) →
  foldl add acc files !! name = Some vs →
  vs = default [] (acc !! name) ++ pooled name (contribution <$> files).
Proof.
  intros Hadd Hname. rewrite <- (pool_loop_default add contribution) by done.
  by rewrite Hname.
Qed.

Section directories.
Context `{StrParsers} `{SquareRoot}.

Lemma add_hide_label_file_extend acc json_file :
  ProcessResults.add_hide_label_file acc json_file
  = extend_all (file_steps json_file) acc.
Proof.
  unfold ProcessResults.add_hide_label_file, file_steps.
  destruct (file_content json_file) as [data| | |];
    [|by rewrite extend_all_empty..].
  destruct (ProcessResults.collect_hide_label_steps data);
    [done|by rewrite extend_all_empty].
Qed.

Lemma add_open_race_file_extend acc json_file :
  ProcessResults.add_open_race_file acc json_file
  = extend_all (file_histories json_file) acc.
Proof.
  unfold ProcessResults.add_open_race_file, file_histories.
  destruct (file_content json_file) as [data| | |];
    [|by rewrite extend_all_empty..].
  destruct (ProcessResults.collect_open_race_histories data);
    [done|by rewrite extend_all_empty].
Qed.

Lemma failing_file_steps json_file :
  fails ProcessResults.collect_hide_label_steps json_file →
  file_steps json_file = ∅.
Proof.
  unfold fails, file_steps. destruct (file_content json_file); [|done..].
  by intros [e ->].
Qed.

Lemma failing_file_histories json_file :
  fails ProcessResults.collect_open_race_histories json_file →
  file_histories json_file = ∅.
Proof.
  unfold fails, file_histories. destruct (file_content json_file); [|done..].
  by intros [e ->].
Qed.

Lemma statistics_of_default (o : option (list float)) :
  o ≫= ProcessResults.statistics_of = ProcessResults.statistics_of (default [] o).
Proof. by destruct o. Qed.

(** X7. [process_hide_label_directory] gives an optimizer the statistics
    of the values that [collect_hide_label_steps] pools for it from the
    files of the directory, file after file, and no entry when there is
    no such value; [n_trials] is their number. A file that cannot be
    loaded, or on whose document the collector raises, is as if it were
    not in the directory. *)
Theorem hide_label_directory_pools (results_dir : list JsonFile) (name : string) :
  ProcessResults.process_hide_label_directory results_dir !! name
  = ProcessResults.statistics_of (pooled name (file_steps <$> results_dir)) ∧
  (∀ stats,
     ProcessResults.process_hide_label_directory results_dir !! name = Some stats →
     ProcessResults.n_trials stats
     = length (pooled name (file_steps <$> results_dir))) ∧
  ∀ before json_file after,
    results_dir = before ++ json_file :: after →
    fails ProcessResults.collect_hide_label_steps json_file →
    ProcessResults.process_hide_label_directory results_dir
    = ProcessResults.process_hide_label_directory (before ++ after).
Proof.
  assert (Hlookup : ∀ files,
    ProcessResults.process_hide_label_directory files !! name
    = ProcessResults.statistics_of (pooled name (file_steps <$> files))).
  { intros files. unfold ProcessResults.process_hide_label_directory.
    rewrite lookup_omap, statistics_of_default.
    rewrite (pool_loop_default _ file_steps) by apply add_hide_label_file_extend.
    by rewrite lookup_empty. }
  split_and!.
  - apply Hlookup.
  - intros stats. rewrite Hlookup.
    destruct (pooled name (file_steps <$> results_dir)); [done|].
    by intros [= <-].
  - intros before json_file after -> Hfails.
    unfold ProcessResults.process_hide_label_directory. f_equal.
    rewrite !foldl_app. cbn [foldl]. f_equal.
    rewrite add_hide_label_file_extend, failing_file_steps by done.
    apply extend_all_empty.
Qed.
End directories.

Lemma hide_label_directory_pools_witness :
  @ProcessResults.process_hide_label_directory no_numeric_strings rational_sqrt
    [htl_file_a; htl_file_bad; htl_file_a]
  = @ProcessResults.process_hide_label_directory no_numeric_strings rational_sqrt
      ([htl_file_a] ++ [htl_file_a]).
Proof.
  exact (proj2 (proj2 (@hide_label_directory_pools no_numeric_strings rational_sqrt
           [htl_file_a; htl_file_bad; htl_file_a] "A"))
         [htl_file_a] htl_file_bad [htl_file_a] eq_refl I).
Defined.

(** ** The directories of Open Race results *)

Lemma pooled_elem {V} name (ds : list (gmap string (list V))) v :
  v ∈ pooled name ds ↔ ∃ d vs, d ∈ ds ∧ d !! name = Some vs ∧ v ∈ vs.
Proof.
  unfold pooled. induction ds as [|d0 ds IH].
  - cbn. split; [by intros ?%elem_of_nil|]. by intros (d & vs & ?%elem_of_nil & _).
  - rewrite fmap_cons. cbn [concat]. rewrite elem_of_app, IH. split.
    + intros [Hv|(d & vs & Hd & Hname & Hv)].
      * destruct (d0 !! name) as [vs|] eqn:E; [|by apply elem_of_nil in Hv].
        exists d0, vs. split_and!; [left|done..].
      * exists d, vs. split_and!; [by right|done..].
    + intros (d & vs & Hd & Hname & Hv). apply elem_of_cons in Hd as [->|Hd].
      * left. by rewrite Hname.
      * right. by exists d, vs.
Qed.

Section open_race_directories.
Context `{StrParsers}.

Lemma file_histories_collected json_file name runs :
  file_histories json_file !! name = Some runs → Forall collected_run runs.
Proof.
  unfold file_histories. destruct (file_content json_file) as [data| | |]; [|done..].
  destruct (ProcessResults.collect_open_race_histories data) as [histories|e] eqn:E;
    [|done].
  intros Hname. by eapply collect_open_race_histories_collected.
Qed.

(** The histories pooled from some files, from [all_histories] on. *)
Lemma pooled_histories_lookup (json_files : list JsonFile)
    (all_histories : gmap string (list run)) name :
  default [] (foldl ProcessResults.add_open_race_file all_histories json_files !! name)
  = default [] (all_histories !! name)
    ++ pooled name (file_histories <$> json_files).
Proof. apply pool_loop_default, add_open_race_file_extend. Qed.

Lemma pooled_histories_collected (json_files : list JsonFile) name :
  Forall collected_run (pooled name (file_histories <$> json_files)).
Proof.
  apply Forall_forall. intros r Hr.
  apply pooled_elem in Hr as (d & runs & Hd & Hname & Hr).
  apply list_elem_of_fmap in Hd as (json_file & -> & _).
  apply file_histories_collected in Hname. by eapply Forall_forall in Hname.
Qed.

Lemma aggregate_pooled_Raise (json_files : list JsonFile) e :
  ProcessResults.aggregate_open_race_histories
    (foldl ProcessResults.add_open_race_file ∅ json_files) = Raise e →
  e = KeyError.
Proof.
  unfold ProcessResults.aggregate_open_race_histories. intros Hrun.
  apply for_items_Raise in Hrun as (name & runs & Hname & Hruns).
  apply (aggregate_runs_Raise runs); [|done].
  pose proof (pooled_histories_lookup json_files ∅ name) as Hpool.
  rewrite Hname, lookup_empty in Hpool. cbn in Hpool. rewrite Hpool.
  apply pooled_histories_collected.
Qed.

Lemma aggregate_pooled_Ok_iff (json_files : list JsonFile) :
  (∃ out, ProcessResults.aggregate_open_race_histories
            (foldl ProcessResults.add_open_race_file ∅ json_files) = Ok out) ↔
  ∀ json_file name runs r s,
    json_file ∈ json_files → file_histories json_file !! name = Some runs →
    r ∈ runs → s ∈ r.1 → 0 ≤ s.
Proof.
  unfold ProcessResults.aggregate_open_race_histories. rewrite for_items_Ok_iff.
  split.
  - intros Hok json_file name runs r s Hfile Hname Hr Hs.
    assert (Hin : r ∈ pooled name (file_histories <$> json_files)).
    { apply pooled_elem. exists (file_histories json_file), runs.
      split_and!; [|done..]. apply list_elem_of_fmap. by exists json_file. }
    pose proof (pooled_histories_lookup json_files ∅ name) as Hpool.
    rewrite lookup_empty in Hpool. cbn in Hpool.
    destruct (foldl ProcessResults.add_open_race_file ∅ json_files !! name)
      as [all_runs|] eqn:E.
    + cbn in Hpool. subst all_runs.
      eapply (proj1 (aggregate_runs_Ok_iff _ (pooled_histories_collected _ name)));
        eauto.
    + cbn in Hpool. rewrite <- Hpool in Hin. by apply elem_of_nil in Hin.
  - intros Hpos name all_runs Hname.
    pose proof (pooled_histories_lookup json_files ∅ name) as Hpool.
    rewrite Hname, lookup_empty in Hpool. cbn in Hpool. subst all_runs.
    apply (aggregate_runs_Ok_iff _ (pooled_histories_collected _ name)).
    intros r s Hr Hs.
    apply pooled_elem in Hr as (d & runs & Hd & Hruns & Hr).
    apply list_elem_of_fmap in Hd as (json_file & -> & Hfile). eauto.
Qed.

(** X8. [process_open_race_directory] skips a file that cannot be loaded
    or on whose document the collector raises, as if the file were not in
    the directory. It still raises [KeyError], and no other exception:
    it returns exactly when no file that is read records a negative
    step. *)
Theorem open_race_directory_errors (results_dir : list JsonFile) :
  (∀ e, ProcessResults.process_open_race_directory results_dir = Raise e →
        e = KeyError) ∧
  ((∃ out, ProcessResults.process_open_race_directory results_dir = Ok out) ↔
   ∀ json_file name runs r s,
     json_file ∈ results_dir → file_histories json_file !! name = Some runs →
     r ∈ runs → s ∈ r.1 → 0 ≤ s) ∧
  ∀ before json_file after,
    results_dir = before ++ json_file :: after →
    fails ProcessResults.collect_open_race_histories json_file →
    ProcessResults.process_open_race_directory results_dir
    = ProcessResults.process_open_race_directory (before ++ after).
Proof.
  unfold ProcessResults.process_open_race_directory. split_and!.
  - apply aggregate_pooled_Raise.
  - apply aggregate_pooled_Ok_iff.
  - intros before json_file after -> Hfails. f_equal.
    rewrite !foldl_app. cbn [foldl]. f_equal.
    rewrite add_open_race_file_extend, failing_file_histories by done.
    apply extend_all_empty.
Qed.
End open_race_directories.

Lemma open_race_directory_errors_witness :
  @ProcessResults.process_open_race_directory no_numeric_strings
    [or_file_gap; or_file_negative] = Raise KeyError.
Proof.
  destruct (@ProcessResults.process_open_race_directory no_numeric_strings
              [or_file_gap; or_file_negative]) as [out|e] eqn:E;
    [by vm_compute in E|].
  f_equal.
  exact (proj1 (@open_race_directory_errors no_numeric_strings
                  [or_file_gap; or_file_negative]) e E).
Defined.

(** ** The Hide-the-Label summary of [main] *)

Lemma min_replicate k m : Np.min (replicate (S k) m) = m.
Proof.
  unfold Np.min. cbn [replicate].
  destruct (existsb Float.is_nan (m :: replicate k m)) eqn:E.
  - apply existsb_exists in E as (x & Hx & Hnan).
    apply list_elem_of_In in Hx. change (x ∈ replicate (S k) m) in Hx.
    apply elem_of_replicate in Hx as [-> _]. by destruct m.
  - induction k as [|k IH]; [done|]. cbn [replicate foldl].
    replace (Float.min2 m m) with m; [apply IH|].
    + cbn in E |- *. by destruct (Float.is_nan m).
    + unfold Float.min2. by destruct (Float.ltb m m).
Qed.

Lemma max_replicate k m : Np.max (replicate (S k) m) = m.
Proof.
  unfold Np.max. cbn [replicate].
  destruct (existsb Float.is_nan (m :: replicate k m)) eqn:E.
  - apply existsb_exists in E as (x & Hx & Hnan).
    apply list_elem_of_In in Hx. change (x ∈ replicate (S k) m) in Hx.
    apply elem_of_replicate in Hx as [-> _]. by destruct m.
  - induction k as [|k IH]; [done|]. cbn [replicate foldl].
    replace (Float.max2 m m) with m; [apply IH|].
    + cbn in E |- *. by destruct (Float.is_nan m).
    + unfold Float.max2. by destruct (Float.ltb m m).
Qed.

Section main.
Context `{StrParsers} `{SquareRoot}.

(** What [main] adds to [all_htl_steps] for one directory. *)
Lemma directory_steps_lookup name htl_dir :
  directory_steps name htl_dir
  = default [] (match htl_dir with
                | Some results_dir =>
                    ProcessResults.approximate_steps
                      <$> ProcessResults.process_hide_label_directory results_dir
                | None => ∅
                end !! name).
Proof.
  unfold directory_steps. destruct htl_dir as [results_dir|]; [|done].
  rewrite lookup_fmap. by destruct (_ !! name).
Qed.

Lemma directory_steps_elem name htl_dirs x :
  x ∈ concat (directory_steps name <$> htl_dirs) →
  ∃ results_dir stats,
    Some results_dir ∈ htl_dirs ∧
    ProcessResults.process_hide_label_directory results_dir !! name = Some stats ∧
    x = ProcessResults.mean_steps stats.
Proof.
  induction htl_dirs as [|d htl_dirs IH]; [by intros ?%elem_of_nil|].
  rewrite fmap_cons. cbn [concat]. intros [Hx|Hx]%elem_of_app.
  - unfold directory_steps in Hx. destruct d as [results_dir|];
      [|by apply elem_of_nil in Hx].
    destruct (ProcessResults.process_hide_label_directory results_dir !! name)
      as [stats|] eqn:E; [|by apply elem_of_nil in Hx].
    apply elem_of_replicate in Hx as [-> _].
    exists results_dir, stats. split_and!; [left|done..].
  - destruct (IH Hx) as (results_dir & stats & Hin & Hstats & ->).
    exists results_dir, stats. split_and!; [by right|done..].
Qed.

(** X9. The statistics that [main] writes to [hide_label_data.json] are
    those of copies of directory means: for an optimizer with [n] pooled
    values of mean [m] in a directory, [main] takes [max(1, n // 10)]
    copies of [m]. So [n_trials] counts the copies, and [min_steps] and
    [max_steps] are means of directories; with one directory, [min_steps]
    and [max_steps] both are its mean, whatever the spread of the pooled
    values. *)
Theorem main_hide_label_summary (htl_dirs or_dirs : list (option (list JsonFile)))
    (htl_summary : gmap string ProcessResults.DirectorySummary)
    (or_summary : gmap string OptimizerTrajectory) (name : string) :
  ProcessResults.main htl_dirs or_dirs = Ok (htl_summary, or_summary) →
  htl_summary !! name
  = ProcessResults.statistics_of (concat (directory_steps name <$> htl_dirs)) ∧
  (∀ stats, htl_summary !! name = Some stats →
     ProcessResults.n_trials stats
     = length (concat (directory_steps name <$> htl_dirs)) ∧
     (∃ results_dir s,
        Some results_dir ∈ htl_dirs ∧
        ProcessResults.process_hide_label_directory results_dir !! name = Some s ∧
        ProcessResults.min_steps stats = ProcessResults.mean_steps s) ∧
     (∃ results_dir s,
        Some results_dir ∈ htl_dirs ∧
        ProcessResults.process_hide_label_directory results_dir !! name = Some s ∧
        ProcessResults.max_steps stats = ProcessResults.mean_steps s)) ∧
  (∀ results_dir s,
     htl_dirs = [Some results_dir] →
     ProcessResults.process_hide_label_directory results_dir !! name = Some s →
     ∃ stats,
       htl_summary !! name = Some stats ∧
       ProcessResults.n_trials stats = Nat.max 1 (ProcessResults.n_trials s / 10) ∧
       ProcessResults.min_steps stats = ProcessResults.mean_steps s ∧
       ProcessResults.max_steps stats = ProcessResults.mean_steps s).
Proof.
  unfold ProcessResults.main. intros Hmain.
  apply bind_Ok in Hmain as (or_summary' & _ & [= <- _]).
  assert (Hlookup :
    omap ProcessResults.statistics_of
      (foldl (λ all_htl_steps htl_dir,
         match htl_dir with
         | Some results_dir =>
             extend_all (ProcessResults.approximate_steps
                           <$> ProcessResults.process_hide_label_directory results_dir)
               all_htl_steps
         | None => all_htl_steps
         end) ∅ htl_dirs) !! name
    = ProcessResults.statistics_of (concat (directory_steps name <$> htl_dirs))).
  { rewrite lookup_omap, statistics_of_default.
    rewrite (pool_loop_default _
               (λ htl_dir : option (list JsonFile),
                  match htl_dir with
                  | Some results_dir =>
                      ProcessResults.approximate_steps
                        <$> ProcessResults.process_hide_label_directory results_dir
                  | None => ∅
                  end)).
    2:{ intros acc [results_dir|]; [done|by rewrite extend_all_empty]. }
    rewrite lookup_empty. cbn [default app]. f_equal. unfold pooled.
    rewrite <- list_fmap_compose. f_equal. apply list_fmap_ext.
    intros i d _. cbn. by rewrite directory_steps_lookup. }
  split_and!.
  - exact Hlookup.
  - intros stats. rewrite Hlookup.
    destruct (concat (directory_steps name <$> htl_dirs)) as [|x l] eqn:E; [done|].
    intros [= <-]. cbn [ProcessResults.n_trials ProcessResults.min_steps
                        ProcessResults.max_steps].
    split_and!; [done| |].
    + apply directory_steps_elem. rewrite E.
      exact (min_elem (x :: l) ltac:(done)).
    + apply directory_steps_elem. rewrite E.
      exact (max_elem (x :: l) ltac:(done)).
  - intros results_dir s -> Hs. rewrite Hlookup. cbn [fmap list_fmap concat].
    rewrite app_nil_r. unfold directory_steps. rewrite Hs.
    unfold ProcessResults.approximate_steps.
    set (k := Nat.max 1 (ProcessResults.n_trials s / 10)).
    assert (Hk : (0 < k)%nat) by lia.
    destruct k as [|k]; [lia|]. eexists. split; [done|].
    cbn [ProcessResults.n_trials ProcessResults.min_steps ProcessResults.max_steps
         ProcessResults.mean_steps ProcessResults.median_steps].
    split_and!.
    + by rewrite length_replicate.
    + apply min_replicate.
    + apply max_replicate.
Qed.
End main.

Lemma main_hide_label_summary_witness :
  ∃ htl_summary or_summary stats,
    @ProcessResults.main no_numeric_strings rational_sqrt [Some [htl_file_a]] []
    = Ok (htl_summary, or_summary) ∧
    htl_summary !! "A" = Some stats ∧
    ProcessResults.n_trials stats = 1%nat ∧
    ProcessResults.min_steps stats = ProcessResults.max_steps stats.
Proof.
  destruct (@ProcessResults.main no_numeric_strings rational_sqrt
              [Some [htl_file_a]] []) as [[htl_summary or_summary]|e] eqn:E;
    [|by vm_compute in E].
  destruct (@ProcessResults.process_hide_label_directory no_numeric_strings
              rational_sqrt [htl_file_a] !! "A") as [s|] eqn:Es;
    [|by vm_compute in Es].
  destruct (proj2 (proj2 (@main_hide_label_summary no_numeric_strings rational_sqrt
              _ _ _ _ "A" E)) [htl_file_a] s eq_refl Es)
    as (stats & Hstats & Hn & Hmin & Hmax).
  assert (Hcount : ProcessResults.n_trials s = 2%nat).
  { pose proof Es as Es'. vm_compute in Es'. by injection Es' as <-. }
  exists htl_summary, or_summary, stats. split_and!; [done..| |congruence].
  by rewrite Hn, Hcount.
Defined.

(** ** Strings *)

Lemma append_cons (x : Ascii.ascii) (a b : string) :
  String x a +:+ b = String x (a +:+ b).
Proof. reflexivity. Qed.

Lemma append_nil (b : string) : EmptyString +:+ b = b.
Proof. reflexivity. Qed.

Lemma append_assoc (a b c : string) : (a +:+ b) +:+ c = a +:+ (b +:+ c).
Proof. induction a as [|x a IH]; [done|]. rewrite !append_cons. by f_equal. Qed.

Lemma length_append (a b : string) :
  String.length (a +:+ b) = (String.length a + String.length b)%nat.
Proof.
  induction a as [|x a IH]; [done|]. rewrite append_cons. cbn [String.length].
  by rewrite IH.
Qed.

(** A string that does not start with [lit], and is as long as [lit], does
    not start with it however it is continued. *)
Lemma prefix_append_false (lit a z : string) :
  String.prefix lit a = false → (String.length lit <= String.length a)%nat →
  String.prefix lit (a +:+ z) = false.
Proof.
  revert a. induction lit as [|x lit IH]; intros a Hpre Hlen.
  - by destruct a.
  - destruct a as [|y a]; cbn in Hlen; [lia|].
    rewrite append_cons. cbn in Hpre |- *. destruct (Ascii.ascii_dec x y); [|done].
    apply IH; [done|lia].
Qed.

Lemma after_prefix_prefix (lit s : string) :
  String.prefix lit s = false → Re.after_prefix lit s = None.
Proof.
  revert s. induction lit as [|x lit IH]; intros s Hpre.
  - by destruct s.
  - destruct s as [|y s]; [done|]. cbn in Hpre |- *.
    destruct (Ascii.eqb_spec x y) as [->|Hne].
    + destruct (Ascii.ascii_dec y y); [by apply IH|done].
    + done.
Qed.

Lemma after_prefix_append (lit rest : string) :
  Re.after_prefix lit (lit +:+ rest) = Some rest.
Proof.
  induction lit as [|x lit IH]; [by destruct rest|].
  rewrite append_cons. cbn. by rewrite Ascii.eqb_refl.
Qed.

Lemma span_append (cls : Ascii.ascii → bool) (group rest : string) :
  all_of cls group = true → starts_with cls rest = false →
  Re.span cls (group +:+ rest) = group.
Proof.
  intros Hall Hrest. induction group as [|c group IH].
  - rewrite append_nil. destruct rest as [|c rest]; [done|]. cbn in *.
    by rewrite Hrest.
  - rewrite append_cons. cbn in Hall |- *.
    apply andb_prop in Hall as [Hc Hall]. rewrite Hc. f_equal. by apply IH.
Qed.

Lemma match_group_append (lit : string) (cls : Ascii.ascii → bool)
    (group rest : string) :
  group ≠ EmptyString → all_of cls group = true → starts_with cls rest = false →
  Re.match_group lit cls (lit +:+ group +:+ rest) = Some group.
Proof.
  intros Hne Hall Hrest. unfold Re.match_group.
  rewrite after_prefix_append, span_append by done. by destruct group.
Qed.

(** The search passes over [pre] when [lit] does not occur in [pre]
    followed by [lit] less its last character. *)
Lemma search_group_first (lit u : string) (c : Ascii.ascii) (cls : Ascii.ascii → bool)
    (pre rest group : string) :
  lit = u +:+ String c EmptyString →
  Str.contains lit (pre +:+ u) = false →
  Re.match_group lit cls (lit +:+ rest) = Some group →
  Re.search_group lit cls (pre +:+ lit +:+ rest) = Some group.
Proof.
  intros Hlit Hnone Hmatch. induction pre as [|a pre IH].
  - rewrite append_nil. destruct (lit +:+ rest); cbn [Re.search_group];
      by rewrite Hmatch.
  - rewrite append_cons in Hnone. cbn [Str.contains] in Hnone.
    apply orb_false_elim in Hnone as [Hhere Hlater].
    rewrite append_cons. cbn [Re.search_group].
    assert (Hno : Re.match_group lit cls (String a (pre +:+ lit +:+ rest)) = None).
    { unfold Re.match_group. rewrite after_prefix_prefix; [done|].
      replace (String a (pre +:+ lit +:+ rest))
        with (String a (pre +:+ u) +:+ (String c EmptyString +:+ rest)).
      - apply prefix_append_false; [done|].
        rewrite Hlit. cbn [String.length]. rewrite !length_append.
        cbn [String.length]. lia.
      - rewrite append_cons. f_equal. rewrite Hlit. by rewrite !append_assoc. }
    rewrite Hno. by apply IH.
Qed.

Lemma search_group_absent (lit : string) (cls : Ascii.ascii → bool) (s : string) :
  Str.contains lit s = false → Re.search_group lit cls s = None.
Proof.
  induction s as [|a s IH]; cbn [Str.contains Re.search_group]; intros Hnone.
  - apply orb_false_elim in Hnone as [Hhere _].
    unfold Re.match_group. by rewrite after_prefix_prefix.
  - apply orb_false_elim in Hnone as [Hhere Hlater].
    unfold Re.match_group. rewrite after_prefix_prefix by done. by apply IH.
Qed.

(** X10. [extract_file_info] reads the batch size and the hidden percentage
    off the first place at which the file name has [Batch], or
    [Hidden_Percentage_], when digits (digits and dots) follow there: the
    field is the longest run of them. A name without [Batch] has no batch
    size, a name without [Hidden_Percentage_] no hidden percentage. *)
Theorem extract_file_info_fields (pre group rest : string) :
  group ≠ EmptyString →
  (Str.contains "Batch" (pre +:+ "Batc") = false →
   all_of Re.digit group = true → starts_with Re.digit rest = false →
   ProcessOfficialResults.batch_size
     (ProcessOfficialResults.extract_file_info (pre +:+ "Batch" +:+ group +:+ rest))
   = Some group) ∧
  (Str.contains "Hidden_Percentage_" (pre +:+ "Hidden_Percentage") = false →
   all_of Re.digit_or_dot group = true → starts_with Re.digit_or_dot rest = false →
   ProcessOfficialResults.hidden_frac
     (ProcessOfficialResults.extract_file_info
        (pre +:+ "Hidden_Percentage_" +:+ group +:+ rest))
   = Some group) ∧
  (∀ filename,
     Str.contains "Batch" filename = false →
     ProcessOfficialResults.batch_size
       (ProcessOfficialResults.extract_file_info filename) = None) ∧
  (∀ filename,
     Str.contains "Hidden_Percentage_" filename = false →
     ProcessOfficialResults.hidden_frac
       (ProcessOfficialResults.extract_file_info filename) = None).
Proof.
  intros Hne. unfold ProcessOfficialResults.extract_file_info.
  cbn [ProcessOfficialResults.batch_size ProcessOfficialResults.hidden_frac].
  split_and!.
  - intros Hfirst Hall Hrest.
    eapply (search_group_first "Batch" "Batc"); [reflexivity|done|].
    by apply match_group_append.
  - intros Hfirst Hall Hrest.
    eapply (search_group_first "Hidden_Percentage_" "Hidden_Percentage");
      [reflexivity|done|].
    by apply match_group_append.
  - intros filename. apply search_group_absent.
  - intros filename. apply search_group_absent.
Qed.

Lemma extract_file_info_fields_witness :
  ProcessOfficialResults.batch_size
    (ProcessOfficialResults.extract_file_info example_file_name) = Some "10" ∧
  ProcessOfficialResults.hidden_frac
    (ProcessOfficialResults.extract_file_info example_file_name) = Some "0.95".
Proof.
  split.
  - exact (proj1 (extract_file_info_fields
             "DBO_rat_myocyte_Hard_Hide_The_Label_Notallopt_" "10"
             "_Hidden_Percentage_0.95_20251015_202559.json" ltac:(done))
           eq_refl eq_refl eq_refl).
  - exact (proj1 (proj2 (extract_file_info_fields
             "DBO_rat_myocyte_Hard_Hide_The_Label_Notallopt_Batch10_" "0.95"
             "_20251015_202559.json" ltac:(done)))
           eq_refl eq_refl eq_refl).
Defined.

(** ** What [main] of process_official_results.py stores *)

Lemma assign_loop_lookup {V} (l : list (string * V)) (d : gmap string V) k :
  NoDup l.*1 →
  foldl (λ d '(k, v), <[k := v]> d) d l !! k
  = match (list_to_map l : gmap string V) !! k with
    | Some v => Some v
    | None => d !! k
    end.
Proof.
  revert d. induction l as [|[k0 v0] l IH]; intros d Hnd; [done|].
  rewrite fmap_cons in Hnd. apply NoDup_cons in Hnd as [Hk0 Hnd].
  cbn [foldl]. rewrite (IH _ Hnd), list_to_map_cons. cbn [fst snd] in *.
  destruct (decide (k0 = k)) as [->|Hne].
  - rewrite (not_elem_of_list_to_map_1 (M := gmap string) l k Hk0).
    by rewrite !lookup_insert_eq.
  - rewrite !lookup_insert_ne by done. by destruct (list_to_map l !! k).
Qed.

Lemma assign_all_union {V} (new d : gmap string V) : assign_all new d = new ∪ d.
Proof.
  apply map_eq. intros k. unfold assign_all.
  rewrite assign_loop_lookup by apply NoDup_fst_map_to_list.
  rewrite list_to_map_to_list, lookup_union.
  by destruct (new !! k), (d !! k).
Qed.

Section official_main.
Context `{StrParsers}.

(** The body of the loop over the files, by what the file stores. *)
Lemma store_file_stored race_type by_batch json_file :
  ProcessOfficialResults.store_file race_type by_batch json_file
  = match stored race_type json_file with
    | Some (batch_size, dataset, results) =>
        match by_batch !! batch_size with
        | Some datasets =>
            <[batch_size :=
                <[dataset := results ∪ default ∅ (datasets !! dataset)]> datasets]>
              by_batch
        | None => by_batch
        end
    | None => by_batch
    end.
Proof.
  unfold ProcessOfficialResults.store_file, stored.
  destruct (ProcessOfficialResults.batch_size _) as [digits|];
    cbn [Py.int mbind option_bind]; [|done].
  destruct (str_to_int digits) as [batch_size|]; cbn [mbind option_bind]; [|done].
  destruct (bool_decide (batch_size ∈ [1; 10; 20])); [|done].
  destruct (file_content json_file) as [data| | |]; [|done..].
  destruct (ProcessOfficialResults.process_result_file data race_type)
    as [results|e]; [|done].
  destruct (by_batch !! batch_size); [|done]. by rewrite assign_all_union.
Qed.

Lemma store_file_is_Some race_type by_batch json_file b :
  is_Some (ProcessOfficialResults.store_file race_type by_batch json_file !! b)
  ↔ is_Some (by_batch !! b).
Proof.
  rewrite store_file_stored. unfold ProcessOfficialResults.Datasets in *.
  destruct (stored race_type json_file) as [[[batch_size dataset] results]|]; [|done].
  destruct (by_batch !! batch_size) as [datasets|] eqn:E; [|done].
  destruct (decide (batch_size = b)) as [->|Hne].
  - rewrite lookup_insert_eq, E. split; eauto.
  - by rewrite lookup_insert_ne.
Qed.

Lemma store_file_entry race_type by_batch json_file b d name :
  is_Some (by_batch !! b) →
  entry_at (ProcessOfficialResults.store_file race_type by_batch json_file) b d name
  = from_option Some (entry_at by_batch b d name)
      (writes race_type b d name json_file).
Proof.
  intros [datasets Hb]. rewrite store_file_stored. unfold writes.
  unfold entry_at, ProcessOfficialResults.Datasets in *.
  destruct (stored race_type json_file) as [[[batch_size dataset] results]|];
    [|done].
  cbn [mbind option_bind].
  destruct (decide (batch_size = b)) as [->|Hne].
  - rewrite !Hb, lookup_insert_eq. cbn [mbind option_bind].
    destruct (decide (dataset = d)) as [->|Hd].
    + rewrite bool_decide_eq_true_2 by done.
      rewrite lookup_insert_eq. cbn [mbind option_bind]. rewrite lookup_union.
      destruct (results !! name) as [stats|]; cbn.
      * by destruct (default ∅ (datasets !! d) !! name).
      * rewrite (left_id_L None (∪)). by destruct (datasets !! d).
    + rewrite bool_decide_eq_false_2 by (intros [_ ?]; done).
      by rewrite lookup_insert_ne.
  - rewrite bool_decide_eq_false_2 by (intros [? _]; done). cbn.
    destruct (by_batch !! batch_size); [|done].
    by rewrite lookup_insert_ne.
Qed.

(** X11. Within a race directory, [main] keeps for an optimizer, under a
    batch size and a dataset, the entry of the last file that gives one:
    the results of the files of one dataset and batch size are not
    pooled, a later file replaces the entries of the optimizers it has
    and keeps the others. Only files whose name gives a batch size of 1,
    10 or 20 and whose document is processed without an exception store
    anything. *)
Theorem last_file_wins (race_type : string)
    (by_batch : gmap Z ProcessOfficialResults.Datasets)
    (json_files : list JsonFile) (batch_size : Z) (dataset name : string) :
  is_Some (by_batch !! batch_size) →
  entry_at (foldl (ProcessOfficialResults.store_file race_type) by_batch json_files)
    batch_size dataset name
  = from_option Some (entry_at by_batch batch_size dataset name)
      (last (omap (writes race_type batch_size dataset name) json_files)) ∧
  ∀ json_file stats,
    writes race_type batch_size dataset name json_file = Some stats →
    batch_size ∈ [1; 10; 20] ∧
    ∃ digits data results,
      ProcessOfficialResults.batch_size
        (ProcessOfficialResults.extract_file_info (file_name json_file))
      = Some digits ∧
      str_to_int digits = Some batch_size ∧
      ProcessOfficialResults.dataset
        (ProcessOfficialResults.extract_file_info (file_name json_file))
      = dataset ∧
      file_content json_file = Document data ∧
      ProcessOfficialResults.process_result_file data race_type = Ok results ∧
      results !! name = Some stats.
Proof.
  intros Hb. split.
  - induction json_files as [|json_file json_files IH] using rev_ind; [done|].
    rewrite foldl_app, omap_app. cbn [foldl].
    replace (omap (writes race_type batch_size dataset name) [json_file])
      with (option_list (writes race_type batch_size dataset name json_file))
      by (cbn; by destruct (writes race_type batch_size dataset name json_file)).
    rewrite store_file_entry.
    2:{ clear IH. induction json_files as [|f fs IHf] using rev_ind; [done|].
        rewrite foldl_app. cbn [foldl]. by apply store_file_is_Some. }
    rewrite IH.
    destruct (writes race_type batch_size dataset name json_file) as [stats|];
      cbn.
    + by rewrite last_snoc.
    + by rewrite app_nil_r.
  - intros json_file stats. unfold writes, stored.
    destruct (ProcessOfficialResults.batch_size _) as [digits|] eqn:Edigits;
      cbn [mbind option_bind]; [|done].
    destruct (str_to_int digits) as [b|] eqn:Eint; cbn [mbind option_bind]; [|done].
    case_bool_decide as Hin; [|done].
    destruct (file_content json_file) as [data| | |] eqn:Edata; [|done..].
    destruct (ProcessOfficialResults.process_result_file data race_type)
      as [results|e] eqn:Eresults; [|done].
    cbn. case_bool_decide as Hkeys; [|done]. destruct Hkeys as [-> <-].
    intros Hstats. split; [done|]. by exists digits, data, results.
Qed.
End official_main.

Lemma last_file_wins_witness :
  ∃ summary,
    entry_at
      (foldl (@ProcessOfficialResults.store_file decimal_strings "Hide_The_Label")
         (list_to_map ((λ b, (b, ∅)) <$> [1; 10; 20]))
         [official_file_1; official_file_2]) 10 "T_Cell" "B"
    = Some (ProcessOfficialResults.HideLabel summary) ∧
    mean_steps summary = Fin 30 ∧ count summary = 1%nat.
Proof.
  pose proof (proj1 (@last_file_wins decimal_strings "Hide_The_Label"
              (list_to_map ((λ b, (b, ∅)) <$> [1; 10; 20]))
              [official_file_1; official_file_2] 10 "T_Cell" "B"
              ltac:(by eexists))) as Hentry.
  eexists. split; [rewrite Hentry; by vm_compute|by vm_compute].
Defined.

(** ** The shape of [playground_data] *)

Lemma foldl_invariant {A B} (P : A → Prop) (step : A → B → A) (l : list B) (a : A) :
  (∀ a x, P a → P (step a x)) → P a → P (foldl step a l).
Proof.
  intros Hstep. revert a. induction l as [|x l IH]; intros a Ha; [done|].
  cbn. apply IH. by apply Hstep.
Qed.

(** A dictionary with the keys [keys] whose values all satisfy [P]. *)
Lemma alter_keeps `{Countable K} {V} (P : V → Prop) (keys : gset K) (f : V → V)
    (k : K) (m : gmap K V) :
  (∀ v, P v → P (f v)) →
  dom m = keys ∧ (∀ k' v, m !! k' = Some v → P v) →
  dom (alter f k m) = keys ∧ (∀ k' v, alter f k m !! k' = Some v → P v).
Proof.
  intros Hf [Hdom Hall]. split; [by rewrite dom_alter_L|].
  intros k' v. destruct (decide (k = k')) as [->|Hne].
  - rewrite lookup_alter_eq. destruct (m !! k') as [v0|] eqn:E; [|done].
    intros [= <-]. eapply Hf, Hall. done.
  - rewrite lookup_alter_ne by done. apply Hall.
Qed.

Lemma two_keys `{Countable K} {V} (P : V → Prop) (k1 k2 : K) (v1 v2 : V) :
  P v1 → P v2 →
  dom (<[k1 := v1]> (<[k2 := v2]> (∅ : gmap K V))) = {[k1; k2]} ∧
  ∀ k v, <[k1 := v1]> (<[k2 := v2]> (∅ : gmap K V)) !! k = Some v → P v.
Proof.
  intros H1 H2. split.
  - rewrite !dom_insert_L, dom_empty_L. by rewrite (right_id_L ∅ (∪)).
  - intros k v Hk.
    apply lookup_insert_Some in Hk as [[_ <-]|[_ Hk]]; [done|].
    apply lookup_insert_Some in Hk as [[_ <-]|[_ Hk]]; [done|].
    by rewrite lookup_empty in Hk.
Qed.

Section shape.
Context `{StrParsers}.

Lemma store_file_dom race_type (by_batch : gmap Z ProcessOfficialResults.Datasets)
    json_file :
  dom (ProcessOfficialResults.store_file race_type by_batch json_file) = dom by_batch.
Proof.
  rewrite store_file_stored. unfold ProcessOfficialResults.Datasets in *.
  destruct (stored race_type json_file) as [[[batch_size dataset] results]|]; [|done].
  destruct (by_batch !! batch_size) as [datasets|] eqn:E; [|done].
  rewrite dom_insert_L. apply elem_of_dom_2 in E.
  apply set_eq. intros b. rewrite elem_of_union, elem_of_singleton.
  split; [intros [->|?]; done|by right].
Qed.

(** X12. Whatever [Result_Official] holds, the [playground_data] that
    [main] writes has the keys it is initialised with and no other: the
    hidden fractions 0.95 and 0.99, under each the difficulties Regular
    and Hard, under each the race types Hide_The_Label and Open_Race, and
    under each the batch sizes 1, 10 and 20. *)
Theorem playground_keeps_its_keys
    (hidden_frac_dirs :
       list (DirEntry (list (DirEntry (list (DirEntry (list JsonFile)))))))
    (playground_data : ProcessOfficialResults.Playground) :
  ProcessOfficialResults.main (Some hidden_frac_dirs) = Some playground_data →
  dom playground_data = {[Qcanon.Q2Qc (95 # 100); Qcanon.Q2Qc (99 # 100)]} ∧
  ∀ hidden_frac by_difficulty,
    playground_data !! hidden_frac = Some by_difficulty →
    dom by_difficulty = {["Regular"; "Hard"]} ∧
    ∀ difficulty by_race,
      by_difficulty !! difficulty = Some by_race →
      dom by_race = {["Hide_The_Label"; "Open_Race"]} ∧
      ∀ race_type (by_batch : gmap Z ProcessOfficialResults.Datasets),
        by_race !! race_type = Some by_batch →
        dom by_batch = {[1; 10; 20]}.
Proof.
  intros [= <-].
  set (batches := λ by_batch : gmap Z ProcessOfficialResults.Datasets,
         dom by_batch = ({[1; 10; 20]} : gset Z)).
  set (races := λ by_race : gmap string (gmap Z ProcessOfficialResults.Datasets),
         dom by_race = ({["Hide_The_Label"; "Open_Race"]} : gset string) ∧
         ∀ race_type by_batch, by_race !! race_type = Some by_batch → batches by_batch).
  set (difficulties :=
         λ by_difficulty :
             gmap string (gmap string (gmap Z ProcessOfficialResults.Datasets)),
         dom by_difficulty = ({["Regular"; "Hard"]} : gset string) ∧
         ∀ difficulty by_race,
           by_difficulty !! difficulty = Some by_race → races by_race).
  set (shaped := λ playground_data : ProcessOfficialResults.Playground,
         dom playground_data
         = ({[Qcanon.Q2Qc (95 # 100); Qcanon.Q2Qc (99 # 100)]} : gset Qcanon.Qc) ∧
         ∀ hidden_frac by_difficulty,
           playground_data !! hidden_frac = Some by_difficulty →
           difficulties by_difficulty).
  assert (Hfiles : ∀ race_type json_files by_batch,
    batches by_batch →
    batches (foldl (ProcessOfficialResults.store_file race_type) by_batch json_files)).
  { intros race_type json_files by_batch. apply foldl_invariant.
    intros bb json_file Hbb. unfold batches in *. by rewrite store_file_dom. }
  assert (Hraces : ∀ hidden_frac difficulty race_dirs playground_data,
    shaped playground_data →
    shaped (ProcessOfficialResults.store_race_dirs hidden_frac difficulty
              playground_data race_dirs)).
  { intros hidden_frac difficulty race_dirs pd. apply foldl_invariant.
    intros pd' race_dir Hpd. destruct (entry_dir race_dir) as [json_files|]; [|done].
    cbn zeta. destruct (bool_decide _); [|done].
    apply (alter_keeps difficulties); [|done].
    intros by_difficulty. apply (alter_keeps races).
    intros by_race. apply (alter_keeps batches). apply Hfiles. }
  assert (Hdifficulties : ∀ hidden_frac difficulty_dirs playground_data,
    shaped playground_data →
    shaped (ProcessOfficialResults.store_difficulty_dirs hidden_frac
              playground_data difficulty_dirs)).
  { intros hidden_frac difficulty_dirs pd. apply foldl_invariant.
    intros pd' difficulty_dir Hpd.
    destruct (entry_dir difficulty_dir) as [race_dirs|]; [|done].
    destruct (Str.contains "Regular_Mode" _); [by apply Hraces|].
    destruct (Str.contains "Hard_Mode" _); [by apply Hraces|done]. }
  assert (Hmain : shaped
    (foldl (λ playground_data hidden_frac_dir,
       match entry_dir hidden_frac_dir with
       | None => playground_data
       | Some difficulty_dirs =>
           if Str.contains "hiddenfrac95" (entry_name hidden_frac_dir)
           then ProcessOfficialResults.store_difficulty_dirs
                  (Qcanon.Q2Qc (95 # 100)) playground_data difficulty_dirs
           else if Str.contains "hiddenfrac99" (entry_name hidden_frac_dir)
           then ProcessOfficialResults.store_difficulty_dirs
                  (Qcanon.Q2Qc (99 # 100)) playground_data difficulty_dirs
           else playground_data
       end) ProcessOfficialResults.initial_playground hidden_frac_dirs)).
  { apply foldl_invariant.
    - intros pd hidden_frac_dir Hpd.
      destruct (entry_dir hidden_frac_dir) as [difficulty_dirs|]; [|done].
      destruct (Str.contains "hiddenfrac95" _); [by apply Hdifficulties|].
      destruct (Str.contains "hiddenfrac99" _); [by apply Hdifficulties|done].
    - unfold shaped, difficulties, races, batches,
        ProcessOfficialResults.initial_playground.
      unfold ProcessOfficialResults.Playground, ProcessOfficialResults.Datasets.
      cbn zeta. cbn [fmap list_fmap].
      rewrite !list_to_map_cons, !list_to_map_nil. cbn [fst snd].
      assert (Hbatches : batches (<[1 := ∅]> (<[10 := ∅]> (<[20 := ∅]> ∅)))).
      { unfold batches. rewrite !dom_insert_L, dom_empty_L.
        by rewrite (right_id_L ∅ (∪)), !(assoc_L (∪)). }
      apply (two_keys difficulties); apply (two_keys races);
        apply (two_keys batches); exact Hbatches. }
  exact Hmain.
Qed.
End shape.

Lemma playground_keeps_its_keys_witness :
  ∃ playground_data,
    @ProcessOfficialResults.main decimal_strings
      (Some [{| entry_name := "Results_hiddenfrac95";
                entry_dir := Some [{| entry_name := "Regular_Mode";
                  entry_dir := Some [{| entry_name := "Hide_The_Label";
                    entry_dir := Some [official_file_1; official_file_2] |}] |}] |}])
    = Some playground_data ∧
    dom playground_data = {[Qcanon.Q2Qc (95 # 100); Qcanon.Q2Qc (99 # 100)]}.
Proof.
  eexists. split; [reflexivity|].
  eapply (@playground_keeps_its_keys decimal_strings). reflexivity.
Defined.

(** ** The validation of a data file *)

Lemma missing_keys_none expected_keys data :
  ValidateSetup.missing_keys expected_keys data = Ok []
  ↔ ∀ k, k ∈ expected_keys → Py.contains k data = Ok true.
Proof.
  induction expected_keys as [|k0 keys IH]; cbn [ValidateSetup.missing_keys].
  - split; [|done]. by intros _ k ?%elem_of_nil.
  - split.
    + intros Hrun. apply bind_Ok in Hrun as (b & Hb & Hrun).
      apply bind_Ok in Hrun as (ks & Hks & Hrun).
      destruct b; [|done]. injection Hrun as ->.
      intros k [->|Hk]%elem_of_cons; [done|]. by apply IH.
    + intros Hall. rewrite (Hall k0) by left. cbn.
      rewrite (proj2 IH); [done|]. intros k Hk. apply Hall. by right.
Qed.

(** X13. [validate_json_file] never raises. It accepts a file exactly when
    the file is loaded, every expected key is [in] the document, and the
    document has a length, which the message reports: a file that holds a
    number, a boolean or null, though valid JSON, is reported as an
    error. *)
Theorem validate_json_file_verdict (file : FileContent)
    (expected_keys : option (list string)) (message : ValidateSetup.Message) :
  (ValidateSetup.validate_json_file file expected_keys = (true, message) ↔
   ∃ data entries,
     file = Document data ∧
     (∀ k, k ∈ default [] expected_keys → Py.contains k data = Ok true) ∧
     Py.len data = Ok entries ∧
     message = ValidateSetup.ValidJSON entries) ∧
  ∀ data,
    match data with
    | JNull | JBool _ | JNum _ =>
        ValidateSetup.validate_json_file (Document data) expected_keys
        = (false, ValidateSetup.Error)
    | _ => True
    end.
Proof.
  split.
  - unfold ValidateSetup.validate_json_file.
    destruct file as [data| | |].
    2-4: split; [done|by intros (? & ? & ? & _)].
    set (keys := default [] expected_keys).
    assert (Hmissing :
      match expected_keys with
      | Some ((_ :: _) as keys) => ValidateSetup.missing_keys keys data
      | _ => Ok []
      end = ValidateSetup.missing_keys keys data).
    { subst keys. by destruct expected_keys as [[|k ks]|]. }
    rewrite Hmissing. clear Hmissing.
    pose proof (missing_keys_none keys data) as Hnone.
    destruct (ValidateSetup.missing_keys keys data) as [[|k missing]|e]; cbn.
    + destruct (Py.len data) as [entries|e] eqn:Elen; cbn.
      * split.
        -- intros [= <-]. exists data, entries. split_and!; [done| |done..].
           by apply Hnone.
        -- intros (data' & entries' & [= <-] & _ & Hlen & ->). congruence.
      * split; [done|]. intros (data' & entries' & [= <-] & _ & Hlen & _).
        congruence.
    + split; [done|]. intros (data' & entries' & [= <-] & Hall & _).
      by apply Hnone in Hall.
    + split; [done|]. intros (data' & entries' & [= <-] & Hall & _).
      by apply Hnone in Hall.
  - intros data. unfold ValidateSetup.validate_json_file.
    destruct data; try done; destruct expected_keys as [[|k ks]|]; reflexivity.
Qed.

(** ** The values of the positional average *)

Lemma positional_values histories k sv :
  for_each (seq 0 k) (λ step_idx sv,
      step_values ← GenerateData.values_at histories step_idx;
      match step_values with
      | [] => Ok sv
      | _ =>
        nums ← mapM Py.number step_values;
        Ok (sv.1 ++ [step_idx], sv.2 ++ [Np.mean nums])
      end) ([], []) = Ok sv →
  ∀ i position, sv.1 !! i = Some position →
    ∃ step_values nums,
      GenerateData.values_at histories position = Ok step_values ∧
      step_values ≠ [] ∧
      mapM Py.number step_values = Ok nums ∧
      sv.2 !! i = Some (Np.mean nums).
Proof.
  revert sv. induction k as [|k IH]; intros sv.
  - intros [= <-] i position Hi. cbn in Hi. by rewrite lookup_nil in Hi.
  - rewrite seq_S, for_each_app. change (0 + k)%nat with k. intros Hrun.
    apply bind_Ok in Hrun as (sv0 & Hsv0 & Hrun).
    pose proof (positional_loop _ _ _ Hsv0) as [_ Hlen].
    specialize (IH _ Hsv0).
    cbn [for_each] in Hrun. apply bind_Ok in Hrun as (sv1 & Hbody & [= <-]).
    apply bind_Ok in Hbody as (step_values & Hvals & Hbody).
    destruct step_values as [|x step_values].
    + injection Hbody as <-. apply IH.
    + apply bind_Ok in Hbody as (nums & Hnums & [= <-]). cbn [fst snd].
      intros i position Hi.
      destruct (decide (i < length sv0.1)%nat) as [Hlt|Hge].
      * rewrite lookup_app_l in Hi by done.
        destruct (IH _ _ Hi) as (vs & ns & ? & ? & ? & Hv).
        exists vs, ns. split_and!; [done..|].
        rewrite lookup_app_l by lia. done.
      * rewrite lookup_app_r in Hi by lia.
        apply list_lookup_singleton_Some in Hi as [Hi <-].
        exists (x :: step_values), nums. split_and!; [done..|].
        rewrite lookup_app_r by lia. rewrite Hlen.
        by rewrite Hi.
Qed.

(** X14. In the trajectory that [process_open_race_file] gives an
    optimizer, the value at a listed position is the mean of the
    [best_value_so_far] members, other than null, that the histories of
    the optimizer have at that position of their lists (the [step] and the
    [current_best] of a record are not read), and [final_best] is the last
    value. *)
Theorem positional_average_values (histories : list json)
    (t : GenerateData.RaceResult) :
  GenerateData.average_histories histories = Ok (Some t) →
  (∀ i position,
     GenerateData.race_steps t !! i = Some position →
     ∃ step_values nums,
       GenerateData.values_at histories position = Ok step_values ∧
       step_values ≠ [] ∧
       mapM Py.number step_values = Ok nums ∧
       GenerateData.race_values t !! i = Some (Np.mean nums)) ∧
  GenerateData.final_best t = last (GenerateData.race_values t).
Proof.
  unfold GenerateData.average_histories. destruct histories as [|h histories]; [done|].
  intros Hrun. apply bind_Ok in Hrun as (lens & Hlens & Hrun).
  apply bind_Ok in Hrun as (sv & Hloop & [= <-]). cbn.
  split; [|done]. by apply (positional_values _ _ _ Hloop).
Qed.

Lemma positional_average_values_witness :
  ∃ t,
    GenerateData.average_histories example_histories = Ok (Some t) ∧
    GenerateData.race_steps t = [0; 1]%nat ∧
    ∃ nums, GenerateData.race_values t !! 1%nat = Some (Np.mean nums) ∧
            mapM Py.number [JNum (Fin 5)] = Ok nums.
Proof.
  destruct (GenerateData.average_histories example_histories) as [[t|]|e] eqn:E;
    [|by vm_compute in E..].
  exists t. split; [done|].
  assert (Hsteps : GenerateData.race_steps t = [0; 1]%nat).
  { pose proof E as E'. vm_compute in E'. by injection E' as <-. }
  split; [done|].
  destruct (proj1 (positional_average_values _ _ E) 1%nat 1%nat)
    as (step_values & nums & Hvals & _ & Hnums & Hvalue).
  { by rewrite Hsteps. }
  exists nums. split; [done|].
  vm_compute in Hvals. injection Hvals as <-. done.
Defined.

(** ** File names built from their parts *)

Lemma split_plain (p : string) : plain p = true → Str.split p Str.underscore = [p].
Proof.
  induction p as [|c p IH]; [done|]. unfold plain. cbn [all_of Str.split].
  intros [Hc Hp]%andb_prop. apply negb_true_iff in Hc. rewrite Hc.
  by rewrite (IH Hp).
Qed.

Lemma split_plain_append (p rest : string) :
  plain p = true →
  Str.split (p +:+ String Str.underscore rest) Str.underscore
  = p :: Str.split rest Str.underscore.
Proof.
  induction p as [|c p IH].
  - intros _. rewrite append_nil. cbn [Str.split]. by rewrite Ascii.eqb_refl.
  - unfold plain. cbn [all_of]. intros [Hc Hp]%andb_prop.
    apply negb_true_iff in Hc. rewrite append_cons. cbn [Str.split].
    rewrite Hc. by rewrite (IH Hp).
Qed.

(** Splitting what [join] puts together gives the parts back. *)
Lemma split_join (parts : list string) :
  parts ≠ [] → Forall (λ p, plain p = true) parts →
  Str.split (join parts) Str.underscore = parts.
Proof.
  intros Hne Hall. induction Hall as [|p parts Hp Hall IH]; [done|].
  cbn [join]. destruct parts as [|q parts]; [by apply split_plain|].
  rewrite split_plain_append by done. f_equal. by apply IH.
Qed.

Lemma replace_from_skip (old new a rest : string) :
  Str.replace_from old new (a +:+ rest) (String.length a)
  = Str.replace_from old new rest 0.
Proof.
  induction a as [|c a IH]; [by rewrite append_nil|].
  rewrite append_cons. cbn [String.length Str.replace_from]. apply IH.
Qed.

Lemma prefix_append (lit rest : string) : String.prefix lit (lit +:+ rest) = true.
Proof.
  induction lit as [|c lit IH]; [by destruct rest|].
  rewrite append_cons. cbn. by destruct (Ascii.ascii_dec c c).
Qed.

(** An occurrence at the beginning is replaced, and the replacement goes
    on after it. *)
Lemma replace_from_here (c : Ascii.ascii) (old new rest : string) :
  Str.replace_from (String c old) new (String c old +:+ rest) 0
  = new +:+ Str.replace_from (String c old) new rest 0.
Proof.
  pose proof (prefix_append (String c old) rest) as Hpre.
  rewrite append_cons in Hpre |- *. cbn [Str.replace_from]. rewrite Hpre.
  cbn [String.length]. rewrite Nat.sub_succ, Nat.sub_0_r.
  by rewrite replace_from_skip.
Qed.

Lemma replace_from_absent (old new s : string) :
  Str.contains old s = false → Str.replace_from old new s 0 = s.
Proof.
  induction s as [|c s IH]; [done|]. cbn [Str.contains Str.replace_from].
  intros [Hhere Hlater]%orb_false_elim. rewrite Hhere. f_equal. by apply IH.
Qed.

(** Removing the extension of a name that has [.json] at its end only. *)
Lemma replace_extension (stem : string) :
  Str.contains ".json" (stem +:+ ".jso") = false →
  Str.replace (stem +:+ ".json") ".json" "" = stem.
Proof.
  unfold Str.replace. induction stem as [|c stem IH]; [done|].
  rewrite !append_cons. cbn [Str.contains]. intros [Hhere Hlater]%orb_false_elim.
  cbn [Str.replace_from].
  replace (String c (stem +:+ ".json")) with (String c (stem +:+ ".jso") +:+ "n").
  - rewrite prefix_append_false; [|done|].
    + f_equal. by apply IH.
    + cbn [String.length]. rewrite length_append. cbn. lia.
  - rewrite append_cons, append_assoc. done.
Qed.

Lemma find_first {A} (P : A → bool) (before : list A) (x : A) (after : list A) :
  Forall (λ y, P y = false) before → P x = true →
  List.find P (before ++ x :: after) = Some x.
Proof.
  intros Hbefore Hx. induction Hbefore as [|y before Hy _ IH]; cbn.
  - by rewrite Hx.
  - by rewrite Hy.
Qed.

Lemma list_find_first {A} (P : A → Prop) `{∀ x, Decision (P x)}
    (before : list A) (x : A) (after : list A) :
  Forall (λ y, ¬ P y) before → P x →
  list_find P (before ++ x :: after) = Some (length before, x).
Proof.
  intros Hbefore Hx. apply list_find_Some. split_and!.
  - by rewrite lookup_app_r, Nat.sub_diag.
  - done.
  - intros j y Hj Hlt. rewrite lookup_app_l in Hj by done.
    eapply Forall_forall in Hbefore; [done|]. by eapply list_elem_of_lookup_2.
Qed.

Section filenames.
Context `{StrParsers}.

(** X15. [extract_metadata_from_filename] gives back the fields of a file
    name that is put together from them: for the name
    [optimizer_..._Batch<digits>_Hidden_Percentage_<fraction>_....json],
    whose parts have no underscore, whose parts before the batch neither
    start with [Batch] nor are [Percentage], and that has [.json] at its
    end only, the optimizer is the first part, the batch is the integer
    that [digits] reads as, and the hidden fraction is the float that
    [fraction] reads as. *)
Theorem extract_metadata_round_trip (optimizer digits fraction : string)
    (middle stamp : list string) (batch : Z) (hidden_frac : float) :
  let parts := optimizer :: middle
               ++ ["Batch" +:+ digits; "Hidden"; "Percentage"; fraction] ++ stamp in
  Forall (λ p, plain p = true) parts →
  Forall (λ p, Str.startswith p "Batch" = false ∧ p ≠ "Percentage")
    (optimizer :: middle) →
  Str.contains "Batch" digits = false →
  Str.contains ".json" (join parts +:+ ".jso") = false →
  str_to_int digits = Some batch →
  str_to_float fraction = Some hidden_frac →
  ∃ metadata,
    GenerateData.extract_metadata_from_filename (join parts +:+ ".json")
    = Ok metadata ∧
    GenerateData.optimizer metadata = optimizer ∧
    GenerateData.batch metadata = Some batch ∧
    GenerateData.hidden_frac metadata = Some hidden_frac.
Proof.
  intros parts Hplain Hbefore Hdigits Hjson Hint Hfloat.
  unfold GenerateData.extract_metadata_from_filename.
  rewrite replace_extension by done.
  rewrite split_join by done.
  assert (Hbatch : GenerateData.batch_of parts = Ok (Some batch)).
  { unfold GenerateData.batch_of, parts.
    change (optimizer :: middle
            ++ ["Batch" +:+ digits; "Hidden"; "Percentage"; fraction] ++ stamp)
      with ((optimizer :: middle)
            ++ ("Batch" +:+ digits) :: ["Hidden"; "Percentage"; fraction] ++ stamp).
    rewrite (find_first _ (optimizer :: middle) ("Batch" +:+ digits)).
    - unfold Str.replace.
      rewrite replace_from_here, append_nil, replace_from_absent by done.
      cbn [Py.int]. by rewrite Hint.
    - eapply Forall_impl; [exact Hbefore|]. by intros p [? _].
    - apply prefix_append. }
  rewrite Hbatch. cbn [mbind result_bind]. eexists. split; [done|].
  cbn [GenerateData.optimizer GenerateData.batch GenerateData.hidden_frac].
  split_and!; [done..|].
  unfold GenerateData.hidden_frac_of, parts.
  replace (optimizer :: middle
           ++ ["Batch" +:+ digits; "Hidden"; "Percentage"; fraction] ++ stamp)
    with (((optimizer :: middle) ++ ["Batch" +:+ digits; "Hidden"])
          ++ "Percentage" :: fraction :: stamp)
    by (by rewrite <- !app_assoc).
  rewrite (list_find_first _ _ "Percentage").
  - rewrite lookup_app_r by lia.
    replace (S (length ((optimizer :: middle) ++ ["Batch" +:+ digits; "Hidden"]))
             - length ((optimizer :: middle) ++ ["Batch" +:+ digits; "Hidden"]))%nat
      with 1%nat by lia.
    done.
  - apply Forall_app. split.
    + eapply Forall_impl; [exact Hbefore|]. by intros p [_ ?].
    + repeat constructor; done.
  - done.
Qed.
End filenames.

Lemma extract_metadata_round_trip_witness :
  ∃ metadata,
    @GenerateData.extract_metadata_from_filename decimal_strings example_file_name
    = Ok metadata ∧
    GenerateData.optimizer metadata = "DBO" ∧
    GenerateData.batch metadata = Some 10 ∧
    GenerateData.hidden_frac metadata = Some (Fin (19 # 20)).
Proof.
  exact (@extract_metadata_round_trip decimal_strings "DBO" "10" "0.95"
           ["rat"; "myocyte"; "Hard"; "Hide"; "The"; "Label"; "Notallopt"]
           ["20251015"; "202559"] 10 (Fin (19 # 20))
           ltac:(repeat constructor) ltac:(repeat constructor; done)
           eq_refl eq_refl eq_refl eq_refl).
Defined.

(** ** The Open Race summary of [main] *)

Section main_open_race.
Context `{StrParsers} `{SquareRoot}.

Lemma pool_directories (or_dirs : list (option (list JsonFile)))
    (all_or_histories : gmap string (list run)) :
  foldl (λ all_or_histories or_dir,
      match or_dir with
      | Some json_files =>
          foldl ProcessResults.add_open_race_file all_or_histories json_files
      | None => all_or_histories
      end) all_or_histories or_dirs
  = foldl ProcessResults.add_open_race_file all_or_histories
      (concat (default [] <$> or_dirs)).
Proof.
  revert all_or_histories. induction or_dirs as [|[json_files|] or_dirs IH];
    intros acc; [done| |apply IH].
  rewrite fmap_cons. cbn [foldl concat default from_option id].
  by rewrite foldl_app, IH.
Qed.

(** X16. The Open Race summary that [main] writes is the one that
    [process_open_race_directory] gives for the files of all the
    directories that exist, taken as one directory. [main] raises when
    that aggregation raises, before it has written any of its two files:
    it raises [KeyError] and nothing else, and it returns exactly when no
    file that is read records a negative step. *)
Theorem main_open_race_summary (htl_dirs or_dirs : list (option (list JsonFile))) :
  (∀ htl_summary or_summary,
     ProcessResults.main htl_dirs or_dirs = Ok (htl_summary, or_summary) →
     ProcessResults.process_open_race_directory (concat (default [] <$> or_dirs))
     = Ok or_summary) ∧
  (∀ e, ProcessResults.main htl_dirs or_dirs = Raise e ↔
        ProcessResults.process_open_race_directory (concat (default [] <$> or_dirs))
        = Raise e) ∧
  (∀ e, ProcessResults.main htl_dirs or_dirs = Raise e → e = KeyError) ∧
  ((∃ written, ProcessResults.main htl_dirs or_dirs = Ok written) ↔
   ∀ json_files json_file name runs r s,
     Some json_files ∈ or_dirs → json_file ∈ json_files →
     file_histories json_file !! name = Some runs → r ∈ runs → s ∈ r.1 → 0 ≤ s).
Proof.
  unfold ProcessResults.main, ProcessResults.process_open_race_directory.
  rewrite pool_directories.
  set (all_or_histories :=
         foldl ProcessResults.add_open_race_file ∅ (concat (default [] <$> or_dirs))).
  assert (Hfiles : ∀ json_file,
    json_file ∈ concat (default [] <$> or_dirs)
    ↔ ∃ json_files, Some json_files ∈ or_dirs ∧ json_file ∈ json_files).
  { intros json_file. clear. induction or_dirs as [|d or_dirs IH].
    - cbn. split; [by intros ?%elem_of_nil|]. by intros (? & ?%elem_of_nil & _).
    - rewrite fmap_cons. cbn [concat]. rewrite elem_of_app, IH. split.
      + intros [Hin|(json_files & Hd & Hin)].
        * destruct d as [json_files|]; [|by apply elem_of_nil in Hin].
          exists json_files. split; [left|done].
        * exists json_files. split; [by right|done].
      + intros (json_files & Hd & Hin). apply elem_of_cons in Hd as [<-|Hd].
        * by left.
        * right. by exists json_files. }
  split_and!.
  - intros htl_summary or_summary Hmain.
    by apply bind_Ok in Hmain as (or_summary' & -> & [= _ <-]).
  - intros e.
    destruct (ProcessResults.aggregate_open_race_histories all_or_histories);
      cbn; [split; intros ?; discriminate|split; by intros [= ->]].
  - intros e Hmain. apply (aggregate_pooled_Raise (concat (default [] <$> or_dirs))).
    fold all_or_histories.
    destruct (ProcessResults.aggregate_open_race_histories all_or_histories)
      as [or_summary|e0]; cbn in Hmain; [discriminate|].
    by injection Hmain as ->.
  - pose proof (aggregate_pooled_Ok_iff (concat (default [] <$> or_dirs))) as Hiff.
    fold all_or_histories in Hiff. split.
    + intros [written Hmain] json_files json_file name runs r s Hdir Hfile.
      apply (proj1 Hiff).
      * apply bind_Ok in Hmain as (or_summary & Hagg & _). eauto.
      * apply Hfiles. eauto.
    + intros Hpos. destruct (proj2 Hiff) as [or_summary Hagg].
      * intros json_file name runs r s Hfile.
        apply Hfiles in Hfile as (json_files & Hdir & Hfile). eauto.
      * rewrite Hagg. by eexists.
Qed.
End main_open_race.

Lemma main_open_race_summary_witness :
  @ProcessResults.main no_numeric_strings rational_sqrt
    [Some [htl_file_a]] [Some [or_file_gap]; None; Some [or_file_negative]]
  = Raise KeyError.
Proof.
  destruct (@ProcessResults.main no_numeric_strings rational_sqrt
              [Some [htl_file_a]] [Some [or_file_gap]; None; Some [or_file_negative]])
    as [written|e] eqn:E; [by vm_compute in E|].
  f_equal.
  exact (proj1 (proj2 (proj2 (@main_open_race_summary no_numeric_strings rational_sqrt
                  [Some [htl_file_a]]
                  [Some [or_file_gap]; None; Some [or_file_negative]]))) e E).
Defined.

(** ** Pooling over tournaments *)

Lemma followed_by_lookup {V} (first second : gmap string (list V)) k :
  followed_by first second !! k
  = match first !! k, second !! k with
    | Some x, Some y => Some (x ++ y)
    | Some x, None => Some x
    | None, o => o
    end.
Proof.
  unfold followed_by. rewrite lookup_union_with.
  by destruct (first !! k), (second !! k).
Qed.

Lemma followed_by_empty {V} (first : gmap string (list V)) :
  followed_by first ∅ = first.
Proof.
  apply map_eq. intros k. rewrite followed_by_lookup, lookup_empty.
  by destruct (first !! k).
Qed.

Lemma append_to_followed_by {V} name (v : V) (first second : gmap string (list V)) :
  append_to name v (followed_by first second)
  = followed_by first (append_to name v second).
Proof.
  apply map_eq. intros k.
  rewrite append_to_lookup, !followed_by_lookup, append_to_lookup.
  destruct (decide (name = k)) as [->|Hne]; [|done].
  destruct (first !! k) as [x|], (second !! k) as [y|]; cbn; try done.
  by rewrite app_assoc.
Qed.

Section pooling.
Context `{StrParsers}.

Lemma pool_optimizer_results_onto field opt_res (first second : gmap string (list float)) :
  pool_optimizer_results field opt_res (followed_by first second)
  = (own ← pool_optimizer_results field opt_res second; Ok (followed_by first own)).
Proof.
  unfold pool_optimizer_results. destruct (Py.items opt_res) as [items|e]; [|done].
  cbn. revert second. induction items as [|[name res] items IH]; intros second; [done|].
  cbn [for_each]. destruct (Py.get res field JNull) as [steps|e]; [|done]. cbn.
  destruct (Py.is_none steps); cbn; [apply IH|].
  destruct (Py.float steps) as [v|e]; [|done]. cbn.
  rewrite append_to_followed_by. apply IH.
Qed.

Lemma pool_tournament_onto tournament (first second : gmap string (list float)) :
  pool_tournament tournament (followed_by first second)
  = (own ← pool_tournament tournament second; Ok (followed_by first own)).
Proof.
  unfold pool_tournament.
  destruct (Py.get tournament "competitions" (JArr [])) as [competitions|e]; [|done].
  cbn. destruct (Py.iter competitions) as [comps|e]; [|done]. cbn.
  revert second. induction comps as [|comp comps IH]; intros second; [done|].
  cbn [for_each].
  destruct (Py.get comp "optimizer_results" (JObj [])) as [opt_res|e]; [|done]. cbn.
  rewrite pool_optimizer_results_onto.
  destruct (pool_optimizer_results "steps_to_target" opt_res second) as [own|e];
    [|done].
  cbn. apply IH.
Qed.

Lemma pool_tournaments_onto tournaments (first second : gmap string (list float)) :
  for_each tournaments pool_tournament (followed_by first second)
  = (own ← for_each tournaments pool_tournament second; Ok (followed_by first own)).
Proof.
  revert second. induction tournaments as [|t ts IH]; intros second; [done|].
  cbn [for_each]. rewrite pool_tournament_onto.
  destruct (pool_tournament t second) as [own|e]; [|done]. cbn. apply IH.
Qed.

Lemma collect_all_tournaments tournaments :
  tournaments ≠ [] →
  ProcessResults.collect_hide_label_steps (all_tournaments tournaments)
  = for_each tournaments pool_tournament ∅.
Proof.
  intros Hne. unfold ProcessResults.collect_hide_label_steps, all_tournaments.
  cbn [Py.get Py.assoc String.eqb Ascii.eqb Bool.eqb from_option id mbind
       result_bind Py.truthy].
  cbn. by rewrite bool_decide_eq_false_2.
Qed.

(** X17. [collect_hide_label_steps] pools the steps over the tournaments:
    for the tournaments [first ++ second] under
    ["all_tournament_results"] it gives every optimizer its values in
    [first] followed by its values in [second], where
    [process_hide_label_file] of [generate_data.py] keeps those of one
    tournament only. *)
Theorem tournaments_are_pooled (first second : list json) :
  first ≠ [] → second ≠ [] →
  ProcessResults.collect_hide_label_steps (all_tournaments (first ++ second))
  = (steps_1 ← ProcessResults.collect_hide_label_steps (all_tournaments first);
     steps_2 ← ProcessResults.collect_hide_label_steps (all_tournaments second);
     Ok (followed_by steps_1 steps_2)) ∧
  ∀ (steps_1 steps_2 : gmap string (list float)) name,
    default [] (followed_by steps_1 steps_2 !! name)
    = default [] (steps_1 !! name) ++ default [] (steps_2 !! name).
Proof.
  intros H1 H2. split.
  - rewrite !collect_all_tournaments by (done || by destruct first).
    rewrite for_each_app.
    destruct (for_each first pool_tournament ∅) as [steps_1|e]; [|done]. cbn.
    rewrite <- (followed_by_empty steps_1) at 1.
    apply pool_tournaments_onto.
  - intros steps_1 steps_2 name. rewrite followed_by_lookup.
    destruct (steps_1 !! name), (steps_2 !! name); cbn; [done| |done..].
    by rewrite app_nil_r.
Qed.
End pooling.

Lemma tournaments_are_pooled_witness :
  ∃ steps,
    @ProcessResults.collect_hide_label_steps no_numeric_strings
      (all_tournaments [tournament_1; tournament_2]) = Ok steps ∧
    steps !! "A" = Some [Fin 12; Fin 20].
Proof.
  pose proof (proj1 (@tournaments_are_pooled no_numeric_strings
                [tournament_1] [tournament_2] ltac:(done) ltac:(done))) as Hpool.
  eexists. split; [exact Hpool|]. by vm_compute.
Defined.

(** ** The files behind an entry of [playground_data] *)

Lemma at_slot_alter (f : gmap Z ProcessOfficialResults.Datasets
                         → gmap Z ProcessOfficialResults.Datasets)
    (playground_data : ProcessOfficialResults.Playground)
    (hidden_frac' hidden_frac : Qcanon.Qc)
    (difficulty' difficulty race_type' race_type : string) :
  at_slot (alter (alter (alter f race_type') difficulty') hidden_frac' playground_data)
    hidden_frac difficulty race_type
  = (if bool_decide (hidden_frac' = hidden_frac ∧ difficulty' = difficulty
                     ∧ race_type' = race_type)
     then f else id) <$> at_slot playground_data hidden_frac difficulty race_type.
Proof.
  unfold at_slot, ProcessOfficialResults.Playground,
    ProcessOfficialResults.Datasets in *.
  destruct (decide (hidden_frac' = hidden_frac)) as [->|Hh].
  2:{ rewrite lookup_alter_ne by done.
      rewrite bool_decide_eq_false_2 by (intros (? & _); done).
      by rewrite option_fmap_id. }
  rewrite lookup_alter_eq.
  destruct (playground_data !! hidden_frac) as [by_difficulty|]; [|done]. cbn.
  destruct (decide (difficulty' = difficulty)) as [->|Hd].
  2:{ rewrite lookup_alter_ne by done.
      rewrite bool_decide_eq_false_2 by (intros (_ & ? & _); done).
      by rewrite option_fmap_id. }
  rewrite lookup_alter_eq.
  destruct (by_difficulty !! difficulty) as [by_race|]; [|done]. cbn.
  destruct (decide (race_type' = race_type)) as [->|Hr].
  - rewrite lookup_alter_eq. by rewrite bool_decide_eq_true_2.
  - rewrite lookup_alter_ne by done.
    rewrite bool_decide_eq_false_2 by (intros (_ & _ & ?); done).
    by rewrite option_fmap_id.
Qed.

Lemma fmap_unchanged {A} (f : A → A) (o : option A) :
  (∀ x, f x = x) → f <$> o = o.
Proof. intros Hf. destruct o as [x|]; [|done]. cbn. by rewrite Hf. Qed.

(** A loop whose iterations each store some files at a slot stores, in
    all, the files of the iterations one after the other. *)
Lemma store_loop {A S} (look : S → option (gmap Z ProcessOfficialResults.Datasets))
    (store : gmap Z ProcessOfficialResults.Datasets → JsonFile
             → gmap Z ProcessOfficialResults.Datasets)
    (step : S → A → S) (files : A → list JsonFile) (l : list A) (s : S) :
  (∀ s x, look (step s x) = (λ by_batch, foldl store by_batch (files x)) <$> look s) →
  look (foldl step s l)
  = (λ by_batch, foldl store by_batch (concat (files <$> l))) <$> look s.
Proof.
  intros Hstep. revert s. induction l as [|x l IH]; intros s.
  - cbn. by rewrite option_fmap_id.
  - cbn [foldl]. rewrite IH, Hstep, <- option_fmap_compose.
    apply option_fmap_ext. intros by_batch. cbn.
    by rewrite foldl_app.
Qed.

Section slots.
Context `{StrParsers}.

Lemma store_race_dirs_slot hidden_frac' difficulty' playground_data race_dirs
    hidden_frac difficulty race_type :
  race_type ∈ ["Hide_The_Label"; "Open_Race"] →
  at_slot (ProcessOfficialResults.store_race_dirs hidden_frac' difficulty'
             playground_data race_dirs) hidden_frac difficulty race_type
  = (λ by_batch,
       foldl (ProcessOfficialResults.store_file race_type) by_batch
         (if bool_decide (hidden_frac' = hidden_frac ∧ difficulty' = difficulty)
          then race_files race_type race_dirs else []))
    <$> at_slot playground_data hidden_frac difficulty race_type.
Proof.
  intros Hrace. unfold ProcessOfficialResults.store_race_dirs.
  rewrite (store_loop (λ pd, at_slot pd hidden_frac difficulty race_type)
             (ProcessOfficialResults.store_file race_type) _
             (λ race_dir,
                if bool_decide (hidden_frac' = hidden_frac ∧ difficulty' = difficulty)
                then if bool_decide (entry_name race_dir = race_type)
                     then default [] (entry_dir race_dir) else []
                else [])).
  - apply option_fmap_ext. intros by_batch. cbn. f_equal. unfold race_files.
    case_bool_decide; [done|]. clear. induction race_dirs as [|d ds IH]; [done|].
    by rewrite fmap_cons.
  - intros pd race_dir. destruct (entry_dir race_dir) as [json_files|] eqn:E.
    + cbn zeta. case_bool_decide as Hin.
      * rewrite at_slot_alter. apply option_fmap_ext. intros by_batch.
        repeat case_bool_decide; destruct_and?; simplify_eq; try done;
          exfalso; intuition congruence.
      * rewrite fmap_unchanged; [done|]. intros by_batch.
        repeat case_bool_decide; simplify_eq; done.
    + cbn. rewrite fmap_unchanged; [done|].
      intros by_batch. by repeat case_bool_decide.
Qed.

Lemma store_difficulty_dirs_slot hidden_frac' playground_data difficulty_dirs
    hidden_frac difficulty race_type :
  race_type ∈ ["Hide_The_Label"; "Open_Race"] →
  at_slot (ProcessOfficialResults.store_difficulty_dirs hidden_frac'
             playground_data difficulty_dirs) hidden_frac difficulty race_type
  = (λ by_batch,
       foldl (ProcessOfficialResults.store_file race_type) by_batch
         (if bool_decide (hidden_frac' = hidden_frac)
          then difficulty_files difficulty race_type difficulty_dirs else []))
    <$> at_slot playground_data hidden_frac difficulty race_type.
Proof.
  intros Hrace. unfold ProcessOfficialResults.store_difficulty_dirs.
  rewrite (store_loop (λ pd, at_slot pd hidden_frac difficulty race_type)
             (ProcessOfficialResults.store_file race_type) _
             (λ difficulty_dir,
                if bool_decide (hidden_frac' = hidden_frac)
                then if bool_decide (difficulty_of_name (entry_name difficulty_dir)
                                     = Some difficulty)
                     then race_files race_type (default [] (entry_dir difficulty_dir))
                     else []
                else [])).
  - apply option_fmap_ext. intros by_batch. cbn. f_equal. unfold difficulty_files.
    case_bool_decide; [done|]. clear. induction difficulty_dirs as [|d ds IH]; [done|].
    by rewrite fmap_cons.
  - intros pd difficulty_dir. unfold difficulty_of_name.
    destruct (entry_dir difficulty_dir) as [race_dirs|] eqn:E.
    + destruct (Str.contains "Regular_Mode" (entry_name difficulty_dir)).
      { rewrite store_race_dirs_slot by done. apply option_fmap_ext.
        intros by_batch. cbn. f_equal.
        repeat case_bool_decide; try done; exfalso; intuition congruence. }
      destruct (Str.contains "Hard_Mode" (entry_name difficulty_dir)).
      { rewrite store_race_dirs_slot by done. apply option_fmap_ext.
        intros by_batch. cbn. f_equal.
        repeat case_bool_decide; try done; exfalso; intuition congruence. }
      rewrite fmap_unchanged; [done|].
      intros by_batch. by repeat case_bool_decide.
    + cbn. rewrite fmap_unchanged; [done|].
      intros by_batch. unfold race_files. by repeat case_bool_decide.
Qed.

(** X18. The entries of [playground_data] do not depend on each other:
    what [main] writes under a hidden fraction, a difficulty and a race
    type is what the files of the directories that [main] reads as that
    hidden fraction, that difficulty and that race type store, one after
    the other, in a dictionary with an empty entry for each of the batch
    sizes 1, 10 and 20. A directory is read as 0.95 when its name has
    [hiddenfrac95], else as 0.99 when it has [hiddenfrac99]; as Regular
    when its name has [Regular_Mode], else as Hard when it has
    [Hard_Mode]; and as a race type when that is its name. *)
Theorem playground_slot_files
    (hidden_frac_dirs :
       list (DirEntry (list (DirEntry (list (DirEntry (list JsonFile)))))))
    (playground_data : ProcessOfficialResults.Playground)
    (hidden_frac : Qcanon.Qc) (difficulty race_type : string) :
  ProcessOfficialResults.main (Some hidden_frac_dirs) = Some playground_data →
  hidden_frac ∈ [Qcanon.Q2Qc (95 # 100); Qcanon.Q2Qc (99 # 100)] →
  difficulty ∈ ["Regular"; "Hard"] →
  race_type ∈ ["Hide_The_Label"; "Open_Race"] →
  at_slot playground_data hidden_frac difficulty race_type
  = Some (foldl (ProcessOfficialResults.store_file race_type)
            (list_to_map ((λ b, (b, ∅)) <$> [1; 10; 20]))
            (slot_files hidden_frac difficulty race_type hidden_frac_dirs)).
Proof.
  intros [= <-] Hh Hd Hr.
  rewrite (store_loop (λ pd, at_slot pd hidden_frac difficulty race_type)
             (ProcessOfficialResults.store_file race_type) _
             (λ hidden_frac_dir,
                if bool_decide (hidden_frac_of_name (entry_name hidden_frac_dir)
                                = Some hidden_frac)
                then difficulty_files difficulty race_type
                       (default [] (entry_dir hidden_frac_dir))
                else [])).
  - fold (slot_files hidden_frac difficulty race_type hidden_frac_dirs).
    assert (Hinit : at_slot ProcessOfficialResults.initial_playground
                      hidden_frac difficulty race_type
                    = Some (list_to_map ((λ b, (b, ∅)) <$> [1; 10; 20]))).
    { clear -Hh Hd Hr.
      apply elem_of_cons in Hh as [->|Hh];
        [|apply list_elem_of_singleton in Hh as ->];
        (apply elem_of_cons in Hd as [->|Hd];
         [|apply list_elem_of_singleton in Hd as ->]);
        (apply elem_of_cons in Hr as [->|Hr];
         [|apply list_elem_of_singleton in Hr as ->]);
        by vm_compute. }
    by rewrite Hinit.
  - intros pd hidden_frac_dir. unfold hidden_frac_of_name.
    destruct (entry_dir hidden_frac_dir) as [difficulty_dirs|] eqn:E.
    + destruct (Str.contains "hiddenfrac95" (entry_name hidden_frac_dir)).
      { rewrite store_difficulty_dirs_slot by done. apply option_fmap_ext.
        intros by_batch. cbn. f_equal.
        repeat case_bool_decide; try done; exfalso; intuition congruence. }
      destruct (Str.contains "hiddenfrac99" (entry_name hidden_frac_dir)).
      { rewrite store_difficulty_dirs_slot by done. apply option_fmap_ext.
        intros by_batch. cbn. f_equal.
        repeat case_bool_decide; try done; exfalso; intuition congruence. }
      rewrite fmap_unchanged; [done|].
      intros by_batch. by repeat case_bool_decide.
    + cbn. rewrite fmap_unchanged; [done|].
      intros by_batch. unfold difficulty_files. by repeat case_bool_decide.
Qed.
End slots.

Lemma playground_slot_files_witness :
  ∃ playground_data,
    @ProcessOfficialResults.main decimal_strings (Some example_result_official)
    = Some playground_data ∧
    Qcanon.Q2Qc (95 # 100) ∈ [Qcanon.Q2Qc (95 # 100); Qcanon.Q2Qc (99 # 100)] ∧
    "Regular" ∈ ["Regular"; "Hard"] ∧
    "Hide_The_Label" ∈ ["Hide_The_Label"; "Open_Race"] ∧
    slot_files (Qcanon.Q2Qc (95 # 100)) "Regular" "Hide_The_Label"
      example_result_official = [official_file_1; official_file_2] ∧
    at_slot playground_data (Qcanon.Q2Qc (95 # 100)) "Regular" "Hide_The_Label"
    = Some (foldl (@ProcessOfficialResults.store_file decimal_strings "Hide_The_Label")
              (list_to_map ((λ b, (b, ∅)) <$> [1; 10; 20]))
              (slot_files (Qcanon.Q2Qc (95 # 100)) "Regular" "Hide_The_Label"
                 example_result_official)).
Proof.
  eexists. split; [reflexivity|].
  split; [apply list_elem_of_here|].
  split; [apply list_elem_of_here|].
  split; [apply list_elem_of_here|].
  split; [by vm_compute|].
  apply (@playground_slot_files decimal_strings example_result_official);
    [reflexivity|apply list_elem_of_here..].
Defined.
